(** * neo-python front door: handshake codec, credential guard,
      response pipeline and shutdown tail

    Shallow embedding of
      - [neo/Network/Payloads/VersionPayload.py]
      - [neo/api/utils.py]
      - [neo/api/JSONRPC/auth.py]
      - [neo/bin/api_server.py] (the tail of [main])
    together with the properties stated for them. *)

From Stdlib Require Import ZArith List Lia Bool String Ascii.
From Stdlib.Strings Require Import Byte.
From stdpp Require Import base option list strings gmap pretty.
Import ListNotations.

Local Open Scope Z_scope.

(* ===================================================================== *)
(** * Part I: definitions                                                 *)
(* ===================================================================== *)

(** ** Python values, exceptions and effects *)

(** A Python [bytes] object. *)
Definition bytes := list byte.

(** A Python [str]: a sequence of Unicode code points. *)
Definition str := list Z.

Definition byte_to_Z (b : byte) : Z := Z.of_N (Byte.to_N b).

Definition Z_to_byte (z : Z) : byte :=
  match Byte.of_N (Z.to_N z) with
  | Some b => b
  | None => x00
  end.

Global Instance byte_eq_dec : EqDecision byte := Byte.byte_eq_dec.

(** ASCII text of the development (header names, log lines) as a [str]. *)
Definition str_of_string (s : string) : str :=
  map (fun a => Z.of_N (N_of_ascii a)) (list_ascii_of_string s).

(** The exceptions that the modelled code can raise. *)
Inductive exception :=
| TruncatedInput        (* DecodeError.Truncated of the codec          *)
| InvalidEncoding       (* DecodeError.InvalidEncoding of the codec    *)
| StructError           (* a value does not fit its fixed-width field  *)
| UnicodeDecodeError    (* bytes.decode('utf-8') on ill-formed input   *)
| UnicodeEncodeError    (* str.encode('utf-8') on a lone surrogate     *)
| KeyError              (* popitem() on an empty dictionary            *)
| AttributeError        (* an attribute the object does not have       *)
| ValueError            (* an argument outside the accepted values     *)
| OverflowError         (* a number too large for the C type it goes to *)
| UnhandledCredentials  (* twisted.cred.error.UnhandledCredentials     *)
| UnauthorizedLogin (msg : string)  (* twisted.cred.error.UnauthorizedLogin *)
| CollaboratorError (who : string)  (* an error raised by a collaborator   *)
| HandlerError (what : string).     (* an error raised by a route handler  *)

Inductive result (A : Type) :=
| Ok (a : A)
| Raise (e : exception).
Arguments Ok {A} a.
Arguments Raise {A} e.

(** Computations over a mutable store [S] that may raise: the store
    survives a raise, as the mutations of a Python object do. *)
Definition M (S A : Type) : Type := S -> result A * S.

Definition ret {S A} (a : A) : M S A := fun s => (Ok a, s).

Definition raise {S A} (e : exception) : M S A := fun s => (Raise e, s).

Definition bind {S A B} (c : M S A) (k : A -> M S B) : M S B :=
  fun s =>
    match c s with
    | (Ok a, s') => k a s'
    | (Raise e, s') => (Raise e, s')
    end.

Definition get {S} : M S S := fun s => (Ok s, s).

Definition modify {S} (f : S -> S) : M S unit := fun s => (Ok tt, f s).

Definition lift {S A} (r : result A) : M S A := fun s => (r, s).

Declare Scope py_scope.
Delimit Scope py_scope with py.
Notation "'let!' x ':=' c 'in' k" := (bind c (fun x => k))
  (at level 10, x name, c at level 100, k at level 200) : py_scope.
Notation "'do!' c 'in' k" := (bind c (fun _ => k))
  (at level 10, c at level 100, k at level 200) : py_scope.

(** Errors only, no store. *)
Definition rbind {A B} (r : result A) (k : A -> result B) : result B :=
  match r with
  | Ok a => k a
  | Raise e => Raise e
  end.

Notation "'let?' x ':=' r 'in' k" := (rbind r (fun x => k))
  (at level 10, x name, r at level 100, k at level 200) : py_scope.

Local Open Scope py_scope.

(** ** UTF-8, as [str.encode('utf-8')] and [bytes.decode('utf-8')] *)

Definition is_scalar (c : Z) : bool :=
  ((0 <=? c) && (c <? 0xD800)) || ((0xE000 <=? c) && (c <? 0x110000)).

Definition utf8_encode_cp (c : Z) : option (list Z) :=
  if negb (is_scalar c) then None
  else if c <? 0x80 then Some [c]
  else if c <? 0x800 then Some [0xC0 + c / 64; 0x80 + c mod 64]
  else if c <? 0x10000 then
    Some [0xE0 + c / 4096; 0x80 + (c / 64) mod 64; 0x80 + c mod 64]
  else
    Some [0xF0 + c / 262144; 0x80 + (c / 4096) mod 64;
          0x80 + (c / 64) mod 64; 0x80 + c mod 64].

Fixpoint utf8_encode (s : str) : option bytes :=
  match s with
  | [] => Some []
  | c :: rest =>
      match utf8_encode_cp c, utf8_encode rest with
      | Some zs, Some bs => Some (map Z_to_byte zs ++ bs)
      | _, _ => None
      end
  end.

Definition is_cont (x : Z) : bool := (0x80 <=? x) && (x <? 0xC0).

Definition push (c : Z) (o : option str) : option str :=
  match o with
  | Some s => Some (c :: s)
  | None => None
  end.

Fixpoint utf8_decode (bs : bytes) : option str :=
  match bs with
  | [] => Some []
  | b0 :: r0 =>
      let x0 := byte_to_Z b0 in
      if x0 <? 0x80 then push x0 (utf8_decode r0)
      else if x0 <? 0xC2 then None
      else if x0 <? 0xE0 then
        match r0 with
        | b1 :: r1 =>
            let x1 := byte_to_Z b1 in
            if is_cont x1
            then push ((x0 - 0xC0) * 64 + (x1 - 0x80)) (utf8_decode r1)
            else None
        | _ => None
        end
      else if x0 <? 0xF0 then
        match r0 with
        | b1 :: b2 :: r2 =>
            let x1 := byte_to_Z b1 in
            let x2 := byte_to_Z b2 in
            let c := (x0 - 0xE0) * 4096 + (x1 - 0x80) * 64 + (x2 - 0x80) in
            if is_cont x1 && is_cont x2 && (0x800 <=? c) && is_scalar c
            then push c (utf8_decode r2)
            else None
        | _ => None
        end
      else if x0 <? 0xF5 then
        match r0 with
        | b1 :: b2 :: b3 :: r3 =>
            let x1 := byte_to_Z b1 in
            let x2 := byte_to_Z b2 in
            let x3 := byte_to_Z b3 in
            let c := (x0 - 0xF0) * 262144 + (x1 - 0x80) * 4096
                     + (x2 - 0x80) * 64 + (x3 - 0x80) in
            if is_cont x1 && is_cont x2 && is_cont x3
               && (0x10000 <=? c) && is_scalar c
            then push c (utf8_decode r3)
            else None
        | _ => None
        end
      else None
  end.

Definition encode_utf8 (s : str) : result bytes :=
  match utf8_encode s with
  | Some bs => Ok bs
  | None => Raise UnicodeEncodeError
  end.

Definition decode_utf8 (bs : bytes) : result str :=
  match utf8_decode bs with
  | Some s => Ok s
  | None => Raise UnicodeDecodeError
  end.

(** ** The binary stream helpers of [neo.IO] (BinaryWriter, BinaryReader)

    The two classes are used by [VersionPayload] but are not part of the
    excerpt; their behaviour is taken from section 4.1 of the
    specification. *)

(** Modelled from the spec: the byte order of the fixed-width fields,
    "little/big-endian (consistently chosen)"; BinaryWriter and
    BinaryReader are missing, both orders are kept as a parameter. *)
Inductive endianness := LittleEndian | BigEndian.

(** Modelled from the spec: the [n] bytes of a fixed-width unsigned
    field, least significant first (BinaryWriter is missing). *)
Fixpoint le_bytes (n : nat) (v : Z) : bytes :=
  match n with
  | O => []
  | S k => Z_to_byte (v mod 256) :: le_bytes k (v / 256)
  end.

(** Modelled from the spec: the value of a fixed-width unsigned field
    from its bytes, least significant first (BinaryReader is missing). *)
Fixpoint le_value (bs : bytes) : Z :=
  match bs with
  | [] => 0
  | b :: rest => byte_to_Z b + 256 * le_value rest
  end.

(** Modelled from the spec: "fixed-width ... encoding" of an unsigned
    value on [n] bytes; a value that does not fit is rejected
    (BinaryWriter is missing). *)
Definition pack (e : endianness) (n : nat) (v : Z) : result bytes :=
  if (0 <=? v) && (v <? 256 ^ Z.of_nat n) then
    Ok (match e with
        | LittleEndian => le_bytes n v
        | BigEndian => rev (le_bytes n v)
        end)
  else Raise StructError.

(** Modelled from the spec: the inverse of [pack] (BinaryReader is
    missing). *)
Definition unpack (e : endianness) (bs : bytes) : Z :=
  match e with
  | LittleEndian => le_value bs
  | BigEndian => le_value (rev bs)
  end.

Module BinaryWriter.

(** The store of a writer: the bytes written so far. *)
Definition stream := bytes.

(** Modelled from the spec: BinaryWriter.WriteBytes is missing; the
    bytes are appended to the stream. *)
Definition WriteBytes (bs : bytes) : M stream unit :=
  modify (fun w => w ++ bs).

(** Modelled from the spec: the fixed-width writers of the missing
    BinaryWriter, "encoding is total given valid field values". *)
Definition WriteUInt (e : endianness) (n : nat) (v : Z) : M stream unit :=
  let! bs := lift (pack e n v) in WriteBytes bs.

(** Modelled from the spec: BinaryWriter.WriteUInt8 is missing. *)
Definition WriteUInt8 e := WriteUInt e 1.
(** Modelled from the spec: BinaryWriter.WriteUInt16 is missing. *)
Definition WriteUInt16 e := WriteUInt e 2.
(** Modelled from the spec: BinaryWriter.WriteUInt32 is missing. *)
Definition WriteUInt32 e := WriteUInt e 4.
(** Modelled from the spec: BinaryWriter.WriteUInt64 is missing. *)
Definition WriteUInt64 e := WriteUInt e 8.

(** Modelled from the spec: BinaryWriter.WriteBool is missing; a
    boolean takes one byte. *)
Definition WriteBool (e : endianness) (b : bool) : M stream unit :=
  WriteUInt8 e (if b then 1 else 0).

(** Modelled from the spec: BinaryWriter.WriteVarInt is missing; "a
    variable-length unsigned-integer prefix (1, 3, 5, or 9 bytes
    depending on magnitude, as in typical compact-size encodings)". *)
Definition WriteVarInt (e : endianness) (v : Z) : M stream unit :=
  if v <? 0 then raise StructError
  else if v <? 0xFD then WriteUInt8 e v
  else if v <=? 0xFFFF then do! WriteUInt8 e 0xFD in WriteUInt16 e v
  else if v <=? 0xFFFFFFFF then do! WriteUInt8 e 0xFE in WriteUInt32 e v
  else do! WriteUInt8 e 0xFF in WriteUInt64 e v.

(** Modelled from the spec: BinaryWriter.WriteVarString is missing; "a
    length-prefixed string using a variable-length unsigned-integer
    prefix ... followed by UTF-8 bytes"; "encoder must reject ... on
    overflow". *)
Definition WriteVarString (e : endianness) (s : str) : M stream unit :=
  let! bs := lift (encode_utf8 s) in
  do! WriteVarInt e (Z.of_nat (length bs)) in
  WriteBytes bs.

End BinaryWriter.

Module BinaryReader.

(** The store of a reader: the bytes not yet consumed. *)
Definition stream := bytes.

(** Modelled from the spec: BinaryReader.ReadBytes is missing; "fails
    with TruncatedInput if fewer bytes remain than a field requires". *)
Definition ReadBytes (n : nat) : M stream bytes :=
  fun r =>
    if (length r <? n)%nat then (Raise TruncatedInput, r)
    else (Ok (take n r), drop n r).

(** Modelled from the spec: the fixed-width readers of the missing
    BinaryReader. *)
Definition ReadUInt (e : endianness) (n : nat) : M stream Z :=
  let! bs := ReadBytes n in ret (unpack e bs).

(** Modelled from the spec: BinaryReader.ReadUInt8 is missing. *)
Definition ReadUInt8 e := ReadUInt e 1.
(** Modelled from the spec: BinaryReader.ReadUInt16 is missing. *)
Definition ReadUInt16 e := ReadUInt e 2.
(** Modelled from the spec: BinaryReader.ReadUInt32 is missing. *)
Definition ReadUInt32 e := ReadUInt e 4.
(** Modelled from the spec: BinaryReader.ReadUInt64 is missing. *)
Definition ReadUInt64 e := ReadUInt e 8.

(** Modelled from the spec: BinaryReader.ReadBool is missing; one
    byte, any non-zero value reads as true. *)
Definition ReadBool (e : endianness) : M stream bool :=
  let! v := ReadUInt8 e in ret (negb (v =? 0)).

(** Modelled from the spec: BinaryReader.ReadVarInt is missing; the
    prefix of 1, 3, 5 or 9 bytes; "fails ... with InvalidEncoding if
    the variable-length prefix is malformed", that is, when a longer
    form carries a value that the shorter form holds. *)
Definition ReadVarInt (e : endianness) : M stream Z :=
  let! fb := ReadUInt8 e in
  if fb =? 0xFD then
    let! v := ReadUInt16 e in
    if v <? 0xFD then raise InvalidEncoding else ret v
  else if fb =? 0xFE then
    let! v := ReadUInt32 e in
    if v <=? 0xFFFF then raise InvalidEncoding else ret v
  else if fb =? 0xFF then
    let! v := ReadUInt64 e in
    if v <=? 0xFFFFFFFF then raise InvalidEncoding else ret v
  else ret fb.

(** Modelled from the spec: BinaryReader.ReadVarString is missing; the
    prefix, then that many bytes, returned undecoded. *)
Definition ReadVarString (e : endianness) : M stream bytes :=
  let! n := ReadVarInt e in ReadBytes (Z.to_nat n).

End BinaryReader.

(** ** [neo/Network/Payloads/VersionPayload.py] *)

Module VersionPayload.
Import BinaryWriter BinaryReader.

(** The attributes of a [VersionPayload] object; [None] is Python's
    [None], the class-level default of the first six. *)
Record t := mk {
  Version : option Z;
  Services : option Z;
  Timestamp : option Z;
  Port : option Z;
  Nonce : option Z;
  UserAgent : option str;
  StartHeight : Z;
  Relay : bool
}.

(** [VersionPayload()]: with no argument the constructor assigns
    nothing and the class attributes show through. *)
Definition new : t :=
  {| Version := None; Services := None; Timestamp := None; Port := None;
     Nonce := None; UserAgent := None; StartHeight := 1; Relay := false |}.

Definition set_Version (v : Z) (p : t) : t :=
  mk (Some v) (Services p) (Timestamp p) (Port p) (Nonce p)
     (UserAgent p) (StartHeight p) (Relay p).
Definition set_Services (v : Z) (p : t) : t :=
  mk (Version p) (Some v) (Timestamp p) (Port p) (Nonce p)
     (UserAgent p) (StartHeight p) (Relay p).
Definition set_Timestamp (v : Z) (p : t) : t :=
  mk (Version p) (Services p) (Some v) (Port p) (Nonce p)
     (UserAgent p) (StartHeight p) (Relay p).
Definition set_Port (v : Z) (p : t) : t :=
  mk (Version p) (Services p) (Timestamp p) (Some v) (Nonce p)
     (UserAgent p) (StartHeight p) (Relay p).
Definition set_Nonce (v : Z) (p : t) : t :=
  mk (Version p) (Services p) (Timestamp p) (Port p) (Some v)
     (UserAgent p) (StartHeight p) (Relay p).
Definition set_UserAgent (v : str) (p : t) : t :=
  mk (Version p) (Services p) (Timestamp p) (Port p) (Nonce p)
     (Some v) (StartHeight p) (Relay p).
Definition set_StartHeight (v : Z) (p : t) : t :=
  mk (Version p) (Services p) (Timestamp p) (Port p) (Nonce p)
     (UserAgent p) v (Relay p).
Definition set_Relay (v : bool) (p : t) : t :=
  mk (Version p) (Services p) (Timestamp p) (Port p) (Nonce p)
     (UserAgent p) (StartHeight p) v.

(** Passing an attribute that is still [None] to a writer. *)
Definition attr {S A} (o : option A) : M S A :=
  match o with
  | Some a => ret a
  | None => raise StructError
  end.

(** [Serialize(self, writer)]. *)
Definition Serialize (e : endianness) (self : t) : M BinaryWriter.stream unit :=
  do! (let! v := attr (Version self) in WriteUInt8 e v) in
  do! (let! v := attr (Services self) in WriteUInt64 e v) in
  do! (let! v := attr (Timestamp self) in WriteUInt32 e v) in
  do! (let! v := attr (Port self) in WriteUInt16 e v) in
  do! (let! v := attr (Nonce self) in WriteUInt32 e v) in
  do! (let! v := attr (UserAgent self) in WriteVarString e v) in
  do! WriteUInt32 e (StartHeight self) in
  WriteBool e (Relay self).

(** The store of [Deserialize]: the object being filled and the reader. *)
Definition store : Type := t * BinaryReader.stream.

Definition reading {A} (c : M BinaryReader.stream A) : M store A :=
  fun s =>
    match c (snd s) with
    | (r, reader') => (r, (fst s, reader'))
    end.

Definition assign (f : t -> t) : M store unit :=
  modify (fun s => (f (fst s), snd s)).

(** [Deserialize(self, reader)]: each attribute is assigned as soon as
    it is read. *)
Definition Deserialize (e : endianness) : M store unit :=
  do! (let! v := reading (ReadUInt8 e) in assign (set_Version v)) in
  do! (let! v := reading (ReadUInt64 e) in assign (set_Services v)) in
  do! (let! v := reading (ReadUInt32 e) in assign (set_Timestamp v)) in
  do! (let! v := reading (ReadUInt16 e) in assign (set_Port v)) in
  do! (let! v := reading (ReadUInt32 e) in assign (set_Nonce v)) in
  do! (let! bs := reading (ReadVarString e) in
       let! s := lift (decode_utf8 bs) in
       assign (set_UserAgent s)) in
  do! (let! v := reading (ReadUInt32 e) in assign (set_StartHeight v)) in
  let! v := reading (ReadBool e) in assign (set_Relay v).

(** Modelled from the spec: the contract [encode(PeerIdentification)
    -> bytes] of section 4.1; the caller that creates the writer is
    missing: [Serialize] on an empty stream. *)
Definition encode (e : endianness) (x : t) : result bytes :=
  match Serialize e x [] with
  | (Ok _, out) => Ok out
  | (Raise err, _) => Raise err
  end.

(** Modelled from the spec: the contract [decode(bytes) ->
    PeerIdentification | DecodeError] of section 4.1; the caller that
    creates the object and the reader is missing: [Deserialize] on a
    fresh object, which is handed out only when no error was raised. *)
Definition decode (e : endianness) (bs : bytes) : result t :=
  match Deserialize e (new, bs) with
  | (Ok _, (self, _)) => Ok self
  | (Raise err, _) => Raise err
  end.

Definition fits (n : nat) (o : option Z) : bool :=
  match o with
  | Some v => (0 <=? v) && (v <? 256 ^ Z.of_nat n)
  | None => false
  end.

(** A valid value: every attribute set, every number within its field
    width, the user agent encodable and short enough for the prefix. *)
Definition valid (x : t) : bool :=
  fits 1 (Version x) && fits 8 (Services x) && fits 4 (Timestamp x)
  && fits 2 (Port x) && fits 4 (Nonce x)
  && match UserAgent x with
     | Some ua =>
         match utf8_encode ua with
         | Some bs => Z.of_nat (length bs) <? 2 ^ 64
         | None => false
         end
     | None => false
     end
  && fits 4 (Some (StartHeight x)).

End VersionPayload.

(** ** [neo/api/utils.py] *)

Definition COMPRESS_FASTEST : Z := 1.
Definition BASE_STRING_SIZE : Z := 49.
Definition MTU_TCP_PACKET_SIZE : Z := 1500.
Definition COMPRESS_THRESHOLD : Z := MTU_TCP_PACKET_SIZE + BASE_STRING_SIZE.

(** *** collections.OrderedDict: the entries in insertion order *)

Module OrderedDict.
Section OrderedDict.
Context {K V : Type} `{EqDecision K}.

Definition t : Type := list (K * V).

Definition keys (d : t) : list K := map fst d.

(** [d.get(key)]: [None] when the key is absent. *)
Fixpoint get (key : K) (d : t) : option V :=
  match d with
  | [] => None
  | (k, v) :: rest => if decide (k = key) then Some v else get key rest
  end.

(** [OrderedDict.__setitem__]: a new key goes to the end; an existing
    key keeps its place and only its value changes. *)
Fixpoint __setitem__ (key : K) (value : V) (d : t) : t :=
  match d with
  | [] => [(key, value)]
  | (k, v) :: rest =>
      if decide (k = key) then (k, value) :: rest
      else (k, v) :: __setitem__ key value rest
  end.

(** [popitem(last=False)]: removes the first entry. *)
Definition popitem_first (d : t) : result ((K * V) * t) :=
  match d with
  | [] => Raise KeyError
  | kv :: rest => Ok (kv, rest)
  end.

End OrderedDict.
Arguments t : clear implicits.
End OrderedDict.

(** *** class LimitedSizeDict(OrderedDict) *)

Module LimitedSizeDict.
Section LimitedSizeDict.
Context {K V : Type} `{EqDecision K}.

Record t := mk {
  size_limit : option Z;
  items : OrderedDict.t K V
}.

Definition len (self : t) : Z := Z.of_nat (length (items self)).

Definition get (key : K) (self : t) : option V :=
  OrderedDict.get key (items self).

(** The loop [while len(self) > self.size_limit: self.popitem(last=False)],
    every turn of which drops the first entry. *)
Fixpoint pop_while_over (limit : Z) (d : OrderedDict.t K V)
  : result (OrderedDict.t K V) :=
  if Z.of_nat (length d) >? limit then
    match d with
    | [] => Raise KeyError
    | _ :: rest => pop_while_over limit rest
    end
  else Ok d.

Definition _check_size_limit : M t unit :=
  fun self =>
    match size_limit self with
    | None => (Ok tt, self)
    | Some limit =>
        match pop_while_over limit (items self) with
        | Ok d => (Ok tt, mk (size_limit self) d)
        | Raise e => (Raise e, mk (size_limit self) [])
        end
    end.

Definition __setitem__ (key : K) (value : V) : M t unit :=
  do! modify (fun self =>
        mk (size_limit self) (OrderedDict.__setitem__ key value (items self))) in
  _check_size_limit.

(** [LimitedSizeDict(size_limit=n)]: an empty dictionary, checked once. *)
Definition __init__ (limit : option Z) : result t :=
  match _check_size_limit (mk limit []) with
  | (Ok _, self) => Ok self
  | (Raise e, _) => Raise e
  end.

End LimitedSizeDict.
Arguments t : clear implicits.
End LimitedSizeDict.

(** *** twisted.internet.defer.Deferred, by its eventual result *)

Inductive Deferred (A : Type) :=
| succeed (a : A)
| fail (e : exception).
Arguments succeed {A} a.
Arguments fail {A} e.

(** [d.addCallback(f)]: [f] runs on a result only; a failure passes by
    untouched, and an exception raised by [f] becomes the failure. *)
Definition addCallback {S A B} (f : A -> M S B) (d : Deferred A)
  : M S (Deferred B) :=
  fun s =>
    match d with
    | succeed a =>
        match f a s with
        | (Ok b, s') => (Ok (succeed b), s')
        | (Raise e, s') => (Ok (fail e), s')
        end
    | fail e => (Ok (fail e), s)
    end.

(** *** The twisted request object, as far as the decorators use it *)

Inductive header_value :=
| HStr (s : string)
| HInt (n : Z).

Record Request := mkRequest {
  requestHeaders : gmap string (list string);
  responseHeaders : gmap string header_value
}.

(** [request.setHeader(name, value)]. *)
Definition setHeader (name : string) (value : header_value) : M Request unit :=
  modify (fun r =>
    mkRequest (requestHeaders r) (<[name := value]> (responseHeaders r))).

(** [request.requestHeaders.getRawHeaders(name)]. *)
Definition getRawHeaders (name : string) : M Request (option (list string)) :=
  fun r => (Ok (requestHeaders r !! name), r).

(** Python's [sub in s] on strings. *)
Fixpoint contains (sub s : string) : bool :=
  if String.prefix sub s then true
  else match s with
       | EmptyString => false
       | String _ rest => contains sub rest
       end.

(** What a handler hands to [json_response]: a [dict] or [list], or a
    text that is already serialized ([bytes(response_data, 'utf-8')]
    takes a [str]). *)
Inductive handler_result (J : Type) :=
| Structured (j : J)
| Serialized (s : str).
Arguments Structured {J} j.
Arguments Serialized {J} s.

(** What [_response_data] returns: the text, or the compressed bytes. *)
Inductive body :=
| Text (s : str)
| Compressed (b : bytes).

Section ResponsePipeline.
(** [json.dumps] and [gzip.compress] of the Python library. *)
Context {J : Type}.
Variable json_dumps : J -> result str.
Variable gzip_compress : bytes -> Z -> bytes.

(** [any("gzip" in encoding for encoding in accepted_encodings)]. *)
Definition use_gzip (accepted_encodings : list string) : bool :=
  existsb (contains "gzip") accepted_encodings.

Definition _response_data (res : handler_result J) : M Request body :=
  let! response_data :=
    match res with
    | Structured j => lift (json_dumps j)
    | Serialized s => ret s
    end in
  do! setHeader "Content-Type" (HStr "application/json") in
  if Z.of_nat (length response_data) >? COMPRESS_THRESHOLD then
    let! accepted_encodings := getRawHeaders "Accept-Encoding" in
    match accepted_encodings with
    | Some (enc :: encs) =>
        if use_gzip (enc :: encs) then
          let! raw := lift (encode_utf8 response_data) in
          let response_data := gzip_compress raw COMPRESS_FASTEST in
          do! setHeader "Content-Encoding" (HStr "gzip") in
          do! setHeader "Content-Length"
                (HInt (Z.of_nat (length response_data))) in
          ret (Compressed response_data)
        else ret (Text response_data)
    | _ => ret (Text response_data)
    end
  else ret (Text response_data).

(** [@json_response]: the wrapper around a handler [func], which
    returns a Deferred. *)
Definition json_response (func : M Request (Deferred (handler_result J)))
  : M Request (Deferred body) :=
  let! defer_res := func in
  addCallback _response_data defer_res.

End ResponsePipeline.

Definition _request {A} (res : A) : M Request A :=
  do! setHeader "Access-Control-Allow-Origin" (HStr "*") in
  do! setHeader "Access-Control-Allow-Headers"
        (HStr "Content-Type, Access-Control-Allow-Headers, Authorization, X-Requested-With") in
  ret res.

(** [@cors_header]. *)
Definition cors_header {A} (func : M Request (Deferred A))
  : M Request (Deferred A) :=
  let! defer_res := func in
  addCallback _request defer_res.

(** ** [neo/api/JSONRPC/auth.py] *)

(** *** twisted.cred: credentials, the interfaces they provide, avatars *)

Inductive Interface :=
| IUsernamePassword
| IUsernameHashedPassword
| IAnonymous.

Global Instance Interface_eq_dec : EqDecision Interface.
Proof. solve_decision. Defined.

Inductive Credentials :=
| UsernamePassword (username password : bytes)
| UsernameHashedPassword (username hashed : bytes)
| Anonymous.

(** [interface.providedBy(credentials)]. *)
Definition providedBy (i : Interface) (c : Credentials) : bool :=
  match i, c with
  | IUsernamePassword, UsernamePassword _ _ => true
  | IUsernameHashedPassword, UsernameHashedPassword _ _ => true
  | IAnonymous, Anonymous => true
  | _, _ => false
  end.

(** What a checker answers: [ANONYMOUS], or the name it was given. *)
Inductive AvatarId :=
| ANONYMOUS
| Named (username : bytes).

Inductive Wallet :=
| UserWallet (path : string).

(** The resource an avatar is: the [app.resource()] of one of the two
    JSON-RPC servers, or one of twisted's error resources. *)
Inductive Resource :=
| ExtendedJsonRpcApiAuth (port_rpc : Z) (wallet : option Wallet)
| ExtendedJsonRpcApi (port_rpc : Z) (wallet : option Wallet)
| UnauthorizedResource
| ErrorPage (code : Z).

(** *** class HTTPAuthRealm *)

Module HTTPAuthRealm.

Record t := mk {
  port_rpc : Z;
  wallet : option Wallet
}.

(** [requestAvatar(self, avatarId, mind, *interfaces)]; of the triple
    it returns, the avatar. *)
Definition requestAvatar (self : t) (avatarId : AvatarId) : Resource :=
  match avatarId with
  | ANONYMOUS => ExtendedJsonRpcApi (port_rpc self) (wallet self)
  | Named _ => ExtendedJsonRpcApiAuth (port_rpc self) (wallet self)
  end.

End HTTPAuthRealm.

(** *** class BasicUserPassCredentialChecker *)

(** What the guard acts on: the class attribute
    [consecutive_errors_history], shared by every instance, and the
    seconds that [time.sleep] has held the thread, sleep by sleep. *)
Record world := mkWorld {
  consecutive_errors_history : LimitedSizeDict.t str Z;
  slept : list Z
}.

(** The longest sleep, in whole seconds: [time.sleep] turns its
    argument into a signed 64-bit count of nanoseconds. *)
Definition SLEEP_MAX : Z := (2 ^ 63 - 1) / 10 ^ 9.

(** [time.sleep(seconds)] on an [int]: a negative length raises
    [ValueError], a length that does not fit the count of nanoseconds
    raises [OverflowError], and in both cases nothing is slept;
    otherwise the calling thread is held that long. *)
Definition sleep (seconds : Z) : M world unit :=
  if seconds <? 0 then raise ValueError
  else if SLEEP_MAX <? seconds then raise OverflowError
  else
    modify (fun w =>
      mkWorld (consecutive_errors_history w) (slept w ++ [seconds])).

(** An operation of the shared dictionary, run on the world. *)
Definition on_history {A} (c : M (LimitedSizeDict.t str Z) A) : M world A :=
  fun w =>
    match c (consecutive_errors_history w) with
    | (r, h) => (r, mkWorld h (slept w))
    end.

Module BasicUserPassCredentialChecker.
Section Checker.
(** [neo.Wallets.utils.to_aes_key], the key derivation. *)
Variable to_aes_key : str -> bytes.

Record t := mk {
  username : str;
  password : bytes
}.

Definition credentialInterfaces : list Interface := [IUsernamePassword].

(** [consecutive_errors_history = LimitedSizeDict(size_limit=100)]. *)
Definition initial_history : LimitedSizeDict.t str Z :=
  LimitedSizeDict.mk (Some 100) [].

(** [backoff(self, n, t)]: [time.sleep(t * 2 ** (n - 1))].  The count
    [n] is at least 1 wherever it is called, so the power is an
    integer. *)
Definition backoff (n : Z) (t : Z) : M world unit :=
  sleep (t * 2 ^ (n - 1)).

(** Python's truth value of [consecutive_errors]: [None] and [0] are
    false. *)
Definition truthy (o : option Z) : bool :=
  match o with
  | Some n => negb (n =? 0)
  | None => false
  end.

Definition get_consecutive_errors (username : str) : M world Z :=
  let! consecutive_errors :=
    on_history (fun h => (Ok (LimitedSizeDict.get username h), h)) in
  match consecutive_errors with
  | Some n =>
      if truthy consecutive_errors then
        if n <? 100 then
          let consecutive_errors := n + 1 in
          do! on_history (LimitedSizeDict.__setitem__ username consecutive_errors) in
          ret consecutive_errors
        else ret n
      else
        do! on_history (LimitedSizeDict.__setitem__ username 1) in
        ret 1
  | None =>
      do! on_history (LimitedSizeDict.__setitem__ username 1) in
      ret 1
  end.

(** The loop over [credentialInterfaces]: the [else] belongs to the
    [if], so the first interface decides and the loop never reaches a
    second one. *)
Definition check_interfaces (interfaces : list Interface) (credentials : Credentials)
  : M world unit :=
  match interfaces with
  | [] => ret tt
  | interface :: _ =>
      if providedBy interface credentials then ret tt
      else raise UnhandledCredentials
  end.

(** [credentials.username] and [credentials.password]. *)
Definition cred_username (c : Credentials) : M world bytes :=
  match c with
  | UsernamePassword u _ => ret u
  | UsernameHashedPassword u _ => ret u
  | Anonymous => raise AttributeError
  end.

Definition cred_password (c : Credentials) : M world bytes :=
  match c with
  | UsernamePassword _ p => ret p
  | _ => raise AttributeError
  end.

Definition requestAvatarId (self : t) (credentials : Credentials)
  : M world (Deferred AvatarId) :=
  do! check_interfaces credentialInterfaces credentials in
  let! matches :=
    (let! u := cred_username credentials in
     let! name := lift (decode_utf8 u) in
     if bool_decide (name = username self) then
       let! p := cred_password credentials in
       let! pass := lift (decode_utf8 p) in
       ret (bool_decide (to_aes_key pass = password self))
     else ret false) in
  if matches then
    let! u := cred_username credentials in
    ret (succeed (Named u))
  else
    let! u := cred_username credentials in
    let! name := lift (decode_utf8 u) in
    let! consecutive_errors := get_consecutive_errors name in
    do! backoff consecutive_errors 2 in
    ret (fail (UnauthorizedLogin "Invalid username or password")).

End Checker.
End BasicUserPassCredentialChecker.

(** A run of failures, one after the other: the counts they report. *)
Fixpoint record_failures (usernames : list str) : M world (list Z) :=
  match usernames with
  | [] => ret []
  | u :: rest =>
      let! n := BasicUserPassCredentialChecker.get_consecutive_errors u in
      let! ns := record_failures rest in
      ret (n :: ns)
  end.

(** The same request presented [k] times in a row. *)
Fixpoint attempts (to_aes_key : str -> bytes)
  (self : BasicUserPassCredentialChecker.t) (credentials : Credentials)
  (k : nat) : M world (list (Deferred AvatarId)) :=
  match k with
  | O => ret []
  | S k' =>
      let! d := BasicUserPassCredentialChecker.requestAvatarId
                  to_aes_key self credentials in
      let! ds := attempts to_aes_key self credentials k' in
      ret (d :: ds)
  end.

(** Following the specification's words (section 4.2), for comparison
    with the code: "touching an existing key must move it to the most
    recent position", and beyond the capacity "the principal that was
    inserted (or last touched) earliest is evicted". *)
Definition spec_touch_order (capacity : nat) (principal : str) (order : list str)
  : list str :=
  let moved := filter (fun p => p <> principal) order ++ [principal] in
  drop (length moved - capacity)%nat moved.

(** The tracked principals, oldest first, after a run of failures under
    the specification's policy. *)
Definition spec_order_after (capacity : nat) (usernames : list str) : list str :=
  fold_left (fun order p => spec_touch_order capacity p order) usernames [].

(** *** twisted.cred and twisted.web.guard, as far as the guard uses them *)

(** An object that provides [ICredentialsChecker]. *)
Record ICredentialsChecker := mkChecker {
  checker_credentialInterfaces : list Interface;
  checker_requestAvatarId : Credentials -> M world (Deferred AvatarId)
}.

(** [twisted.cred.checkers.AllowAnonymousAccess()]. *)
Definition AllowAnonymousAccess : ICredentialsChecker :=
  {| checker_credentialInterfaces := [IAnonymous];
     checker_requestAvatarId := fun _ => ret (succeed ANONYMOUS) |}.

(** A [BasicUserPassCredentialChecker] as an [ICredentialsChecker]. *)
Definition as_checker (to_aes_key : str -> bytes)
  (self : BasicUserPassCredentialChecker.t) : ICredentialsChecker :=
  {| checker_credentialInterfaces :=
       BasicUserPassCredentialChecker.credentialInterfaces;
     checker_requestAvatarId :=
       BasicUserPassCredentialChecker.requestAvatarId to_aes_key self |}.

Module Portal.

Record t := mk {
  realm : HTTPAuthRealm.t;
  checkers : OrderedDict.t Interface ICredentialsChecker
}.

(** [registerChecker]: [self.checkers[interface] = checker] for each
    interface of the checker. *)
Definition registerChecker (checker : ICredentialsChecker)
  (d : OrderedDict.t Interface ICredentialsChecker)
  : OrderedDict.t Interface ICredentialsChecker :=
  fold_left (fun d i => OrderedDict.__setitem__ i checker d)
            (checker_credentialInterfaces checker) d.

(** [Portal(realm, checkers)]. *)
Definition __init__ (realm : HTTPAuthRealm.t) (checkers : list ICredentialsChecker)
  : t :=
  mk realm (fold_left (fun d c => registerChecker c d) checkers []).

(** The loop of [login]: the first registered interface that the
    credentials provide. *)
Fixpoint find_checker (credentials : Credentials)
  (d : OrderedDict.t Interface ICredentialsChecker) : option ICredentialsChecker :=
  match d with
  | [] => None
  | (i, checker) :: rest =>
      if providedBy i credentials then Some checker
      else find_checker credentials rest
  end.

(** [login(credentials, mind, *interfaces)]: the checker runs under
    [maybeDeferred], the realm on its result. *)
Definition login (self : t) (credentials : Credentials)
  : M world (Deferred Resource) :=
  match find_checker credentials (checkers self) with
  | Some checker =>
      fun w =>
        match checker_requestAvatarId checker credentials w with
        | (Ok d, w') =>
            addCallback
              (fun avatarId => ret (HTTPAuthRealm.requestAvatar (realm self) avatarId))
              d w'
        | (Raise e, w') => (Ok (fail e), w')
        end
  | None => ret (fail UnhandledCredentials)
  end.

End Portal.

(** What a request carries in its [Authorization] header. *)
Inductive Authorization :=
| NoAuthorization
| Basic (username password : bytes)
| Unparsable.

Module HTTPAuthSessionWrapper.

Record t := mk {
  portal : Portal.t;
  credentialFactories : list string
}.

(** [_loginFailed]: 401 for a login failure, 500 for anything else. *)
Definition _loginFailed (e : exception) : Resource :=
  match e with
  | UnhandledCredentials | UnauthorizedLogin _ => UnauthorizedResource
  | _ => ErrorPage 500
  end.

Definition _login (self : t) (credentials : Credentials) : M world Resource :=
  let! d := Portal.login (portal self) credentials in
  match d with
  | succeed avatar => ret avatar
  | fail e => ret (_loginFailed e)
  end.

(** [_authorizedResource(request)]: the resource that serves the
    request. *)
Definition _authorizedResource (self : t) (authorization : Authorization)
  : M world Resource :=
  match authorization with
  | NoAuthorization => _login self Anonymous
  | Basic u p => _login self (UsernamePassword u p)
  | Unparsable => ret UnauthorizedResource
  end.

End HTTPAuthSessionWrapper.

Definition guard_resource_with_http_auth (credentialChecker : ICredentialsChecker)
  (port_rpc : Z) (wallet : option Wallet) : HTTPAuthSessionWrapper.t :=
  let checkers := [credentialChecker; AllowAnonymousAccess] in
  let credentialFactory := "auth"%string in
  HTTPAuthSessionWrapper.mk
    (Portal.__init__ (HTTPAuthRealm.mk port_rpc wallet) checkers)
    [credentialFactory].

(** ** [neo/bin/api_server.py]: the tail of [main] *)

Module ApiServer.

(** The calls of the tail, each on a collaborator. *)
Inductive call :=
| reactor_run
| logger_info (msg : string)
| NotificationDB_close
| Blockchain_Dispose
| NodeLeader_Shutdown
| wallet_Close.

Global Instance call_eq_dec : EqDecision call.
Proof. solve_decision. Defined.

Section Shutdown.
(** What each collaborator does when called: it returns, or raises. *)
Variable behaviour : call -> result unit.

(** The store: the calls made so far, in order. *)
Definition invoke (c : call) : M (list call) unit :=
  fun trace => (behaviour c, trace ++ [c]).

Definition main_shutdown (wallet : option Wallet) : M (list call) unit :=
  do! invoke reactor_run in
  do! invoke (logger_info "Closing databases...") in
  do! invoke NotificationDB_close in
  do! invoke Blockchain_Dispose in
  do! invoke NodeLeader_Shutdown in
  match wallet with
  | Some _ => invoke wallet_Close
  | None => ret tt
  end.

End Shutdown.

(** The calls of the tail in the order of the source. *)
Definition shutdown_calls (wallet : option Wallet) : list call :=
  [reactor_run; logger_info "Closing databases..."; NotificationDB_close;
   Blockchain_Dispose; NodeLeader_Shutdown]
  ++ match wallet with
     | Some _ => [wallet_Close]
     | None => []
     end.

End ApiServer.

(** ** Vocabulary of the statements about the codec *)

(** The bytes of a fixed-width field. *)
Definition field (e : endianness) (n : nat) (v : Z) : bytes :=
  match e with
  | LittleEndian => le_bytes n v
  | BigEndian => rev (le_bytes n v)
  end.

(** The bytes of a variable-length prefix. *)
Definition varint (e : endianness) (v : Z) : bytes :=
  if v <? 0xFD then field e 1 v
  else if v <=? 0xFFFF then field e 1 0xFD ++ field e 2 v
  else if v <=? 0xFFFFFFFF then field e 1 0xFE ++ field e 4 v
  else field e 1 0xFF ++ field e 8 v.

(** The wire layout of a message: the eight fields in the fixed order
    version, services, timestamp, listenPort, nonce, userAgent,
    startHeight, relay. *)
Definition layout (e : endianness) (x : VersionPayload.t) : bytes :=
  let ua := default [] (utf8_encode (default [] (VersionPayload.UserAgent x))) in
  field e 1 (default 0 (VersionPayload.Version x))
  ++ field e 8 (default 0 (VersionPayload.Services x))
  ++ field e 4 (default 0 (VersionPayload.Timestamp x))
  ++ field e 2 (default 0 (VersionPayload.Port x))
  ++ field e 4 (default 0 (VersionPayload.Nonce x))
  ++ (varint e (Z.of_nat (length ua)) ++ ua)
  ++ field e 4 (VersionPayload.StartHeight x)
  ++ field e 1 (if VersionPayload.Relay x then 1 else 0).

(** A writer that always succeeds and appends exactly [out]. *)
Definition writes (c : M BinaryWriter.stream unit) (out : bytes) : Prop :=
  forall w, c w = (Ok tt, w ++ out).

(** A reader that takes exactly [enc] from the front of the stream and
    returns [a], and that stops with [TruncatedInput] on every strict
    prefix of [enc]. *)
Definition consumes {A} (p : M BinaryReader.stream A) (enc : bytes) (a : A)
  : Prop :=
  (forall rest, p (enc ++ rest) = (Ok a, rest))
  /\ (forall n, (n < length enc)%nat ->
        exists r, p (take n enc) = (Raise TruncatedInput, r)).

(** The same for a step of [Deserialize], which also changes the object
    by [f]. *)
Definition fills {A} (c : M VersionPayload.store A) (enc : bytes) (a : A)
  (f : VersionPayload.t -> VersionPayload.t) : Prop :=
  (forall self rest, c (self, enc ++ rest) = (Ok a, (f self, rest)))
  /\ (forall self n, (n < length enc)%nat ->
        exists st, c (self, take n enc) = (Raise TruncatedInput, st)).

(** A message as a node announces it, for the examples. *)
Definition example_version : VersionPayload.t :=
  VersionPayload.mk (Some 0) (Some 1) (Some 1530000000) (Some 10333)
    (Some 2864434397) (Some (str_of_string "/NEO:2.7.4/")) 2400000 true.

(** ** Vocabulary of the statements about the guard *)

(** The count on record for a principal, 0 when it is not tracked. *)
Definition count (username : str) (w : world) : Z :=
  default 0 (LimitedSizeDict.get username (consecutive_errors_history w)).

(** The tracked principals, in the order in which they would be evicted. *)
Definition tracked (w : world) : list str :=
  OrderedDict.keys (LimitedSizeDict.items (consecutive_errors_history w)).

(** The histories that the guard can produce: capacity 100, no principal
    twice, at most 100 of them, every count between 1 and 100. *)
Definition wf_history (h : LimitedSizeDict.t str Z) : bool :=
  bool_decide (LimitedSizeDict.size_limit h = Some 100)
  && bool_decide (NoDup (OrderedDict.keys (LimitedSizeDict.items h)))
  && bool_decide (length (LimitedSizeDict.items h) <= 100)%nat
  && forallb (fun kv => (1 <=? snd kv) && (snd kv <=? 100)) (LimitedSizeDict.items h).

Definition wf_world (w : world) : bool := wf_history (consecutive_errors_history w).

(** The world when the process starts: nothing tracked, nothing slept. *)
Definition initial_world : world :=
  mkWorld BasicUserPassCredentialChecker.initial_history [].

(** The text of the error of a failed login. *)
Definition unauthorized : Deferred AvatarId :=
  fail (UnauthorizedLogin "Invalid username or password").

(** Distinct principals for the examples. *)
Definition principal (i : nat) : str := str_of_string "user" ++ [Z.of_nat i].

(** A run of failures in which principal 0 fails again after the first
    hundred principals, and then a new principal arrives. *)
Definition touch_then_overflow : list str :=
  map principal (seq 0 100) ++ [principal 0; principal 100].

(** A stand-in for the key derivation in the examples: any function
    does, the guard only compares its results. *)
Definition example_key (password : str) : bytes :=
  rev (default [] (utf8_encode password)).

(** The configured principal of the examples and two requests. *)
Definition alice : BasicUserPassCredentialChecker.t :=
  BasicUserPassCredentialChecker.mk
    (str_of_string "alice") (example_key (str_of_string "secret")).

Definition alice_wrong : Credentials :=
  UsernamePassword (default [] (utf8_encode (str_of_string "alice")))
                   (default [] (utf8_encode (str_of_string "wrong"))).

(** The world after 33 wrong passwords for "alice" in a row, from the
    start of the process. *)
Definition after_33_failures : world :=
  snd (attempts example_key alice alice_wrong 33 initial_world).

Definition alice_right : Credentials :=
  UsernamePassword (default [] (utf8_encode (str_of_string "alice")))
                   (default [] (utf8_encode (str_of_string "secret"))).

(** ** Vocabulary of the statements about the decorators *)

(** The text that [_response_data] works on: [json.dumps(res)] for a
    [dict] or [list], [res] itself otherwise. *)
Definition serialized {J} (json_dumps : J -> result str) (res : handler_result J)
  : result str :=
  match res with
  | Structured j => json_dumps j
  | Serialized s => Ok s
  end.

(** The request has an [Accept-Encoding] header one of whose values
    contains "gzip". *)
Definition declares_gzip (r : Request) : bool :=
  match requestHeaders r !! "Accept-Encoding" with
  | Some encodings => existsb (contains "gzip") encodings
  | None => false
  end.

(** The request once [Content-Type] is set. *)
Definition with_content_type (r : Request) : Request :=
  mkRequest (requestHeaders r)
    (<["Content-Type" := HStr "application/json"]> (responseHeaders r)).

(** The request once the two headers of a compressed body of [n] bytes
    are set. *)
Definition tagged_gzip (n : Z) (r : Request) : Request :=
  mkRequest (requestHeaders r)
    (<["Content-Length" := HInt n]>
       (<["Content-Encoding" := HStr "gzip"]> (responseHeaders r))).

Definition allow_headers : string :=
  "Content-Type, Access-Control-Allow-Headers, Authorization, X-Requested-With".

(** Both CORS headers are among the response headers. *)
Definition has_cors (r : Request) : Prop :=
  responseHeaders r !! "Access-Control-Allow-Origin" = Some (HStr "*")
  /\ responseHeaders r !! "Access-Control-Allow-Headers" = Some (HStr allow_headers).

(** Neither of them is. *)
Definition lacks_cors (r : Request) : Prop :=
  responseHeaders r !! "Access-Control-Allow-Origin" = None
  /\ responseHeaders r !! "Access-Control-Allow-Headers" = None.

(** Requests and payloads for the examples: a browser that accepts gzip,
    a client that sends no header at all, a text of [n] letters, and
    stand-ins for the two library functions. *)
Definition browser_request : Request :=
  mkRequest {["Accept-Encoding" := ["gzip, deflate"%string]]} ∅.

Definition bare_request : Request := mkRequest ∅ ∅.

Definition payload (n : nat) : str := repeat 97 n.

Definition example_dumps (j : list Z) : result str := Ok (91 :: j ++ [93]).

Definition example_gzip (raw : bytes) (level : Z) : bytes :=
  Z_to_byte 31 :: Z_to_byte 139 :: Z_to_byte level :: take 16 raw.

(** A handler whose Deferred fails. *)
Definition failing_handler : M Request (Deferred (handler_result (list Z))) :=
  ret (fail (HandlerError "database is closed")).

(** The request once the two CORS headers are set. *)
Definition with_cors (r : Request) : Request :=
  mkRequest (requestHeaders r)
    (<["Access-Control-Allow-Headers" := HStr allow_headers]>
       (<["Access-Control-Allow-Origin" := HStr "*"]> (responseHeaders r))).

(** What [_response_data] does with the text [d] once it is
    serialized, by cases. *)
Definition response_of (gzip_compress : bytes -> Z -> bytes) (d : str) (r : Request)
  : result body * Request :=
  if (COMPRESS_THRESHOLD <? Z.of_nat (length d)) && declares_gzip r then
    match utf8_encode d with
    | Some raw =>
        (Ok (Compressed (gzip_compress raw COMPRESS_FASTEST)),
         tagged_gzip (Z.of_nat (length (gzip_compress raw COMPRESS_FASTEST)))
                     (with_content_type r))
    | None => (Raise UnicodeEncodeError, with_content_type r)
    end
  else (Ok (Text d), with_content_type r).

(** A [json.dumps] that refuses its argument, and a text that has no
    UTF-8 encoding: [n] copies of a lone surrogate. *)
Definition refusing_dumps (j : list Z) : result str :=
  Raise (HandlerError "Object is not JSON serializable").

Definition surrogates (n : nat) : str := repeat 0xD800 n.

(** A request whose Accept-Encoding refuses gzip by a zero weight. *)
Definition refusing_gzip_request : Request :=
  mkRequest {["Accept-Encoding" := ["deflate"%string; "gzip;q=0"%string]]} ∅.

(** A text whose characters take three bytes each in UTF-8: [n] euro
    signs. *)
Definition euros (n : nat) : str := repeat 0x20AC n.

(** Modelled from the spec: the route handlers that stack the two
    decorators are missing; section 4.4 gives the order of the steps,
    serialization and compression first and the CORS headers last, so
    [cors_header] is the outer decorator. *)
Definition response_pipeline {J} (json_dumps : J -> result str)
  (gzip_compress : bytes -> Z -> bytes)
  (func : M Request (Deferred (handler_result J))) : M Request (Deferred body) :=
  cors_header (json_response json_dumps gzip_compress func).

(** ** Vocabulary of the statements about the shutdown *)

(** The calls [cs] made one after the other, as a sequence of
    statements makes them. *)
Fixpoint in_turn (behaviour : ApiServer.call -> result unit)
  (cs : list ApiServer.call) : M (list ApiServer.call) unit :=
  match cs with
  | [] => ret tt
  | c :: rest => do! ApiServer.invoke behaviour c in in_turn behaviour rest
  end.

(** Collaborators that all return, and the same with a notification
    database whose [close] raises. *)
Definition all_return (c : ApiServer.call) : result unit := Ok tt.

Definition close_raises (c : ApiServer.call) : result unit :=
  match c with
  | ApiServer.NotificationDB_close => Raise (CollaboratorError "NotificationDB")
  | _ => Ok tt
  end.


(** ** Vocabulary of the further statements about [LimitedSizeDict] *)


(** A small dictionary for the examples: three entries, limit three. *)
Definition three_entries : LimitedSizeDict.t Z Z :=
  LimitedSizeDict.mk (Some 3) [(10, 1); (20, 2); (30, 3)].

(** ** Vocabulary of the further statements about the guard *)


(** A second checker instance, configured for another user. *)
Definition bob : BasicUserPassCredentialChecker.t :=
  BasicUserPassCredentialChecker.mk
    (str_of_string "bob") (example_key (str_of_string "hunter2")).

(** The world after one hundred failures of "alice", and the world
    after one failure of each of the principals 0 to 99. *)
Definition alice_at_cap : world :=
  snd (record_failures (repeat (str_of_string "alice") 100) initial_world).

Definition full_world : world :=
  snd (record_failures (map principal (seq 0 100)) initial_world).

(** Bytes that are not UTF-8. *)
Definition not_utf8 : bytes := [Z_to_byte 255; Z_to_byte 254].

(** ** [VersionPayload.__init__] *)

Module VersionPayloadObject.
Section Construction.
(** What the constructor takes from elsewhere:
    [NetworkAddressWithTime.NODE_NETWORK], whose module is not part of
    these sources; the clock, [int(datetime.datetime.utcnow().timestamp())];
    and [Blockchain.Default()], which is [None] or has a [Height()]
    that is [None] or a number. *)
Variable NODE_NETWORK : Z.
Variable utcnow_timestamp : Z.
Variable Blockchain_Default : option (option Z).

(** Python's truth value of an argument that is [None] or a number,
    and of one that is [None] or a text. *)
Definition truthy_int (o : option Z) : bool :=
  match o with
  | Some n => negb (n =? 0)
  | None => false
  end.

Definition truthy_str (o : option str) : bool :=
  match o with
  | Some (_ :: _) => true
  | _ => false
  end.

(** [print(line)] on a standard output kept as its lines. *)
Definition print (line : string) : M (list string) unit :=
  modify (fun out => out ++ [line]).

(** [VersionPayload(port, nonce, userAgent)]. *)
Definition __init__ (port nonce : option Z) (userAgent : option str)
  : M (list string) VersionPayload.t :=
  let self := VersionPayload.new in
  let self :=
    if truthy_int port && truthy_int nonce && truthy_str userAgent then
      let StartHeight :=
        match Blockchain_Default with
        | Some (Some height) => height
        | _ => VersionPayload.StartHeight self
        end in
      VersionPayload.mk (Some 0) (Some NODE_NETWORK) (Some utcnow_timestamp)
        port nonce userAgent StartHeight true
    else self in
  do! print ("created version: " +:+ pretty (VersionPayload.StartHeight self)
             +:+ " ") in
  ret self.

End Construction.
End VersionPayloadObject.

(** ** Vocabulary of the further statements about the codec *)

(** The number of bytes of the variable-length prefix of a length. *)
Definition varint_size (v : Z) : Z :=
  if v <? 0xFD then 1
  else if v <=? 0xFFFF then 3
  else if v <=? 0xFFFFFFFF then 5
  else 9.

(** A computation on the store of [Deserialize] that leaves the
    [Version] of the object alone, whether it returns or raises. *)
Definition keeps_Version {A} (c : M VersionPayload.store A) : Prop :=
  forall s, VersionPayload.Version (fst (snd (c s))) = VersionPayload.Version (fst s).

(** ** [neo/bin/api_server.py]: [main] from the parsed arguments on *)

Module ApiServerMain.

(** A value that argparse hands over as it came: the default, a
    number, or the text of the command line. *)
Inductive pyval :=
| PyInt (n : Z)
| PyStr (s : string).

(** The namespace that [parser.parse_args()] returns. *)
Record Namespace := mkNamespace {
  mainnet : bool;
  testnet : bool;
  privnet : bool;
  coznet : bool;
  config : option string;
  port_rpc : option Z;
  port_rest : option Z;
  logfile : option string;
  syslog : bool;
  syslog_local : option Z;
  disable_stderr : bool;
  datadir : option string;
  maxpeers : pyval;
  wallet : option string;
  host : string;
  extended_rpc : bool
}.

(** Python's truth values. *)
Definition truthy_int (o : option Z) : bool :=
  match o with
  | Some n => negb (n =? 0)
  | None => false
  end.

Definition truthy_text (o : option string) : bool :=
  match o with
  | Some (String _ _) => true
  | _ => false
  end.

Definition truthy_str (o : option str) : bool :=
  match o with
  | Some (_ :: _) => true
  | _ => false
  end.

Definition truthy_val (v : pyval) : bool :=
  match v with
  | PyInt n => negb (n =? 0)
  | PyStr (String _ _) => true
  | PyStr EmptyString => false
  end.

(** The module constants, and those of [logging.handlers.SysLogHandler]. *)
Definition LOGFILE_MAX_BYTES : Z := 50000000.
Definition LOGFILE_BACKUP_COUNT : Z := 3.
Definition LOG_USER : Z := 1.
Definition LOG_LOCAL0 : Z := 16.

Inductive loop_target :=
| PersistBlocks
| ProcessBlocks.

(** What a [Site] serves. *)
Inductive served :=
| Guarded (resource : HTTPAuthSessionWrapper.t)
| JsonRpcApi_resource (port_rpc : Z) (wallet : option Wallet)
| RestApi_resource.

(** The calls that [main] makes on its collaborators. *)
Inductive call :=
| print (line : string)
| parser_print_help
| settings_set_data_dir (path : string)
| settings_setup (config_file : string)
| settings_setup_mainnet
| settings_setup_testnet
| settings_setup_privnet
| settings_setup_coznet
| settings_set_max_peers (n : pyval)
| logzero_syslog (facility : Z)
| logzero_logfile (logfile : string) (maxBytes backupCount : Z)
    (disableStderrLogger : bool)
| prompt (message : string)
| UserWallet_Open (path : string) (password_key : bytes)
| settings_set_log_smart_contract_events (flag : bool)
| file_write (path : string) (text : string)
| globalLogPublisher_addObserver
| LevelDBBlockchain_init (path : string)
| Blockchain_RegisterBlockchain
| LoopingCall_start (target : loop_target) (milliseconds : Z)
| Deferred_addErrback (target : loop_target)
| reactor_suggestThreadPoolSize (n : Z)
| NodeLeader_Start
| NotificationDB_start
| Thread_setDaemon (flag : bool)
| Thread_start
| logger_info (msg : string)
| ExtendedJsonRpcApi_init (port_rpc : Z) (wallet : option Wallet)
| JsonRpcApi_init (port_rpc : Z) (wallet : option Wallet)
| RestApi_init
| listen (endpoint : string) (site : served)
| tail (c : ApiServer.call).

(** What ends a run other than a return: an exception of a
    collaborator, or the read of a local variable that no statement has
    assigned. *)
Inductive raised :=
| Exception_ (e : exception)
| UnboundLocalError (name : string).

(** Programs of [main]: the calls made so far are the store. *)
Definition MM (A : Type) : Type := list call -> (A + raised) * list call.

Definition unit_ {A} (a : A) : MM A := fun trace => (inl a, trace).

Definition and_then {A B} (c : MM A) (k : A -> MM B) : MM B :=
  fun trace =>
    match c trace with
    | (inl a, trace') => k a trace'
    | (inr e, trace') => (inr e, trace')
    end.

(** [try: c except Exception as e: handler(e)]. *)
Definition try_except {A} (c : MM A) (handler : raised -> MM A) : MM A :=
  fun trace =>
    match c trace with
    | (inl a, trace') => (inl a, trace')
    | (inr e, trace') => handler e trace'
    end.

(** The read of a local variable. *)
Definition local {A} (name : string) (v : option A) : MM A :=
  fun trace =>
    match v with
    | Some a => (inl a, trace)
    | None => (inr (UnboundLocalError name), trace)
    end.

(** How the wallet part of [main] ends: with [return], or with the
    locals [wallet] and [credentialChecker] as they are then. *)
Inductive wallet_outcome :=
| Returns
| Proceeds (wallet : option Wallet)
    (credentialChecker : option BasicUserPassCredentialChecker.t).

Section Main.
(** The surroundings: the file system, the environment, what is typed
    at a prompt, [os.path.abspath], [os.getpid()], the PID file named
    when the module was loaded, [settings.chain_leveldb_path], the text
    of an exception, the key derivation of [neo.Wallets.utils], and
    whether each call returns or raises. *)
Variable path_exists : string -> bool.
Variable environ_get : string -> option str.
Variable typed : string -> str.
Variable abspath : string -> string.
Variable getpid : Z.
Variable PID_FILE : string.
Variable chain_leveldb_path : string.
Variable describe : raised -> string.
Variable to_aes_key : str -> bytes.
Variable behaviour : call -> result unit.

Definition invoke (c : call) : MM unit :=
  fun trace =>
    (match behaviour c with
     | Ok _ => inl tt
     | Raise e => inr (Exception_ e)
     end, trace ++ [c]).

(** [write_pid_file()]. *)
Definition write_pid_file : MM unit :=
  invoke (file_write PID_FILE (pretty getpid)).

(** [loopingCallErrorHandler(error)]. *)
Definition loopingCallErrorHandler (error : string) : MM unit :=
  invoke (logger_info ("Error in loop: " +:+ error +:+ " ")).

(** The three checks of the arguments; each ends [main]. *)
Definition no_port (args : Namespace) : bool :=
  negb (truthy_int (port_rpc args)) && negb (truthy_int (port_rest args)).

Definition same_port (args : Namespace) : bool :=
  bool_decide (port_rpc args = port_rest args).

Definition logfile_and_syslog (args : Namespace) : bool :=
  truthy_text (logfile args) && (syslog args || truthy_int (syslog_local args)).

Definition complain (line : string) : MM unit :=
  and_then (invoke (print line)) (fun _ => invoke parser_print_help).

(** Data directory, network and peers. *)
Definition configure_settings (args : Namespace) : MM unit :=
  and_then
    (match datadir args with
     | Some (String a d) => invoke (settings_set_data_dir (String a d))
     | _ => unit_ tt
     end) (fun _ =>
  and_then
    (match config args with
     | Some (String a c) => invoke (settings_setup (String a c))
     | _ =>
         if mainnet args then invoke settings_setup_mainnet
         else if testnet args then invoke settings_setup_testnet
         else if privnet args then invoke settings_setup_privnet
         else if coznet args then invoke settings_setup_coznet
         else unit_ tt
     end) (fun _ =>
  if truthy_val (maxpeers args) then invoke (settings_set_max_peers (maxpeers args))
  else unit_ tt)).

(** Syslog, logfile, or neither. *)
Definition configure_logging (args : Namespace) : MM unit :=
  if syslog args || bool_decide (syslog_local args <> None) then
    and_then
      (match syslog_local args with
       | Some n =>
           and_then
             (invoke (print ("Logging to syslog local" +:+ pretty n +:+ " facility")))
             (fun _ => unit_ (LOG_LOCAL0 + n))
       | None =>
           and_then (invoke (print "Logging to syslog user facility"))
             (fun _ => unit_ LOG_USER)
       end) (fun syslog_facility =>
    invoke (logzero_syslog syslog_facility))
  else
    match logfile args with
    | Some (String a l) =>
        let logfile := abspath (String a l) in
        and_then
          (if disable_stderr args
           then invoke (print ("Logging to logfile: " +:+ logfile))
           else invoke (print ("Logging to stderr and logfile: " +:+ logfile)))
          (fun _ =>
        invoke (logzero_logfile logfile LOGFILE_MAX_BYTES LOGFILE_BACKUP_COUNT
                  (disable_stderr args)))
    | _ => invoke (print "Logging to stdout and stderr")
    end.

(** [prompt(message, is_password=True)]. *)
Definition ask (message : string) : MM str :=
  and_then (invoke (prompt message)) (fun _ => unit_ (typed message)).

(** The wallet, and the checker made with its key. *)
Definition open_wallet (args : Namespace) : MM wallet_outcome :=
  match wallet args with
  | Some (String a p) =>
      let path := String a p in
      if negb (path_exists path) then
        and_then (invoke (print "Wallet file not found")) (fun _ => unit_ Returns)
      else
        let passwd := environ_get "NEO_PYTHON_JSONRPC_WALLET_PASSWORD" in
        and_then
          (if negb (truthy_str passwd) then
             and_then (ask "[password]> ") (fun passwd =>
             and_then (ask "[username]> ") (fun username =>
             unit_ (passwd, Some username)))
           else unit_ (default [] passwd, None)) (fun '(passwd, username) =>
        let password_key := to_aes_key passwd in
        try_except
          (and_then (invoke (UserWallet_Open path password_key)) (fun _ =>
           let wallet := UserWallet path in
           and_then (local "username" username) (fun username =>
           let credentialChecker :=
             BasicUserPassCredentialChecker.mk username password_key in
           unit_ (Proceeds (Some wallet) (Some credentialChecker)))))
          (fun e =>
           and_then (invoke (print ("Could not open wallet " +:+ describe e)))
             (fun _ => unit_ Returns)))
  | _ => unit_ (Proceeds None None)
  end.

(** Blockchain, loops, node and the background thread. *)
Definition start_node (wallet : option Wallet) : MM unit :=
  and_then (invoke (settings_set_log_smart_contract_events false)) (fun _ =>
  and_then write_pid_file (fun _ =>
  and_then (invoke globalLogPublisher_addObserver) (fun _ =>
  and_then (invoke (LevelDBBlockchain_init chain_leveldb_path)) (fun _ =>
  and_then (invoke Blockchain_RegisterBlockchain) (fun _ =>
  and_then (invoke (LoopingCall_start PersistBlocks 100)) (fun _ =>
  and_then (invoke (Deferred_addErrback PersistBlocks)) (fun _ =>
  and_then
    (match wallet with
     | Some _ =>
         and_then (invoke (LoopingCall_start ProcessBlocks 1000)) (fun _ =>
         invoke (Deferred_addErrback ProcessBlocks))
     | None => unit_ tt
     end) (fun _ =>
  and_then (invoke (reactor_suggestThreadPoolSize 15)) (fun _ =>
  and_then (invoke NodeLeader_Start) (fun _ =>
  and_then (invoke NotificationDB_start) (fun _ =>
  and_then (invoke (Thread_setDaemon true)) (fun _ =>
  invoke Thread_start)))))))))))).

Definition endpoint (port : Z) (host : string) : string :=
  "tcp:port=" +:+ pretty port +:+ ":interface=" +:+ host.

Definition starting (what : string) (host : string) (port : Z) : string :=
  "Starting " +:+ what +:+ " on http://" +:+ host +:+ ":" +:+ pretty port.

(** The servers that are asked for. *)
Definition start_servers (args : Namespace) (wallet : option Wallet)
  (credentialChecker : option BasicUserPassCredentialChecker.t) : MM unit :=
  and_then
    (match port_rpc args with
     | Some port =>
         if negb (port =? 0) && extended_rpc args then
           and_then
             (invoke (logger_info
                        (starting "extended json-rpc api server" (host args) port)))
             (fun _ =>
           and_then (local "credentialChecker" credentialChecker) (fun checker =>
           let resource :=
             guard_resource_with_http_auth (as_checker to_aes_key checker)
               port wallet in
           and_then (invoke (ExtendedJsonRpcApi_init port wallet)) (fun _ =>
           invoke (listen (endpoint port (host args)) (Guarded resource)))))
         else if negb (port =? 0) then
           and_then
             (invoke (logger_info (starting "json-rpc api server" (host args) port)))
             (fun _ =>
           and_then (invoke (JsonRpcApi_init port wallet)) (fun _ =>
           invoke (listen (endpoint port (host args))
                     (JsonRpcApi_resource port wallet))))
         else unit_ tt
     | None => unit_ tt
     end) (fun _ =>
  match port_rest args with
  | Some port =>
      if negb (port =? 0) then
        and_then
          (invoke (logger_info (starting "REST api server" (host args) port)))
          (fun _ =>
        and_then (invoke RestApi_init) (fun _ =>
        invoke (listen (endpoint port (host args)) RestApi_resource)))
      else unit_ tt
  | None => unit_ tt
  end).

(** [reactor.run()] and what follows it: the tail of [main], on the
    calls of this run. *)
Definition run_and_shut_down (wallet : option Wallet) : MM unit :=
  fun trace =>
    match ApiServer.main_shutdown (fun c => behaviour (tail c)) wallet [] with
    | (Ok _, calls) => (inl tt, trace ++ map tail calls)
    | (Raise e, calls) => (inr (Exception_ e), trace ++ map tail calls)
    end.

(** [main()], after [args = parser.parse_args()]. *)
Definition main (args : Namespace) : MM unit :=
  if no_port args then
    complain "Error: specify at least one of --port-rpc / --port-rest"
  else if same_port args then
    complain "Error: --port-rpc and --port-rest cannot be the same"
  else if logfile_and_syslog args then
    complain "Error: Cannot only use logfile or syslog at once"
  else
    and_then (configure_settings args) (fun _ =>
    and_then (configure_logging args) (fun _ =>
    and_then (open_wallet args) (fun outcome =>
    match outcome with
    | Returns => unit_ tt
    | Proceeds wallet credentialChecker =>
        and_then (start_node wallet) (fun _ =>
        and_then (start_servers args wallet credentialChecker) (fun _ =>
        run_and_shut_down wallet))
    end))).

End Main.
End ApiServerMain.

(** ** Vocabulary of the statements about [main] *)

(** The calls that only configure or report: printing, the parser's
    help, the settings and the logging set-up. *)
Definition is_setup_call (c : ApiServerMain.call) : bool :=
  match c with
  | ApiServerMain.print _ | ApiServerMain.parser_print_help
  | ApiServerMain.settings_set_data_dir _ | ApiServerMain.settings_setup _
  | ApiServerMain.settings_setup_mainnet | ApiServerMain.settings_setup_testnet
  | ApiServerMain.settings_setup_privnet | ApiServerMain.settings_setup_coznet
  | ApiServerMain.settings_set_max_peers _
  | ApiServerMain.logzero_syslog _ | ApiServerMain.logzero_logfile _ _ _ _ => true
  | _ => false
  end.

(** The calls of [main] between the wallet and the servers, without a
    wallet. *)
Definition node_calls (PID_FILE : string) (getpid : Z) (chain_leveldb_path : string)
  : list ApiServerMain.call :=
  [ApiServerMain.settings_set_log_smart_contract_events false;
   ApiServerMain.file_write PID_FILE (pretty getpid);
   ApiServerMain.globalLogPublisher_addObserver;
   ApiServerMain.LevelDBBlockchain_init chain_leveldb_path;
   ApiServerMain.Blockchain_RegisterBlockchain;
   ApiServerMain.LoopingCall_start ApiServerMain.PersistBlocks 100;
   ApiServerMain.Deferred_addErrback ApiServerMain.PersistBlocks;
   ApiServerMain.reactor_suggestThreadPoolSize 15;
   ApiServerMain.NodeLeader_Start;
   ApiServerMain.NotificationDB_start;
   ApiServerMain.Thread_setDaemon true;
   ApiServerMain.Thread_start].

(** Surroundings for the examples: every file exists, the environment
    is the given one, "secret" and "alice" are typed at the prompts, and
    every call returns. *)
Definition example_typed (message : string) : str :=
  if String.eqb message "[password]> " then str_of_string "secret"
  else str_of_string "alice".

Definition example_describe (e : ApiServerMain.raised) : string :=
  match e with
  | ApiServerMain.UnboundLocalError name =>
      "local variable '" +:+ name +:+ "' referenced before assignment"
  | ApiServerMain.Exception_ _ => "error"
  end.

Definition example_main (environ_get : string -> option str)
  (args : ApiServerMain.Namespace)
  : (unit + ApiServerMain.raised) * list ApiServerMain.call :=
  ApiServerMain.main (fun _ => true) environ_get example_typed (fun p => p)
    4242 "/tmp/neopython-api-server.pid" "/chains/test" example_describe
    example_key (fun _ => Ok tt) args [].

Definition no_environment (name : string) : option str := None.

Definition password_in_environment (name : string) : option str :=
  if String.eqb name "NEO_PYTHON_JSONRPC_WALLET_PASSWORD"
  then Some (str_of_string "secret") else None.

(** Command lines for the examples. *)
Definition testnet_args : ApiServerMain.Namespace :=
  ApiServerMain.mkNamespace false true false false None None None None
    false None false None (ApiServerMain.PyInt 5) None "0.0.0.0" false.

Definition with_ports (port_rpc port_rest : option Z) (extended_rpc : bool)
  (wallet : option string) (args : ApiServerMain.Namespace)
  : ApiServerMain.Namespace :=
  ApiServerMain.mkNamespace
    (ApiServerMain.mainnet args) (ApiServerMain.testnet args)
    (ApiServerMain.privnet args) (ApiServerMain.coznet args)
    (ApiServerMain.config args) port_rpc port_rest
    (ApiServerMain.logfile args) (ApiServerMain.syslog args)
    (ApiServerMain.syslog_local args) (ApiServerMain.disable_stderr args)
    (ApiServerMain.datadir args) (ApiServerMain.maxpeers args) wallet
    (ApiServerMain.host args) extended_rpc.

Definition with_logging (logfile : option string) (syslog : bool)
  (syslog_local : option Z) (args : ApiServerMain.Namespace)
  : ApiServerMain.Namespace :=
  ApiServerMain.mkNamespace
    (ApiServerMain.mainnet args) (ApiServerMain.testnet args)
    (ApiServerMain.privnet args) (ApiServerMain.coznet args)
    (ApiServerMain.config args) (ApiServerMain.port_rpc args)
    (ApiServerMain.port_rest args) logfile syslog syslog_local
    (ApiServerMain.disable_stderr args)
    (ApiServerMain.datadir args) (ApiServerMain.maxpeers args)
    (ApiServerMain.wallet args) (ApiServerMain.host args)
    (ApiServerMain.extended_rpc args).
(* ===================================================================== *)
(** * Part II: properties                                                 *)
(* ===================================================================== *)

(** ** Bytes and the monad *)

Lemma byte_to_Z_range (b : byte) : 0 <= byte_to_Z b < 256.
Proof.
  unfold byte_to_Z. pose proof (Byte.to_N_bounded b). lia.
Qed.

Lemma byte_to_Z_of_Z (z : Z) : 0 <= z < 256 -> byte_to_Z (Z_to_byte z) = z.
Proof.
  intros Hz. unfold Z_to_byte, byte_to_Z.
  pose proof (Byte.to_of_N_option_map (Z.to_N z)) as Hm.
  destruct (Byte.of_N (Z.to_N z)) as [b|]; simpl in Hm.
  - destruct (N.leb_spec (Z.to_N z) 255); [|discriminate].
    injection Hm as ->. lia.
  - destruct (N.leb_spec (Z.to_N z) 255); [discriminate|lia].
Qed.

Lemma Z_to_byte_to_Z (b : byte) : Z_to_byte (byte_to_Z b) = b.
Proof.
  unfold Z_to_byte, byte_to_Z. rewrite N2Z.id, Byte.of_to_N. reflexivity.
Qed.

Lemma bind_ok {S A B} (c : M S A) (k : A -> M S B) s a s' :
  c s = (Ok a, s') -> bind c k s = k a s'.
Proof. intros H. unfold bind. rewrite H. reflexivity. Qed.

Lemma bind_raise {S A B} (c : M S A) (k : A -> M S B) s e s' :
  c s = (Raise e, s') -> bind c k s = (Raise e, s').
Proof. intros H. unfold bind. rewrite H. reflexivity. Qed.

(** ** UTF-8 *)

Ltac bools :=
  repeat match goal with
  | H : _ && _ = true |- _ => apply andb_prop in H; destruct H
  | H : _ || _ = true |- _ => apply orb_prop in H
  | H : negb _ = true |- _ => apply negb_true_iff in H
  | H : negb _ = false |- _ => apply negb_false_iff in H
  | H : (_ <? _) = true |- _ => apply Z.ltb_lt in H
  | H : (_ <? _) = false |- _ => apply Z.ltb_ge in H
  | H : (_ <=? _) = true |- _ => apply Z.leb_le in H
  | H : (_ <=? _) = false |- _ => apply Z.leb_gt in H
  | H : (_ =? _) = true |- _ => apply Z.eqb_eq in H
  | H : (_ =? _) = false |- _ => apply Z.eqb_neq in H
  end.

Lemma is_scalar_spec (c : Z) :
  is_scalar c = true <-> (0 <= c < 0xD800 \/ 0xE000 <= c < 0x110000).
Proof.
  unfold is_scalar. rewrite orb_true_iff, !andb_true_iff.
  rewrite !Z.leb_le, !Z.ltb_lt. tauto.
Qed.

Lemma utf8_decode_encode_cp (c : Z) (zs : list Z) (rest : bytes) :
  utf8_encode_cp c = Some zs ->
  utf8_decode (map Z_to_byte zs ++ rest) = push c (utf8_decode rest).
Proof.
  unfold utf8_encode_cp.
  destruct (is_scalar c) eqn:Hs; simpl; [|discriminate].
  apply is_scalar_spec in Hs.
  destruct (c <? 128) eqn:H1; bools.
  { intros [= <-]. cbn [map app utf8_decode].
    rewrite byte_to_Z_of_Z by lia.
    destruct (c <? 128) eqn:E; bools; [reflexivity|lia]. }
  destruct (c <? 2048) eqn:H2; bools.
  { intros [= <-]. cbn [map app utf8_decode].
    assert (0 <= c / 64 < 32 /\ 0 <= c mod 64 < 64 /\ c = 64 * (c / 64) + c mod 64
            /\ 2 <= c / 64)
      as (Ha & Hb & Hc & Hd) by (Z.div_mod_to_equations; lia).
    rewrite !byte_to_Z_of_Z by lia.
    set (q := c / 64) in *. set (r := c mod 64) in *.
    unfold is_cont.
    destruct (192 + q <? 128) eqn:E1; bools; [lia|].
    destruct (192 + q <? 194) eqn:E2; bools; [lia|].
    destruct (192 + q <? 224) eqn:E3; bools; [|lia].
    destruct (128 <=? 128 + r) eqn:E4; bools; [|lia].
    destruct (128 + r <? 192) eqn:E5; bools; [|lia].
    simpl. f_equal. lia. }
  destruct (c <? 65536) eqn:H3; bools.
  { intros [= <-]. cbn [map app utf8_decode].
    assert (0 <= c / 4096 < 16 /\ 0 <= (c / 64) mod 64 < 64 /\ 0 <= c mod 64 < 64
            /\ c = 4096 * (c / 4096) + 64 * ((c / 64) mod 64) + c mod 64)
      as (Ha & Hb & Hc & Hd) by (Z.div_mod_to_equations; lia).
    rewrite !byte_to_Z_of_Z by lia.
    set (q := c / 4096) in *. set (m := (c / 64) mod 64) in *.
    set (r := c mod 64) in *.
    replace ((224 + q - 224) * 4096 + (128 + m - 128) * 64 + (128 + r - 128))
      with c by lia.
    unfold is_cont.
    destruct (224 + q <? 128) eqn:E1; bools; [lia|].
    destruct (224 + q <? 194) eqn:E2; bools; [lia|].
    destruct (224 + q <? 224) eqn:E3; bools; [lia|].
    destruct (224 + q <? 240) eqn:E4; bools; [|lia].
    destruct (128 <=? 128 + m) eqn:E5; bools; [|lia].
    destruct (128 + m <? 192) eqn:E6; bools; [|lia].
    destruct (128 <=? 128 + r) eqn:E7; bools; [|lia].
    destruct (128 + r <? 192) eqn:E8; bools; [|lia].
    destruct (2048 <=? c) eqn:E9; bools; [|lia].
    assert (is_scalar c = true) as -> by (apply is_scalar_spec; lia).
    reflexivity. }
  { intros [= <-]. cbn [map app utf8_decode].
    assert (0 <= c / 262144 < 5 /\ 0 <= (c / 4096) mod 64 < 64
            /\ 0 <= (c / 64) mod 64 < 64 /\ 0 <= c mod 64 < 64
            /\ c = 262144 * (c / 262144) + 4096 * ((c / 4096) mod 64)
                   + 64 * ((c / 64) mod 64) + c mod 64)
      as (Ha & Hb & Hc & Hd & He) by (Z.div_mod_to_equations; lia).
    rewrite !byte_to_Z_of_Z by lia.
    set (q := c / 262144) in *. set (n := (c / 4096) mod 64) in *.
    set (m := (c / 64) mod 64) in *. set (r := c mod 64) in *.
    replace ((240 + q - 240) * 262144 + (128 + n - 128) * 4096
             + (128 + m - 128) * 64 + (128 + r - 128)) with c by lia.
    unfold is_cont.
    destruct (240 + q <? 128) eqn:E1; bools; [lia|].
    destruct (240 + q <? 194) eqn:E2; bools; [lia|].
    destruct (240 + q <? 224) eqn:E3; bools; [lia|].
    destruct (240 + q <? 240) eqn:E4; bools; [lia|].
    destruct (240 + q <? 245) eqn:E4'; bools; [|lia].
    destruct (128 <=? 128 + n) eqn:E5; bools; [|lia].
    destruct (128 + n <? 192) eqn:E6; bools; [|lia].
    destruct (128 <=? 128 + m) eqn:E7; bools; [|lia].
    destruct (128 + m <? 192) eqn:E8; bools; [|lia].
    destruct (128 <=? 128 + r) eqn:E9; bools; [|lia].
    destruct (128 + r <? 192) eqn:E10; bools; [|lia].
    destruct (65536 <=? c) eqn:E11; bools; [|lia].
    assert (is_scalar c = true) as -> by (apply is_scalar_spec; lia).
    reflexivity. }
Qed.

Lemma utf8_decode_encode (s : str) (bs : bytes) :
  utf8_encode s = Some bs -> utf8_decode bs = Some s.
Proof.
  revert bs. induction s as [|c s IH]; intros bs; simpl.
  - intros [= <-]. reflexivity.
  - destruct (utf8_encode_cp c) as [zs|] eqn:Hc; [|discriminate].
    destruct (utf8_encode s) as [bs'|] eqn:Hs; [|discriminate].
    intros [= <-]. rewrite (utf8_decode_encode_cp c zs bs' Hc).
    rewrite (IH bs' eq_refl). reflexivity.
Qed.

(** ** Fixed-width fields *)

Lemma le_bytes_length (n : nat) (v : Z) : length (le_bytes n v) = n.
Proof. revert v. induction n; intros v; simpl; [|rewrite IHn]; reflexivity. Qed.

Lemma le_value_bytes (n : nat) (v : Z) :
  0 <= v < 256 ^ Z.of_nat n -> le_value (le_bytes n v) = v.
Proof.
  revert v. induction n as [|n IH]; intros v Hv.
  - simpl in *. lia.
  - rewrite Nat2Z.inj_succ, Z.pow_succ_r in Hv by lia.
    cbn [le_bytes le_value].
    rewrite byte_to_Z_of_Z by (apply Z.mod_pos_bound; lia).
    rewrite IH by (Z.div_mod_to_equations; lia).
    Z.div_mod_to_equations; lia.
Qed.

Lemma field_length (e : endianness) (n : nat) (v : Z) : length (field e n v) = n.
Proof.
  destruct e; simpl; [|rewrite length_rev]; apply le_bytes_length.
Qed.

Lemma unpack_field (e : endianness) (n : nat) (v : Z) :
  0 <= v < 256 ^ Z.of_nat n -> unpack e (field e n v) = v.
Proof.
  intros Hv. destruct e; simpl; [|rewrite rev_involutive]; apply le_value_bytes, Hv.
Qed.

Lemma pack_field (e : endianness) (n : nat) (v : Z) :
  0 <= v < 256 ^ Z.of_nat n -> pack e n v = Ok (field e n v).
Proof.
  intros Hv. unfold pack.
  destruct (0 <=? v) eqn:E1; bools; [|lia].
  destruct (v <? 256 ^ Z.of_nat n) eqn:E2; bools; [|lia].
  destruct e; reflexivity.
Qed.

(** ** Writers *)

Lemma writes_bind (c1 c2 : M BinaryWriter.stream unit) (o1 o2 : bytes) :
  writes c1 o1 -> writes c2 o2 -> writes (do! c1 in c2) (o1 ++ o2).
Proof.
  intros H1 H2 w. unfold bind. rewrite H1, H2, app_assoc. reflexivity.
Qed.

Lemma writes_WriteBytes (bs : bytes) : writes (BinaryWriter.WriteBytes bs) bs.
Proof. intros w. reflexivity. Qed.

Lemma writes_WriteUInt (e : endianness) (n : nat) (v : Z) :
  0 <= v < 256 ^ Z.of_nat n -> writes (BinaryWriter.WriteUInt e n v) (field e n v).
Proof.
  intros Hv w. unfold BinaryWriter.WriteUInt, bind, lift.
  rewrite pack_field by exact Hv. reflexivity.
Qed.

Lemma writes_WriteVarInt (e : endianness) (v : Z) :
  0 <= v < 2 ^ 64 -> writes (BinaryWriter.WriteVarInt e v) (varint e v).
Proof.
  intros Hv. unfold BinaryWriter.WriteVarInt, varint.
  destruct (v <? 0) eqn:E0; bools; [lia|].
  destruct (v <? 253) eqn:E1; bools.
  { apply writes_WriteUInt. simpl. lia. }
  destruct (v <=? 65535) eqn:E2; bools.
  { apply writes_bind; apply writes_WriteUInt; simpl; lia. }
  destruct (v <=? 4294967295) eqn:E3; bools.
  { apply writes_bind; apply writes_WriteUInt; simpl; lia. }
  apply writes_bind; apply writes_WriteUInt; simpl; lia.
Qed.

Lemma writes_WriteVarString (e : endianness) (s : str) (bs : bytes) :
  utf8_encode s = Some bs -> Z.of_nat (length bs) < 2 ^ 64 ->
  writes (BinaryWriter.WriteVarString e s)
         (varint e (Z.of_nat (length bs)) ++ bs).
Proof.
  intros Hs Hl w. unfold BinaryWriter.WriteVarString, encode_utf8.
  rewrite Hs. unfold lift at 1.
  rewrite (bind_ok _ _ w bs w) by reflexivity.
  apply writes_bind; [apply writes_WriteVarInt; lia|apply writes_WriteBytes].
Qed.

(** ** Readers *)

Lemma consumes_ret {A} (a : A) : consumes (ret a) [] a.
Proof.
  split; [reflexivity|]. simpl. intros n Hn. lia.
Qed.

Lemma consumes_bind {A B} (p : M BinaryReader.stream A)
  (k : A -> M BinaryReader.stream B) (e1 e2 : bytes) (a : A) (b : B) :
  consumes p e1 a -> consumes (k a) e2 b -> consumes (bind p k) (e1 ++ e2) b.
Proof.
  intros [Hp Hpt] [Hk Hkt]. split.
  - intros rest. rewrite <- app_assoc. rewrite (bind_ok _ _ _ _ _ (Hp _)).
    apply Hk.
  - intros n Hn. rewrite length_app in Hn.
    destruct (decide (n < length e1)%nat) as [Hlt|Hge].
    + rewrite take_app_le by lia. destruct (Hpt n Hlt) as [r Hr].
      exists r. apply (bind_raise _ _ _ _ _ Hr).
    + rewrite take_app_ge by lia.
      rewrite (bind_ok _ _ _ _ _ (Hp _)). apply Hkt. lia.
Qed.

Lemma consumes_ReadBytes (bs : bytes) :
  consumes (BinaryReader.ReadBytes (length bs)) bs bs.
Proof.
  split.
  - intros rest. unfold BinaryReader.ReadBytes.
    destruct (length (bs ++ rest) <? length bs)%nat eqn:E.
    + apply Nat.ltb_lt in E. rewrite length_app in E. lia.
    + rewrite take_app_length, drop_app_length. reflexivity.
  - intros n Hn. exists (take n bs). unfold BinaryReader.ReadBytes.
    destruct (length (take n bs) <? length bs)%nat eqn:E; [reflexivity|].
    apply Nat.ltb_ge in E. rewrite length_take in E. lia.
Qed.

Lemma consumes_ReadUInt (e : endianness) (n : nat) (v : Z) :
  0 <= v < 256 ^ Z.of_nat n -> consumes (BinaryReader.ReadUInt e n) (field e n v) v.
Proof.
  intros Hv. unfold BinaryReader.ReadUInt.
  rewrite <- (app_nil_r (field e n v)).
  eapply consumes_bind.
  - rewrite <- (field_length e n v) at 1. apply consumes_ReadBytes.
  - simpl. rewrite unpack_field by exact Hv. apply consumes_ret.
Qed.

Lemma consumes_ReadVarInt (e : endianness) (v : Z) :
  0 <= v < 2 ^ 64 -> consumes (BinaryReader.ReadVarInt e) (varint e v) v.
Proof.
  intros Hv. unfold BinaryReader.ReadVarInt, varint.
  destruct (v <? 253) eqn:E1; bools.
  { rewrite <- (app_nil_r (field e 1 v)).
    eapply consumes_bind; [apply consumes_ReadUInt; simpl; lia|].
    simpl.
    destruct (v =? 253) eqn:F1; bools; [lia|].
    destruct (v =? 254) eqn:F2; bools; [lia|].
    destruct (v =? 255) eqn:F3; bools; [lia|].
    apply consumes_ret. }
  destruct (v <=? 65535) eqn:E2; bools.
  { eapply consumes_bind; [apply consumes_ReadUInt; simpl; lia|].
    simpl. rewrite <- (app_nil_r (field e 2 v)).
    eapply consumes_bind; [apply consumes_ReadUInt; simpl; lia|].
    simpl. destruct (v <? 253) eqn:F; bools; [lia|]. apply consumes_ret. }
  destruct (v <=? 4294967295) eqn:E3; bools.
  { eapply consumes_bind; [apply consumes_ReadUInt; simpl; lia|].
    simpl. rewrite <- (app_nil_r (field e 4 v)).
    eapply consumes_bind; [apply consumes_ReadUInt; simpl; lia|].
    simpl. destruct (v <=? 65535) eqn:F; bools; [lia|]. apply consumes_ret. }
  eapply consumes_bind; [apply consumes_ReadUInt; simpl; lia|].
  simpl. rewrite <- (app_nil_r (field e 8 v)).
  eapply consumes_bind; [apply consumes_ReadUInt; simpl; lia|].
  simpl. destruct (v <=? 4294967295) eqn:F; bools; [lia|]. apply consumes_ret.
Qed.

Lemma consumes_ReadVarString (e : endianness) (bs : bytes) :
  Z.of_nat (length bs) < 2 ^ 64 ->
  consumes (BinaryReader.ReadVarString e)
           (varint e (Z.of_nat (length bs)) ++ bs) bs.
Proof.
  intros Hl. unfold BinaryReader.ReadVarString.
  eapply consumes_bind; [apply consumes_ReadVarInt; lia|].
  simpl. rewrite Nat2Z.id. apply consumes_ReadBytes.
Qed.

Lemma consumes_ReadBool (e : endianness) (b : bool) :
  consumes (BinaryReader.ReadBool e) (field e 1 (if b then 1 else 0)) b.
Proof.
  unfold BinaryReader.ReadBool.
  rewrite <- (app_nil_r (field e 1 _)).
  eapply consumes_bind; [apply consumes_ReadUInt; destruct b; simpl; lia|].
  simpl. destruct b; apply consumes_ret.
Qed.

(** ** [VersionPayload.Serialize] and [VersionPayload.Deserialize] *)

Section Handshake.
Import VersionPayload.

Lemma writes_attr {A} (v : A) (k : A -> M BinaryWriter.stream unit) (o : bytes) :
  writes (k v) o -> writes (let! x := attr (Some v) in k x) o.
Proof. intros H w. apply H. Qed.

Lemma fills_ext {A} (c : M store A) (enc : bytes) (a : A) (f g : t -> t) :
  fills c enc a f -> (forall self, f self = g self) -> fills c enc a g.
Proof.
  intros [H1 H2] Hfg. split; [|exact H2].
  intros self rest. rewrite H1, Hfg. reflexivity.
Qed.

Lemma fills_bind {A B} (c : M store A) (k : A -> M store B)
  (e1 e2 : bytes) (a : A) (b : B) (f g : t -> t) :
  fills c e1 a f -> fills (k a) e2 b g ->
  fills (bind c k) (e1 ++ e2) b (fun self => g (f self)).
Proof.
  intros [Hc Hct] [Hk Hkt]. split.
  - intros self rest. rewrite <- app_assoc.
    rewrite (bind_ok _ _ _ _ _ (Hc _ _)). apply Hk.
  - intros self n Hn. rewrite length_app in Hn.
    destruct (decide (n < length e1)%nat) as [Hlt|Hge].
    + rewrite take_app_le by lia. destruct (Hct self n Hlt) as [st Hst].
      exists st. apply (bind_raise _ _ _ _ _ Hst).
    + rewrite take_app_ge by lia.
      rewrite (bind_ok _ _ _ _ _ (Hc _ _)). apply Hkt. lia.
Qed.

Lemma fills_reading {A} (p : M BinaryReader.stream A) (enc : bytes) (a : A) :
  consumes p enc a -> fills (reading p) enc a (fun self => self).
Proof.
  intros [Hp Hpt]. split.
  - intros self rest. unfold reading. simpl. rewrite Hp. reflexivity.
  - intros self n Hn. destruct (Hpt n Hn) as [r Hr].
    exists (self, r). unfold reading. simpl. rewrite Hr. reflexivity.
Qed.

Lemma fills_assign (f : t -> t) : fills (assign f) [] tt f.
Proof.
  split; [reflexivity|]. simpl. intros self n Hn. lia.
Qed.

Lemma fills_lift_ok {A} (a : A) : fills (lift (Ok a)) [] a (fun self => self).
Proof.
  split; [reflexivity|]. simpl. intros self n Hn. lia.
Qed.

(** One statement of [Deserialize]: read a field, assign it. *)
Lemma fills_field {A} (p : M BinaryReader.stream A) (enc : bytes) (a : A)
  (set : A -> t -> t) :
  consumes p enc a ->
  fills (let! v := reading p in assign (set v)) enc tt (set a).
Proof.
  intros Hp. rewrite <- (app_nil_r enc).
  eapply fills_ext.
  - eapply fills_bind; [apply fills_reading, Hp|apply fills_assign].
  - reflexivity.
Qed.

Lemma fits_spec (n : nat) (v : Z) :
  fits n (Some v) = true -> 0 <= v < 256 ^ Z.of_nat n.
Proof. unfold fits. intros H. bools. lia. Qed.

(** What [valid] says, field by field. *)
Lemma valid_inv (ov os ots op on : option Z) (oua : option str) (sh : Z) (rl : bool) :
  valid (mk ov os ots op on oua sh rl) = true ->
  exists v s ts p n ua uab,
    ov = Some v /\ os = Some s /\ ots = Some ts /\ op = Some p /\ on = Some n
    /\ oua = Some ua
    /\ 0 <= v < 256 ^ Z.of_nat 1 /\ 0 <= s < 256 ^ Z.of_nat 8
    /\ 0 <= ts < 256 ^ Z.of_nat 4 /\ 0 <= p < 256 ^ Z.of_nat 2
    /\ 0 <= n < 256 ^ Z.of_nat 4
    /\ utf8_encode ua = Some uab /\ Z.of_nat (length uab) < 2 ^ 64
    /\ 0 <= sh < 256 ^ Z.of_nat 4.
Proof.
  destruct ov as [v|], os as [s|], ots as [ts|], op as [p|], on as [n|],
    oua as [ua|]; unfold valid, fits;
    cbn [Version Services Timestamp Port Nonce UserAgent StartHeight Relay];
    rewrite ?andb_false_r, ?andb_false_l; try discriminate.
  destruct (utf8_encode ua) as [uab|] eqn:Hua;
    rewrite ?andb_false_r, ?andb_false_l; try discriminate.
  intros H. bools.
  exists v, s, ts, p, n, ua, uab. repeat split; try reflexivity; try assumption; lia.
Qed.

Lemma Serialize_writes (e : endianness) (x : t) :
  valid x = true -> writes (Serialize e x) (layout e x).
Proof.
  destruct x as [ov os ots op on oua sh rl]. intros Hx.
  destruct (valid_inv _ _ _ _ _ _ _ _ Hx)
    as (v & s & ts & p & n & ua & uab & -> & -> & -> & -> & -> & ->
        & Hv & Hs & Hts & Hp & Hn & Hua & Hl & Hsh).
  unfold Serialize, layout. cbn [Version Services Timestamp Port Nonce UserAgent
    StartHeight Relay from_option id].
  rewrite Hua. cbn [from_option id].
  repeat (apply writes_bind;
          [apply writes_attr; first
             [ apply writes_WriteUInt; assumption
             | apply writes_WriteVarString; assumption ]
          | ]).
  apply writes_bind; [apply writes_WriteUInt; assumption|].
  apply writes_WriteUInt. destruct rl; simpl; lia.
Qed.

Lemma Deserialize_fills (e : endianness) (x : t) :
  valid x = true -> fills (Deserialize e) (layout e x) tt (fun _ => x).
Proof.
  destruct x as [ov os ots op on oua sh rl]. intros Hx.
  destruct (valid_inv _ _ _ _ _ _ _ _ Hx)
    as (v & s & ts & p & n & ua & uab & -> & -> & -> & -> & -> & ->
        & Hv & Hs & Hts & Hp & Hn & Hua & Hl & Hsh).
  unfold Deserialize, layout. cbn [Version Services Timestamp Port Nonce UserAgent
    StartHeight Relay from_option id].
  rewrite Hua. cbn [from_option id].
  eapply fills_ext.
  - repeat (eapply fills_bind;
            [apply fills_field; apply consumes_ReadUInt; assumption|]).
    eapply fills_bind.
    { rewrite <- (app_nil_r (varint _ _ ++ uab)).
      eapply fills_bind;
        [apply fills_reading, consumes_ReadVarString; assumption|].
      rewrite <- (app_nil_r []).
      eapply fills_bind.
      - unfold decode_utf8. rewrite (utf8_decode_encode _ _ Hua).
        apply fills_lift_ok.
      - apply fills_assign. }
    eapply fills_bind;
      [apply fills_field; apply consumes_ReadUInt; assumption|].
    apply fills_field, consumes_ReadBool.
  - intros self. destruct self; reflexivity.
Qed.

End Handshake.

Lemma encode_layout (e : endianness) (x : VersionPayload.t) :
  VersionPayload.valid x = true ->
  VersionPayload.encode e x = Ok (layout e x).
Proof.
  intros Hx. unfold VersionPayload.encode.
  rewrite (Serialize_writes e x Hx []). reflexivity.
Qed.

(** C1. For every valid message [x] -- each number within its field
    width, the user agent a text whose UTF-8 bytes fit the prefix --
    encoding succeeds and writes the eight fields in the fixed order
    version, services, timestamp, listenPort, nonce, userAgent,
    startHeight, relay, and decoding those bytes gives [x] back. *)
Theorem roundtrip_decode_encode (e : endianness) (x : VersionPayload.t) :
  VersionPayload.valid x = true ->
  VersionPayload.encode e x = Ok (layout e x)
  /\ VersionPayload.decode e (layout e x) = Ok x.
Proof.
  intros Hx. split.
  - apply encode_layout, Hx.
  - unfold VersionPayload.decode.
    destruct (Deserialize_fills e x Hx) as [Hok _].
    specialize (Hok VersionPayload.new []). rewrite app_nil_r in Hok.
    unfold BinaryReader.stream, bytes in *. rewrite Hok. reflexivity.
Qed.

(** The version message of a 2.7.4 node, little-endian. *)
Lemma roundtrip_decode_encode_witness :
  VersionPayload.valid example_version = true
  /\ VersionPayload.encode LittleEndian example_version
     = Ok (layout LittleEndian example_version)
  /\ VersionPayload.decode LittleEndian (layout LittleEndian example_version)
     = Ok example_version.
Proof.
  split; [vm_compute; reflexivity|].
  apply (roundtrip_decode_encode LittleEndian example_version).
  vm_compute; reflexivity.
Defined.

(** C4. For every valid message and every strict prefix of its
    encoding, [Deserialize] stops with the Truncated error whatever
    object it was filling, and [decode] reports that error and hands out
    no object. *)
Theorem truncation_fails (e : endianness) (x : VersionPayload.t)
  (bs pre suf : bytes) :
  VersionPayload.valid x = true ->
  VersionPayload.encode e x = Ok bs ->
  bs = pre ++ suf -> suf <> [] ->
  (forall self, fst (VersionPayload.Deserialize e (self, pre)) = Raise TruncatedInput)
  /\ VersionPayload.decode e pre = Raise TruncatedInput.
Proof.
  intros Hx Henc Hbs Hsuf.
  rewrite (encode_layout e x Hx) in Henc. injection Henc as <-.
  destruct (Deserialize_fills e x Hx) as [_ Htr].
  assert (Hpre : pre = take (length pre) (layout e x))
    by (rewrite Hbs, take_app_length; reflexivity).
  assert (Hlen : (length pre < length (layout e x))%nat).
  { rewrite Hbs, length_app. destruct suf; [congruence|simpl; lia]. }
  split.
  - intros self. destruct (Htr self _ Hlen) as [st Hst].
    rewrite <- Hpre in Hst. unfold BinaryReader.stream, bytes in *.
    rewrite Hst. reflexivity.
  - unfold VersionPayload.decode.
    destruct (Htr VersionPayload.new _ Hlen) as [st Hst].
    rewrite <- Hpre in Hst. unfold BinaryReader.stream, bytes in *.
    rewrite Hst. reflexivity.
Qed.

(** The same message cut after its first twenty bytes, inside the
    nonce. *)
Lemma truncation_fails_witness :
  VersionPayload.valid example_version = true
  /\ (length (take 20 (layout LittleEndian example_version))
      < length (layout LittleEndian example_version))%nat
  /\ VersionPayload.decode LittleEndian
       (take 20 (layout LittleEndian example_version))
     = Raise TruncatedInput.
Proof.
  split; [vm_compute; reflexivity|]. split; [vm_compute; lia|].
  refine (proj2 (truncation_fails LittleEndian example_version
                   (layout LittleEndian example_version)
                   (take 20 (layout LittleEndian example_version))
                   (drop 20 (layout LittleEndian example_version)) _ _ _ _)).
  - vm_compute; reflexivity.
  - vm_compute; reflexivity.
  - vm_compute; reflexivity.
  - vm_compute. discriminate.
Defined.

(** ** [OrderedDict] and [LimitedSizeDict] *)

Section DictFacts.
Context {K V : Type} `{EqDecision K}.
Implicit Types (d : OrderedDict.t K V) (k : K) (v : V).

Lemma od_get_None d k : OrderedDict.get k d = None <-> k ∉ OrderedDict.keys d.
Proof.
  induction d as [|[k' v'] d IH]; simpl.
  - split; [intros _; apply not_elem_of_nil|reflexivity].
  - rewrite not_elem_of_cons. destruct (decide (k' = k)) as [->|Hne].
    + split; [discriminate|intros [? _]; congruence].
    + rewrite IH. split; [intros ?; split; congruence|intros [_ ?]; assumption].
Qed.

Lemma od_get_Some_in d k v : OrderedDict.get k d = Some v -> k ∈ OrderedDict.keys d.
Proof.
  intros Hg. destruct (decide (k ∈ OrderedDict.keys d)) as [|Hn]; [assumption|].
  apply od_get_None in Hn. congruence.
Qed.

Lemma od_get_Some_elem d k v : OrderedDict.get k d = Some v -> (k, v) ∈ d.
Proof.
  induction d as [|[k' v'] d IH]; simpl; [discriminate|].
  destruct (decide (k' = k)) as [->|Hne].
  - intros [= ->]. apply list_elem_of_here.
  - intros Hg. apply list_elem_of_further, IH, Hg.
Qed.

Lemma od_setitem_new d k v :
  OrderedDict.get k d = None -> OrderedDict.__setitem__ k v d = d ++ [(k, v)].
Proof.
  induction d as [|[k' v'] d IH]; simpl; [reflexivity|].
  destruct (decide (k' = k)); [discriminate|].
  intros Hg. rewrite IH by exact Hg. reflexivity.
Qed.

Lemma od_setitem_keys d k v v0 :
  OrderedDict.get k d = Some v0 ->
  OrderedDict.keys (OrderedDict.__setitem__ k v d) = OrderedDict.keys d.
Proof.
  induction d as [|[k' v'] d IH]; simpl; [discriminate|].
  destruct (decide (k' = k)) as [->|Hne]; [reflexivity|].
  intros Hg. simpl. f_equal. apply IH, Hg.
Qed.

Lemma od_setitem_length d k v v0 :
  OrderedDict.get k d = Some v0 ->
  length (OrderedDict.__setitem__ k v d) = length d.
Proof.
  intros Hg. unfold OrderedDict.t in *.
  rewrite <- (length_map fst (OrderedDict.__setitem__ k v d)).
  rewrite <- (length_map fst d).
  f_equal. apply (od_setitem_keys d k v v0 Hg).
Qed.

Lemma od_get_setitem d k v : OrderedDict.get k (OrderedDict.__setitem__ k v d) = Some v.
Proof.
  induction d as [|[k' v'] d IH]; simpl.
  - destruct (decide (k = k)); congruence.
  - destruct (decide (k' = k)) as [->|Hne]; simpl.
    + destruct (decide (k = k)); congruence.
    + destruct (decide (k' = k)); congruence.
Qed.

Lemma od_setitem_elem d k v kv :
  kv ∈ OrderedDict.__setitem__ k v d -> kv = (k, v) \/ kv ∈ d.
Proof.
  induction d as [|[k' v'] d IH]; simpl.
  - intros Hin. apply list_elem_of_singleton in Hin. left. exact Hin.
  - destruct (decide (k' = k)) as [->|Hne]; intros Hin;
      apply elem_of_cons in Hin as [->|Hin].
    + left. reflexivity.
    + right. apply list_elem_of_further, Hin.
    + right. apply list_elem_of_here.
    + destruct (IH Hin) as [->|Hd]; [left; reflexivity|].
      right. apply list_elem_of_further, Hd.
Qed.

Lemma od_get_app_new d k v : k ∉ OrderedDict.keys d ->
  OrderedDict.get k (d ++ [(k, v)]) = Some v.
Proof.
  induction d as [|[k' v'] d IH]; simpl; intros Hn.
  - destruct (decide (k = k)); congruence.
  - apply not_elem_of_cons in Hn as [Hne Hn].
    destruct (decide (k' = k)); [congruence|]. apply IH, Hn.
Qed.

Lemma od_keys_drop (j : nat) d :
  OrderedDict.keys (drop j d) = drop j (OrderedDict.keys d).
Proof. unfold OrderedDict.keys. symmetry. apply skipn_map. Qed.

Lemma od_keys_drop_notin (j : nat) d k :
  k ∉ OrderedDict.keys d -> k ∉ OrderedDict.keys (drop j d).
Proof.
  intros Hn Hin. apply Hn. rewrite od_keys_drop in Hin.
  exact (subseteq_drop j (OrderedDict.keys d) k Hin).
Qed.

Lemma od_keys_app d1 d2 :
  OrderedDict.keys (d1 ++ d2) = OrderedDict.keys d1 ++ OrderedDict.keys d2.
Proof. apply map_app. Qed.

Lemma od_keys_length d : length (OrderedDict.keys d) = length d.
Proof. apply length_map. Qed.

Lemma pop_while_over_drop (n : nat) d :
  LimitedSizeDict.pop_while_over (Z.of_nat n) d = Ok (drop (length d - n) d).
Proof.
  induction d as [|kv d IH].
  - cbn [LimitedSizeDict.pop_while_over length].
    destruct (Z.gtb_spec (Z.of_nat 0) (Z.of_nat n)); [lia|reflexivity].
  - cbn [LimitedSizeDict.pop_while_over].
    destruct (Z.gtb_spec (Z.of_nat (length (kv :: d))) (Z.of_nat n)) as [E|E];
      simpl length in *.
    + rewrite IH.
      replace (S (length d) - n)%nat with (S (length d - n)) by lia.
      reflexivity.
    + replace (S (length d) - n)%nat with 0%nat by lia. reflexivity.
Qed.

Lemma lsd_setitem (n : nat) d k v :
  LimitedSizeDict.__setitem__ k v (LimitedSizeDict.mk (Some (Z.of_nat n)) d)
  = (Ok tt,
     LimitedSizeDict.mk (Some (Z.of_nat n))
       (drop (length (OrderedDict.__setitem__ k v d) - n)
             (OrderedDict.__setitem__ k v d))).
Proof.
  unfold LimitedSizeDict.__setitem__, bind, modify,
    LimitedSizeDict._check_size_limit. simpl.
  rewrite pop_while_over_drop. reflexivity.
Qed.

End DictFacts.

(** ** The failure history of the guard *)

Section History.
Import BasicUserPassCredentialChecker.

Lemma wf_history_spec (h : LimitedSizeDict.t str Z) :
  wf_history h = true <->
  LimitedSizeDict.size_limit h = Some 100
  /\ NoDup (OrderedDict.keys (LimitedSizeDict.items h))
  /\ (length (LimitedSizeDict.items h) <= 100)%nat
  /\ (forall k v, (k, v) ∈ LimitedSizeDict.items h -> 1 <= v <= 100).
Proof.
  unfold wf_history. rewrite !andb_true_iff, !bool_decide_eq_true, forallb_forall.
  split.
  - intros [[[H1 H2] H3] H4]. repeat split; try assumption;
      apply list_elem_of_In, H4 in H; simpl in H; bools; lia.
  - intros (H1 & H2 & H3 & H4). repeat split; try assumption.
    intros [k v] Hin. apply list_elem_of_In, H4 in Hin. simpl.
    apply andb_true_iff. split; [apply Z.leb_le|apply Z.leb_le]; lia.
Qed.

Lemma initial_world_wf : wf_world initial_world = true.
Proof. reflexivity. Qed.

(** What one call does, as a case analysis on the entry found. *)
Lemma get_consecutive_errors_step (u : str) (d : OrderedDict.t str Z) (sl : list Z) :
  get_consecutive_errors u (mkWorld (LimitedSizeDict.mk (Some 100) d) sl)
  = match OrderedDict.get u d with
    | Some n =>
        if truthy (Some n) then
          if n <? 100 then
            let d' := OrderedDict.__setitem__ u (n + 1) d in
            (Ok (n + 1),
             mkWorld (LimitedSizeDict.mk (Some 100) (drop (length d' - 100) d')) sl)
          else (Ok n, mkWorld (LimitedSizeDict.mk (Some 100) d) sl)
        else
          let d' := OrderedDict.__setitem__ u 1 d in
          (Ok 1,
           mkWorld (LimitedSizeDict.mk (Some 100) (drop (length d' - 100) d')) sl)
    | None =>
        let d' := OrderedDict.__setitem__ u 1 d in
        (Ok 1,
         mkWorld (LimitedSizeDict.mk (Some 100) (drop (length d' - 100) d')) sl)
    end.
Proof.
  unfold get_consecutive_errors, bind, on_history, ret.
  cbn [consecutive_errors_history slept].
  unfold LimitedSizeDict.get. cbn [LimitedSizeDict.items].
  change 100 with (Z.of_nat 100).
  destruct (OrderedDict.get u d) as [n|];
    [destruct (truthy (Some n)); [destruct (n <? Z.of_nat 100)|]|];
    cbn beta; cbn [consecutive_errors_history slept];
    rewrite ?lsd_setitem; reflexivity.
Qed.

(** One recorded failure on a history of the guard: the count reported
    and stored is the old one plus one, capped at 100; an entry already
    tracked keeps its place; a new one goes last, and the first one
    leaves when that makes 101. *)
Lemma get_consecutive_errors_spec (u : str) (w : world) :
  wf_world w = true ->
  exists w',
    get_consecutive_errors u w = (Ok (Z.min (count u w + 1) 100), w')
    /\ wf_world w' = true
    /\ slept w' = slept w
    /\ count u w' = Z.min (count u w + 1) 100
    /\ tracked w' =
         if bool_decide (u ∈ tracked w) then tracked w
         else drop (length (tracked w) + 1 - 100) (tracked w ++ [u]).
Proof.
  destruct w as [[sz d] sl]. unfold wf_world, count, tracked; simpl.
  intros Hwf. apply wf_history_spec in Hwf as (Hsz & Hnd & Hlen & Hval).
  simpl in *. subst sz. rewrite get_consecutive_errors_step.
  unfold LimitedSizeDict.get; simpl.
  destruct (OrderedDict.get u d) as [n|] eqn:Hget.
  - pose proof (Hval _ _ (od_get_Some_elem _ _ _ Hget)) as Hn.
    pose proof (od_get_Some_in _ _ _ Hget) as Hin.
    rewrite (bool_decide_eq_true_2 _ Hin). cbn [from_option id].
    unfold truthy. destruct (n =? 0) eqn:E0; bools; [exfalso; lia|]. simpl negb. cbv iota.
    destruct (n <? 100) eqn:E1; bools.
    + cbv zeta. rewrite (od_setitem_length _ _ _ _ Hget).
      replace (length d - 100)%nat with 0%nat by lia. rewrite drop_0.
      eexists. split; [rewrite Z.min_l by lia; reflexivity|].
      simpl. repeat split.
      * apply wf_history_spec. simpl.
        rewrite (od_setitem_keys _ _ _ _ Hget), (od_setitem_length _ _ _ _ Hget).
        repeat split; try assumption;
          apply od_setitem_elem in H as [[= -> ->]|H]; try lia;
          apply Hval in H; lia.
      * unfold LimitedSizeDict.get; simpl. rewrite od_get_setitem. simpl. lia.
      * apply (od_setitem_keys _ _ _ _ Hget).
    + assert (n = 100) as -> by lia.
      eexists. split; [reflexivity|].
      simpl. repeat split.
      * apply wf_history_spec. simpl. repeat split; try assumption;
          apply Hval in H; lia.
      * unfold LimitedSizeDict.get; simpl. rewrite Hget. reflexivity.
  - pose proof (proj1 (od_get_None _ _) Hget) as Hnin.
    rewrite (bool_decide_eq_false_2 _ Hnin). cbn [from_option id].
    cbv zeta. rewrite (od_setitem_new _ _ _ Hget), length_app. simpl length.
    assert (Hj : (length d + 1 - 100 <= length d)%nat) by lia.
    rewrite (drop_app_le _ _ _ Hj).
    assert (Hsub : u ∉ OrderedDict.keys (drop (length d + 1 - 100) d))
      by (apply od_keys_drop_notin, Hnin).
    eexists. split; [reflexivity|].
    cbn [consecutive_errors_history slept LimitedSizeDict.items].
    split; [|split; [reflexivity|split]].
    + apply wf_history_spec. cbn [LimitedSizeDict.size_limit LimitedSizeDict.items].
      split; [reflexivity|]. split; [|split].
      * rewrite od_keys_app. apply NoDup_app. repeat split.
        -- eapply sublist_NoDup; [exact Hnd|]. rewrite od_keys_drop.
           apply sublist_drop.
        -- intros x Hx Hx'. apply list_elem_of_singleton in Hx'. subst x.
           apply Hsub, Hx.
        -- apply NoDup_singleton.
      * rewrite length_app, length_drop. simpl. lia.
      * intros k v Hin. apply elem_of_app in Hin as [Hin|Hin].
        -- apply (subseteq_drop (length d + 1 - 100) d (k, v)), Hval in Hin. lia.
        -- apply list_elem_of_singleton in Hin. injection Hin as -> ->. lia.
    + unfold LimitedSizeDict.get. cbn [LimitedSizeDict.items].
      rewrite (od_get_app_new _ _ _ Hsub). reflexivity.
    + rewrite !od_keys_app, od_keys_drop, od_keys_length. simpl.
      symmetry. apply drop_app_le. rewrite od_keys_length. exact Hj.
Qed.

End History.

(** ** The credential guard *)

Section Guard.
Import BasicUserPassCredentialChecker.
Variable to_aes_key : str -> bytes.

Lemma count_range (u : str) (w : world) :
  wf_world w = true -> 0 <= count u w <= 100.
Proof.
  destruct w as [[sz d] sl]. unfold wf_world, count, LimitedSizeDict.get; simpl.
  intros Hwf. apply wf_history_spec in Hwf as (_ & _ & _ & Hval). simpl in Hval.
  destruct (OrderedDict.get u d) as [n|] eqn:Hget; simpl; [|lia].
  pose proof (Hval _ _ (od_get_Some_elem _ _ _ Hget)). lia.
Qed.

(** [time.sleep] takes the delay of a count up to 33 and refuses the
    delay of any count beyond. *)
Lemma sleep_returns (seconds : Z) (w : world) :
  0 <= seconds <= SLEEP_MAX ->
  sleep seconds w
  = (Ok tt, mkWorld (consecutive_errors_history w) (slept w ++ [seconds])).
Proof.
  intros Hs. unfold sleep.
  destruct (Z.ltb_spec seconds 0); [lia|].
  destruct (Z.ltb_spec SLEEP_MAX seconds); [lia|]. reflexivity.
Qed.


Lemma delay_within (n : Z) : 1 <= n <= 33 -> 0 <= 2 * 2 ^ (n - 1) <= SLEEP_MAX.
Proof.
  intros Hn.
  assert (H33 : 2 * 2 ^ (33 - 1) <= SLEEP_MAX) by (vm_compute; discriminate).
  assert (Hmono : 2 ^ (n - 1) <= 2 ^ (33 - 1)) by (apply Z.pow_le_mono_r; lia).
  assert (0 < 2 ^ (n - 1)) by (apply Z.pow_pos_nonneg; lia).
  lia.
Qed.


(** A wrong name, or the right name with a wrong password, takes the
    [else] branch: the failure is recorded, then [time.sleep] is called. *)
Lemma requestAvatarId_else (self : t) (ub pb : bytes) (u : str) (w : world) :
  utf8_decode ub = Some u ->
  (u <> username self
   \/ exists p, utf8_decode pb = Some p /\ to_aes_key p <> password self) ->
  requestAvatarId to_aes_key self (UsernamePassword ub pb) w
  = match get_consecutive_errors u w with
    | (Ok n, w1) =>
        match sleep (2 * 2 ^ (n - 1)) w1 with
        | (Ok _, w2) => (Ok unauthorized, w2)
        | (Raise e, w2) => (Raise e, w2)
        end
    | (Raise e, w1) => (Raise e, w1)
    end.
Proof.
  intros Hu Hbad.
  unfold requestAvatarId, check_interfaces, credentialInterfaces, providedBy,
    cred_username, cred_password, decode_utf8, bind, lift, ret, backoff.
  rewrite Hu.
  destruct Hbad as [Hne|(p & Hp & Hkey)].
  - rewrite (bool_decide_eq_false_2 _ Hne).
    destruct (get_consecutive_errors u w) as [[n|e] w1]; [|reflexivity].
    destruct (sleep (2 * 2 ^ (n - 1)) w1) as [[[]|e] w2]; reflexivity.
  - rewrite Hp. destruct (bool_decide (u = username self));
      rewrite ?(bool_decide_eq_false_2 _ Hkey);
      (destruct (get_consecutive_errors u w) as [[n|e] w1]; [|reflexivity]);
      destruct (sleep (2 * 2 ^ (n - 1)) w1) as [[[]|e] w2]; reflexivity.
Qed.

(** What a failed attempt of valid UTF-8 credentials amounts to. *)
Lemma failed_attempt (self : t) (ub pb : bytes) (u p : str) :
  utf8_decode ub = Some u -> utf8_decode pb = Some p ->
  ~ (u = username self /\ to_aes_key p = password self) ->
  u <> username self
  \/ exists p, utf8_decode pb = Some p /\ to_aes_key p <> password self.
Proof.
  intros Hu Hp Hfail. destruct (decide (u = username self)) as [Heq|Hne].
  - right. exists p. split; [exact Hp|]. intros Hkey. apply Hfail. split; assumption.
  - left. exact Hne.
Qed.

Lemma requestAvatarId_failure (self : t) (ub pb : bytes) (u : str) (w : world) :
  wf_world w = true ->
  utf8_decode ub = Some u ->
  (u <> username self
   \/ exists p, utf8_decode pb = Some p /\ to_aes_key p <> password self) ->
  count u w <= 32 ->
  exists w1,
    get_consecutive_errors u w = (Ok (count u w + 1), w1)
    /\ requestAvatarId to_aes_key self (UsernamePassword ub pb) w
       = (Ok unauthorized,
          mkWorld (consecutive_errors_history w1)
                  (slept w ++ [2 * 2 ^ (count u w + 1 - 1)]))
    /\ wf_world w1 = true
    /\ count u w1 = count u w + 1.
Proof.
  intros Hwf Hu Hbad Hc. pose proof (count_range u w Hwf) as Hr.
  destruct (get_consecutive_errors_spec u w Hwf) as (w1 & Hg & Hwf1 & Hsl & Hc1 & _).
  rewrite Z.min_l in Hg, Hc1 by lia.
  exists w1. split; [exact Hg|]. split; [|split; assumption].
  rewrite (requestAvatarId_else self ub pb u w Hu Hbad), Hg.
  rewrite sleep_returns by (apply delay_within; lia). rewrite Hsl. reflexivity.
Qed.


Lemma attempts_failures (self : t) (ub pb : bytes) (u : str) (N : nat) :
  utf8_decode ub = Some u ->
  (u <> username self
   \/ exists p, utf8_decode pb = Some p /\ to_aes_key p <> password self) ->
  forall w, wf_world w = true ->
  count u w + Z.of_nat N <= 33 ->
  exists w',
    attempts to_aes_key self (UsernamePassword ub pb) N w
    = (Ok (repeat unauthorized N), w')
    /\ wf_world w' = true
    /\ count u w' = count u w + Z.of_nat N
    /\ slept w'
       = slept w ++ map (fun i => 2 * 2 ^ (count u w + Z.of_nat i - 1)) (seq 1 N).
Proof.
  intros Hu Hbad. induction N as [|N IH]; intros w Hwf Hc.
  - exists w. simpl. rewrite app_nil_r. repeat split; [assumption|lia].
  - destruct (requestAvatarId_failure self ub pb u w Hwf Hu Hbad ltac:(lia))
      as (w1 & _ & Hreq & Hwf1 & Hc1).
    set (w2 := mkWorld (consecutive_errors_history w1)
                       (slept w ++ [2 * 2 ^ (count u w + 1 - 1)])) in *.
    assert (Hwf2 : wf_world w2 = true) by exact Hwf1.
    assert (Hc2 : count u w2 = count u w + 1) by exact Hc1.
    destruct (IH w2 Hwf2 ltac:(lia)) as (w' & Hatt & Hwf' & Hc' & Hsl').
    exists w'. split; [|split; [exact Hwf'|split]].
    + cbn [attempts]. rewrite (bind_ok _ _ _ _ _ Hreq).
      rewrite (bind_ok _ _ _ _ _ Hatt). reflexivity.
    + rewrite Hc', Hc2. lia.
    + rewrite Hsl'.
      change (slept w2) with (slept w ++ [2 * 2 ^ (count u w + 1 - 1)]).
      rewrite <- app_assoc. f_equal. cbn [seq map app]. f_equal.
      rewrite <- (seq_shift N 1), map_map. apply map_ext. intros i.
      rewrite Hc2. do 2 f_equal. lia.
Qed.

End Guard.

(** ** The statements about the guard *)

Lemma tracked_length (w : world) :
  wf_world w = true -> (length (tracked w) <= 100)%nat.
Proof.
  unfold wf_world, tracked. intros Hwf.
  apply wf_history_spec in Hwf as (_ & _ & Hlen & _).
  rewrite od_keys_length. exact Hlen.
Qed.

Lemma record_failures_distinct (us : list str) :
  forall w, wf_world w = true -> NoDup (tracked w ++ us) ->
  exists ns w',
    record_failures us w = (Ok ns, w')
    /\ wf_world w' = true
    /\ tracked w' = drop (length (tracked w ++ us) - 100) (tracked w ++ us).
Proof.
  induction us as [|u us IH]; intros w Hwf Hnd.
  - exists [], w. pose proof (tracked_length w Hwf).
    rewrite app_nil_r.
    replace (length (tracked w) - 100)%nat with 0%nat by lia.
    split; [reflexivity|split; [assumption|reflexivity]].
  - destruct (get_consecutive_errors_spec u w Hwf)
      as (w1 & Hg & Hwf1 & _ & _ & Htr).
    assert (Hnin : u ∉ tracked w).
    { apply NoDup_app in Hnd as (_ & Hdis & _). intros Hin.
      apply (Hdis u Hin). apply list_elem_of_here. }
    rewrite (bool_decide_eq_false_2 _ Hnin) in Htr.
    pose proof (tracked_length w Hwf) as Hlen.
    assert (Hcat : tracked w1 ++ us
                   = drop (length (tracked w) + 1 - 100) (tracked w ++ u :: us)).
    { rewrite Htr. rewrite (cons_middle u (tracked w) us), app_assoc.
      symmetry. apply drop_app_le. rewrite length_app. simpl. lia. }
    assert (Hnd1 : NoDup (tracked w1 ++ us)).
    { rewrite Hcat. eapply sublist_NoDup; [exact Hnd|apply sublist_drop]. }
    destruct (IH w1 Hwf1 Hnd1) as (ns & w' & Hrec & Hwf' & Htr').
    exists (Z.min (count u w + 1) 100 :: ns), w'.
    split; [|split; [exact Hwf'|]].
    + cbn [record_failures]. rewrite (bind_ok _ _ _ _ _ Hg).
      rewrite (bind_ok _ _ _ _ _ Hrec). reflexivity.
    + rewrite Htr', Hcat, drop_drop, length_drop. f_equal.
      rewrite !length_app. simpl. lia.
Qed.

(** The backoff within the range of [time.sleep].  A failed request of
    the user-name-and-password kind -- name and password valid UTF-8,
    and not both a match -- for which the count [n] recorded for the
    name is at most 33 is answered on a history of the guard as follows:
    the failure is recorded first and gives [n], one more than before;
    the thread then sleeps exactly [2 * 2 ^ (n - 1)] seconds; the answer
    is the failure "Invalid username or password".  [N] such requests in
    a row that keep the count within 33 sleep the delays of the counts
    in turn, and the [i]-th of them is [2 ^ (i - 1)] times the first. *)
Theorem backoff_doubles (to_aes_key : str -> bytes)
  (self : BasicUserPassCredentialChecker.t) (ub pb : bytes) (u p : str)
  (w : world) (N : nat) :
  wf_world w = true ->
  utf8_decode ub = Some u ->
  utf8_decode pb = Some p ->
  ~ (u = BasicUserPassCredentialChecker.username self
     /\ to_aes_key p = BasicUserPassCredentialChecker.password self) ->
  count u w + Z.of_nat N <= 33 ->
  ((1 <= N)%nat ->
   exists n w1,
     BasicUserPassCredentialChecker.get_consecutive_errors u w = (Ok n, w1)
     /\ n = count u w + 1 /\ 1 <= n <= 33
     /\ BasicUserPassCredentialChecker.requestAvatarId
          to_aes_key self (UsernamePassword ub pb) w
        = (Ok unauthorized,
           mkWorld (consecutive_errors_history w1)
                   (slept w ++ [2 * 2 ^ (n - 1)])))
  /\ (exists w',
        attempts to_aes_key self (UsernamePassword ub pb) N w
        = (Ok (repeat unauthorized N), w')
        /\ slept w'
           = slept w
             ++ map (fun i => 2 * 2 ^ (count u w + Z.of_nat i - 1)) (seq 1 N))
  /\ (forall i, (1 <= i <= N)%nat ->
        2 * 2 ^ (count u w + Z.of_nat i - 1)
        = 2 ^ (Z.of_nat i - 1) * (2 * 2 ^ (count u w + Z.of_nat 1 - 1))).
Proof.
  intros Hwf Hu Hp Hfail Hc. pose proof (count_range u w Hwf) as Hr.
  pose proof (failed_attempt to_aes_key self ub pb u p Hu Hp Hfail) as Hbad.
  split; [|split].
  - intros HN.
    destruct (requestAvatarId_failure to_aes_key self ub pb u w Hwf Hu Hbad ltac:(lia))
      as (w1 & Hg & Hreq & _ & _).
    exists (count u w + 1), w1. split; [exact Hg|]. split; [reflexivity|].
    split; [lia|exact Hreq].
  - destruct (attempts_failures to_aes_key self ub pb u N Hu Hbad w Hwf Hc)
      as (w' & Hatt & _ & _ & Hsl).
    exists w'. split; assumption.
  - intros i Hi.
    replace (count u w + Z.of_nat i - 1) with ((Z.of_nat i - 1) + count u w) by lia.
    replace (count u w + Z.of_nat 1 - 1) with (count u w) by lia.
    rewrite Z.pow_add_r by lia. ring.
Qed.

(** Three wrong passwords for "alice" in a row, from the start of the
    process: 2, 4 and 8 seconds. *)
Lemma backoff_doubles_witness :
  wf_world initial_world = true
  /\ exists w',
       attempts example_key alice alice_wrong 3 initial_world
       = (Ok [unauthorized; unauthorized; unauthorized], w')
       /\ slept w' = [2; 4; 8].
Proof.
  split; [reflexivity|].
  destruct (backoff_doubles example_key alice
              (default [] (utf8_encode (str_of_string "alice")))
              (default [] (utf8_encode (str_of_string "wrong")))
              (str_of_string "alice") (str_of_string "wrong") initial_world 3)
    as (_ & (w' & Hatt & Hsl) & _).
  - reflexivity.
  - reflexivity.
  - reflexivity.
  - intros [_ Hkey]. vm_compute in Hkey. discriminate.
  - vm_compute. discriminate.
  - exists w'. split; [exact Hatt|]. rewrite Hsl. reflexivity.
Defined.

(** C2. The code at two inputs on which it misses what it sets out to
    do.  After 33 wrong passwords for "alice" the 34th is recorded,
    count 34, and [backoff] asks [time.sleep] for [2 * 2 ^ 33] seconds,
    which it refuses: [OverflowError] leaves [requestAvatarId], nothing
    is slept and no Deferred is returned, long before the cap of 100.
    And a name that is not UTF-8, which cannot match either, is neither
    recorded nor delayed nor answered: the decoding raises. *)
Lemma backoff_overflows_before_cap :
  count (str_of_string "alice") after_33_failures = 33
  /\ fst (BasicUserPassCredentialChecker.requestAvatarId
            example_key alice alice_wrong after_33_failures)
     = Raise OverflowError
  /\ count (str_of_string "alice")
       (snd (BasicUserPassCredentialChecker.requestAvatarId
               example_key alice alice_wrong after_33_failures))
     = 34
  /\ slept (snd (BasicUserPassCredentialChecker.requestAvatarId
                   example_key alice alice_wrong after_33_failures))
     = slept after_33_failures
  /\ BasicUserPassCredentialChecker.requestAvatarId example_key alice
       (UsernamePassword not_utf8 []) initial_world
     = (Raise UnicodeDecodeError, initial_world).
Proof.
  repeat split; vm_compute; reflexivity.
Qed.

(** C3, as the code has it.  On a history of the guard a recorded
    failure leaves a principal that is already tracked at its place in
    the eviction order; a new principal goes last, and when that makes
    101 the first one -- the earliest inserted -- is evicted.  Hence
    after failures of 101 distinct principals from the start exactly 100
    are tracked, all but the first. *)
Theorem eviction_is_by_insertion (u : str) (w : world) (us : list str) :
  wf_world w = true ->
  NoDup us -> length us = 101%nat ->
  (exists n w',
     BasicUserPassCredentialChecker.get_consecutive_errors u w = (Ok n, w')
     /\ (u ∈ tracked w -> tracked w' = tracked w)
     /\ (u ∉ tracked w -> (length (tracked w) < 100)%nat ->
         tracked w' = tracked w ++ [u])
     /\ (u ∉ tracked w -> length (tracked w) = 100%nat ->
         tracked w' = drop 1 (tracked w) ++ [u]))
  /\ (exists ns w',
        record_failures us initial_world = (Ok ns, w')
        /\ tracked w' = drop 1 us
        /\ length (tracked w') = 100%nat).
Proof.
  intros Hwf Hnd Hlen. split.
  - destruct (get_consecutive_errors_spec u w Hwf) as (w' & Hg & _ & _ & _ & Htr).
    exists (Z.min (count u w + 1) 100), w'. split; [exact Hg|].
    split; [|split].
    + intros Hin. rewrite (bool_decide_eq_true_2 _ Hin) in Htr. exact Htr.
    + intros Hnin Hlt. rewrite (bool_decide_eq_false_2 _ Hnin) in Htr.
      rewrite Htr. replace (length (tracked w) + 1 - 100)%nat with 0%nat by lia.
      reflexivity.
    + intros Hnin Heq. rewrite (bool_decide_eq_false_2 _ Hnin) in Htr.
      rewrite Htr, Heq. apply drop_app_le. lia.
  - destruct (record_failures_distinct us initial_world eq_refl Hnd)
      as (ns & w' & Hrec & _ & Htr).
    exists ns, w'. split; [exact Hrec|].
    change (tracked initial_world ++ us) with us in Htr.
    rewrite Hlen in Htr. change (101 - 100)%nat with 1%nat in Htr.
    split; [exact Htr|]. rewrite Htr, length_drop, Hlen. reflexivity.
Qed.

Lemma eviction_is_by_insertion_witness :
  wf_world initial_world = true
  /\ NoDup (map principal (seq 0 101))
  /\ length (map principal (seq 0 101)) = 101%nat
  /\ exists ns w',
       record_failures (map principal (seq 0 101)) initial_world = (Ok ns, w')
       /\ tracked w' = map principal (seq 1 100).
Proof.
  assert (Hnd : NoDup (map principal (seq 0 101))).
  { apply (bool_decide_unpack (NoDup (map principal (seq 0 101)))).
    vm_compute. exact I. }
  split; [reflexivity|]. split; [exact Hnd|]. split; [reflexivity|].
  destruct (eviction_is_by_insertion (principal 0) initial_world
              (map principal (seq 0 101)) eq_refl Hnd eq_refl)
    as (_ & ns & w' & Hrec & Htr & _).
  exists ns, w'. split; [exact Hrec|]. rewrite Htr. reflexivity.
Defined.

(** C3, as it is stated, fails.  Principals 0 to 99 fail once each, then
    principal 0 fails again, then principal 100 fails: the code evicts
    principal 0, the one touched last of the hundred, and keeps
    principal 1, the one touched least recently; the policy of the
    specification would keep principal 0 at the most recent place but
    one and evict principal 1. *)
Lemma touched_principal_is_evicted :
  tracked (snd (record_failures touch_then_overflow initial_world))
  = map principal (seq 1 100)
  /\ spec_order_after 100 touch_then_overflow
     = map principal (seq 2 98) ++ [principal 0; principal 100]
  /\ (principal 0 ∉ tracked (snd (record_failures touch_then_overflow initial_world)))
  /\ (principal 1 ∈ tracked (snd (record_failures touch_then_overflow initial_world)))
  /\ (tracked (snd (record_failures touch_then_overflow initial_world))
      <> spec_order_after 100 touch_then_overflow).
Proof.
  assert (H1 : tracked (snd (record_failures touch_then_overflow initial_world))
               = map principal (seq 1 100)) by (vm_compute; reflexivity).
  assert (H2 : spec_order_after 100 touch_then_overflow
               = map principal (seq 2 98) ++ [principal 0; principal 100])
    by (vm_compute; reflexivity).
  split; [exact H1|]. split; [exact H2|]. rewrite H1, H2.
  split; [|split].
  - apply (bool_decide_unpack (principal 0 ∉ map principal (seq 1 100))).
    vm_compute. exact I.
  - apply (bool_decide_unpack (principal 1 ∈ map principal (seq 1 100))).
    vm_compute. exact I.
  - vm_compute. discriminate.
Qed.

(** C8. Credentials that are not of the user-name-and-password kind are
    refused with [UnhandledCredentials]; nothing is slept and the
    failure history is the one before. *)
Theorem unsupported_credentials_rejected (to_aes_key : str -> bytes)
  (self : BasicUserPassCredentialChecker.t) (credentials : Credentials)
  (w : world) :
  providedBy IUsernamePassword credentials = false ->
  BasicUserPassCredentialChecker.requestAvatarId to_aes_key self credentials w
  = (Raise UnhandledCredentials, w).
Proof.
  intros Hp.
  unfold BasicUserPassCredentialChecker.requestAvatarId,
    BasicUserPassCredentialChecker.check_interfaces,
    BasicUserPassCredentialChecker.credentialInterfaces, bind.
  rewrite Hp. reflexivity.
Qed.

Lemma unsupported_credentials_rejected_witness :
  providedBy IUsernamePassword
    (UsernameHashedPassword (default [] (utf8_encode (str_of_string "alice"))) [])
  = false
  /\ BasicUserPassCredentialChecker.requestAvatarId example_key alice
       (UsernameHashedPassword (default [] (utf8_encode (str_of_string "alice"))) [])
       initial_world
     = (Raise UnhandledCredentials, initial_world).
Proof.
  split; [reflexivity|].
  apply (unsupported_credentials_rejected example_key alice _ initial_world).
  reflexivity.
Defined.

(** C9. When the name is the configured one and the password derives
    the stored key, the answer is the success carrying the name, and the
    world is the one before: nothing slept, the failure history
    untouched, the count of that principal what it was. *)
Theorem success_leaves_history (to_aes_key : str -> bytes)
  (self : BasicUserPassCredentialChecker.t) (ub pb : bytes) (p : str)
  (w : world) :
  utf8_decode ub = Some (BasicUserPassCredentialChecker.username self) ->
  utf8_decode pb = Some p ->
  to_aes_key p = BasicUserPassCredentialChecker.password self ->
  BasicUserPassCredentialChecker.requestAvatarId
    to_aes_key self (UsernamePassword ub pb) w
  = (Ok (succeed (Named ub)), w)
  /\ count (BasicUserPassCredentialChecker.username self)
           (snd (BasicUserPassCredentialChecker.requestAvatarId
                   to_aes_key self (UsernamePassword ub pb) w))
     = count (BasicUserPassCredentialChecker.username self) w.
Proof.
  intros Hu Hp Hkey.
  assert (H : BasicUserPassCredentialChecker.requestAvatarId
                to_aes_key self (UsernamePassword ub pb) w
              = (Ok (succeed (Named ub)), w)).
  { unfold BasicUserPassCredentialChecker.requestAvatarId,
      BasicUserPassCredentialChecker.check_interfaces,
      BasicUserPassCredentialChecker.credentialInterfaces, providedBy,
      BasicUserPassCredentialChecker.cred_username,
      BasicUserPassCredentialChecker.cred_password, decode_utf8, bind, lift, ret.
    rewrite Hu, Hp, Hkey.
    rewrite !bool_decide_eq_true_2 by reflexivity. reflexivity. }
  split; [exact H|]. rewrite H. reflexivity.
Qed.

(** "alice" with the right password after three wrong ones: admitted,
    and her count is still 3. *)
Lemma success_leaves_history_witness :
  let w3 := snd (attempts example_key alice alice_wrong 3 initial_world) in
  BasicUserPassCredentialChecker.requestAvatarId example_key alice alice_right w3
  = (Ok (succeed (Named (default [] (utf8_encode (str_of_string "alice"))))), w3)
  /\ count (str_of_string "alice") w3 = 3.
Proof.
  intros w3. split; [|vm_compute; reflexivity].
  apply (success_leaves_history example_key alice
           (default [] (utf8_encode (str_of_string "alice")))
           (default [] (utf8_encode (str_of_string "secret")))
           (str_of_string "secret") w3); reflexivity.
Defined.

(** ** The decorators of [neo/api/utils.py] *)

(** [_response_data], by cases. *)
Lemma _response_data_cases {J} (json_dumps : J -> result str)
  (gzip_compress : bytes -> Z -> bytes) (res : handler_result J) (r : Request) :
  _response_data json_dumps gzip_compress res r
  = match serialized json_dumps res with
    | Ok d => response_of gzip_compress d r
    | Raise e => (Raise e, r)
    end.
Proof.
  assert (Hhead : forall k : str -> M Request body,
            (let! response_data :=
               match res with
               | Structured j => lift (json_dumps j)
               | Serialized s => ret s
               end in k response_data) r
            = match serialized json_dumps res with
              | Ok d => k d r
              | Raise e => (Raise e, r)
              end).
  { intros k. destruct res as [j|s]; cbn [serialized]; [|reflexivity].
    unfold bind, lift. destruct (json_dumps j); reflexivity. }
  unfold _response_data. rewrite Hhead.
  destruct (serialized json_dumps res) as [d|e]; [|reflexivity].
  unfold response_of, declares_gzip.
  unfold bind at 1. unfold setHeader at 1, modify. fold (with_content_type r).
  rewrite Z.gtb_ltb.
  destruct (COMPRESS_THRESHOLD <? Z.of_nat (length d)); [|reflexivity].
  cbn [andb]. unfold bind at 1, getRawHeaders.
  cbn [requestHeaders with_content_type].
  destruct (requestHeaders r !! "Accept-Encoding") as [[|enc encs]|];
    try reflexivity.
  cbv beta iota. unfold use_gzip.
  destruct (existsb (contains "gzip") (enc :: encs)); [|reflexivity].
  unfold bind, lift, encode_utf8. destruct (utf8_encode d); reflexivity.
Qed.

(** [json_response] on a handler whose Deferred has a result. *)
Lemma json_response_result {J} (json_dumps : J -> result str)
  (gzip_compress : bytes -> Z -> bytes)
  (func : M Request (Deferred (handler_result J))) (res : handler_result J)
  (r0 r : Request) :
  func r0 = (Ok (succeed res), r) ->
  json_response json_dumps gzip_compress func r0
  = match _response_data json_dumps gzip_compress res r with
    | (Ok b, r1) => (Ok (succeed b), r1)
    | (Raise e, r1) => (Ok (fail e), r1)
    end.
Proof.
  intros Hf. unfold json_response, bind. rewrite Hf. reflexivity.
Qed.

Lemma with_cors_has_cors (r : Request) : has_cors (with_cors r).
Proof.
  split; cbn [with_cors responseHeaders].
  - rewrite lookup_insert_ne by discriminate. apply lookup_insert_eq.
  - apply lookup_insert_eq.
Qed.

(** C6, as the code has it.  Let the handler's Deferred fire with a
    result and let [d] be its serialized payload.  If [d] has more than
    1549 characters, some value of the request's Accept-Encoding header
    contains the letters "gzip", and [d] has a UTF-8 encoding, then the
    body of [json_response] is that encoding compressed at level 1, the
    fastest, and the response gets Content-Encoding: gzip and the
    Content-Length of the compressed bytes, besides its Content-Type.
    If [d] has at most 1549 characters, or no Accept-Encoding value
    contains "gzip", the body is [d] and only Content-Type is set. *)
Theorem gzip_gating {J} (json_dumps : J -> result str)
  (gzip_compress : bytes -> Z -> bytes)
  (func : M Request (Deferred (handler_result J))) (res : handler_result J)
  (d : str) (r0 r : Request) :
  func r0 = (Ok (succeed res), r) ->
  serialized json_dumps res = Ok d ->
  COMPRESS_THRESHOLD = 1549 /\ COMPRESS_FASTEST = 1
  /\ (forall raw, utf8_encode d = Some raw ->
      COMPRESS_THRESHOLD < Z.of_nat (length d) -> declares_gzip r = true ->
      json_response json_dumps gzip_compress func r0
      = (Ok (succeed (Compressed (gzip_compress raw 1))),
         tagged_gzip (Z.of_nat (length (gzip_compress raw 1)))
                     (with_content_type r)))
  /\ (Z.of_nat (length d) <= COMPRESS_THRESHOLD \/ declares_gzip r = false ->
      json_response json_dumps gzip_compress func r0
      = (Ok (succeed (Text d)), with_content_type r)).
Proof.
  intros Hf Hser.
  split; [reflexivity|]. split; [reflexivity|].
  rewrite (json_response_result json_dumps gzip_compress func res r0 r Hf).
  rewrite _response_data_cases, Hser. unfold response_of. split.
  - intros raw Henc Hlen Hgz.
    rewrite (proj2 (Z.ltb_lt _ _) Hlen), Hgz, Henc. reflexivity.
  - intros [Hle|Hgz].
    + rewrite (proj2 (Z.ltb_ge _ _) Hle). reflexivity.
    + rewrite Hgz, andb_false_r. reflexivity.
Qed.

(** A text of threshold + 1 letters for a browser that accepts gzip is
    compressed and tagged; for a client without the header it is not;
    a text of exactly the threshold is not either. *)
Lemma gzip_gating_witness :
  fst (json_response example_dumps example_gzip
         (ret (succeed (Serialized (payload 1550)))) browser_request)
  = Ok (succeed (Compressed (example_gzip (map Z_to_byte (payload 1550)) 1)))
  /\ json_response example_dumps example_gzip
       (ret (succeed (Serialized (payload 1550)))) bare_request
     = (Ok (succeed (Text (payload 1550))), with_content_type bare_request)
  /\ json_response example_dumps example_gzip
       (ret (succeed (Serialized (payload 1549)))) browser_request
     = (Ok (succeed (Text (payload 1549))), with_content_type browser_request).
Proof.
  split; [|split].
  - destruct (gzip_gating example_dumps example_gzip
                (ret (succeed (Serialized (payload 1550))))
                (Serialized (payload 1550)) (payload 1550)
                browser_request browser_request eq_refl eq_refl)
      as (_ & _ & H & _).
    rewrite (H (map Z_to_byte (payload 1550)));
      [reflexivity | vm_compute; reflexivity..].
  - destruct (gzip_gating example_dumps example_gzip
                (ret (succeed (Serialized (payload 1550))))
                (Serialized (payload 1550)) (payload 1550)
                bare_request bare_request eq_refl eq_refl)
      as (_ & _ & _ & H).
    apply H. right. vm_compute; reflexivity.
  - destruct (gzip_gating example_dumps example_gzip
                (ret (succeed (Serialized (payload 1549))))
                (Serialized (payload 1549)) (payload 1549)
                browser_request browser_request eq_refl eq_refl)
      as (_ & _ & _ & H).
    apply H. left. vm_compute. discriminate.
Defined.

(** C6, as it is stated, fails.  The length that is compared is the
    number of characters, not of bytes: 600 euro signs are 1800 bytes,
    above the threshold, and go out uncompressed to a browser that
    accepts gzip.  Acceptance is the occurrence of the letters "gzip":
    a request that refuses gzip with the weight 0 is sent gzip.  And a
    text that has no UTF-8 encoding is not compressed for a browser that
    accepts gzip: the Deferred fails. *)
Lemma gzip_gate_is_textual :
  (Z.of_nat (length (default [] (utf8_encode (euros 600)))) = 1800
   /\ requestHeaders browser_request !! "Accept-Encoding"
      = Some ["gzip, deflate"%string]
   /\ json_response example_dumps example_gzip
        (ret (succeed (Serialized (euros 600)))) browser_request
      = (Ok (succeed (Text (euros 600))), with_content_type browser_request))
  /\ (requestHeaders refusing_gzip_request !! "Accept-Encoding"
      = Some ["deflate"%string; "gzip;q=0"%string]
      /\ fst (json_response example_dumps example_gzip
                (ret (succeed (Serialized (payload 1550)))) refusing_gzip_request)
         = Ok (succeed
                 (Compressed (example_gzip (map Z_to_byte (payload 1550)) 1))))
  /\ json_response example_dumps example_gzip
       (ret (succeed (Serialized (surrogates 1550)))) browser_request
     = (Ok (fail UnicodeEncodeError), with_content_type browser_request).
Proof.
  repeat split; vm_compute; reflexivity.
Qed.

(** C7, as the code has it.  In the pipeline the CORS headers are set
    by the last callback of the Deferred.  When the handler's Deferred
    fires with a result and [_response_data] turns it into a body --
    whatever the result is, an error body included -- the response
    carries both headers.  When [_response_data] raises, in the
    serialization or in the compression, the Deferred has failed before
    the CORS callback: no CORS header is added, the two are what the
    handler left.  When the handler's Deferred fails, the request is
    left as the handler left it. *)
Theorem cors_on_results_only {J} (json_dumps : J -> result str)
  (gzip_compress : bytes -> Z -> bytes)
  (func : M Request (Deferred (handler_result J))) (r0 r : Request) :
  (forall res b r1,
     func r0 = (Ok (succeed res), r) ->
     _response_data json_dumps gzip_compress res r = (Ok b, r1) ->
     response_pipeline json_dumps gzip_compress func r0
     = (Ok (succeed b), with_cors r1)
     /\ has_cors (with_cors r1))
  /\ (forall res e r1,
        func r0 = (Ok (succeed res), r) ->
        _response_data json_dumps gzip_compress res r = (Raise e, r1) ->
        response_pipeline json_dumps gzip_compress func r0 = (Ok (fail e), r1)
        /\ responseHeaders r1 !! "Access-Control-Allow-Origin"
           = responseHeaders r !! "Access-Control-Allow-Origin"
        /\ responseHeaders r1 !! "Access-Control-Allow-Headers"
           = responseHeaders r !! "Access-Control-Allow-Headers")
  /\ (forall e,
        func r0 = (Ok (fail e), r) ->
        response_pipeline json_dumps gzip_compress func r0 = (Ok (fail e), r)).
Proof.
  split; [|split].
  - intros res b r1 Hf Hb. split; [|apply with_cors_has_cors].
    unfold response_pipeline, cors_header, bind.
    rewrite (json_response_result json_dumps gzip_compress func res r0 r Hf), Hb.
    reflexivity.
  - intros res e r1 Hf Hb. split.
    + unfold response_pipeline, cors_header, bind.
      rewrite (json_response_result json_dumps gzip_compress func res r0 r Hf), Hb.
      reflexivity.
    + rewrite _response_data_cases in Hb.
      destruct (serialized json_dumps res) as [d|e'].
      * unfold response_of in Hb.
        destruct ((COMPRESS_THRESHOLD <? Z.of_nat (length d)) && declares_gzip r);
          [destruct (utf8_encode d)|]; try discriminate.
        injection Hb as _ <-. cbn [with_content_type responseHeaders].
        rewrite !lookup_insert_ne by discriminate. split; reflexivity.
      * injection Hb as _ <-. split; reflexivity.
  - intros e Hf. unfold response_pipeline, cors_header, json_response, bind.
    rewrite Hf. reflexivity.
Qed.

Lemma cors_on_results_only_witness :
  has_cors (snd (response_pipeline example_dumps example_gzip
                   (ret (succeed (Serialized (payload 3)))) bare_request)).
Proof.
  destruct (proj1 (cors_on_results_only example_dumps example_gzip
                     (ret (succeed (Serialized (payload 3))))
                     bare_request bare_request)
                  (Serialized (payload 3)) (Text (payload 3))
                  (with_content_type bare_request) eq_refl eq_refl)
    as (Hr & Hc).
  rewrite Hr. exact Hc.
Defined.

(** C7, as it is stated, fails: the response to a request whose handler
    fails -- an error response -- carries neither of the two headers. *)
Lemma failed_handler_lacks_cors :
  fst (cors_header (json_response example_dumps example_gzip failing_handler)
         bare_request)
  = Ok (fail (HandlerError "database is closed"))
  /\ lacks_cors (snd (cors_header
                       (json_response example_dumps example_gzip failing_handler)
                       bare_request))
  /\ ~ has_cors (snd (cors_header
                        (json_response example_dumps example_gzip failing_handler)
                        bare_request)).
Proof.
  split; [reflexivity|]. split.
  - split; reflexivity.
  - intros [H _]. vm_compute in H. discriminate.
Qed.

(** ** The tail of [main] in [neo/bin/api_server.py] *)

Lemma main_shutdown_in_turn (behaviour : ApiServer.call -> result unit)
  (wallet : option Wallet) (trace : list ApiServer.call) :
  ApiServer.main_shutdown behaviour wallet trace
  = in_turn behaviour (ApiServer.shutdown_calls wallet) trace.
Proof.
  unfold ApiServer.main_shutdown, ApiServer.shutdown_calls.
  cbn [app in_turn]. unfold bind, ApiServer.invoke.
  repeat (destruct (behaviour _) as [[]|?]; [|reflexivity]).
  destruct wallet; cbn [in_turn]; unfold bind, ApiServer.invoke, ret;
    [destruct (behaviour _) as [[]|?]|]; reflexivity.
Qed.

Lemma in_turn_all_return (behaviour : ApiServer.call -> result unit)
  (cs : list ApiServer.call) (trace : list ApiServer.call) :
  (forall c, c ∈ cs -> behaviour c = Ok tt) ->
  in_turn behaviour cs trace = (Ok tt, trace ++ cs).
Proof.
  revert trace. induction cs as [|c cs IH]; intros trace Hok.
  - rewrite app_nil_r. reflexivity.
  - cbn [in_turn]. unfold bind, ApiServer.invoke.
    rewrite (Hok c) by apply list_elem_of_here.
    rewrite IH by (intros c' Hc'; apply Hok, list_elem_of_further, Hc').
    rewrite <- app_assoc. reflexivity.
Qed.

Lemma in_turn_raise (behaviour : ApiServer.call -> result unit)
  (pre post : list ApiServer.call) (s : ApiServer.call) (e : exception)
  (trace : list ApiServer.call) :
  (forall c, c ∈ pre -> behaviour c = Ok tt) ->
  behaviour s = Raise e ->
  in_turn behaviour (pre ++ s :: post) trace = (Raise e, trace ++ pre ++ [s]).
Proof.
  revert trace. induction pre as [|c pre IH]; intros trace Hok Hs.
  - cbn [app in_turn]. unfold bind, ApiServer.invoke. rewrite Hs. reflexivity.
  - cbn [app in_turn]. unfold bind, ApiServer.invoke.
    rewrite (Hok c) by apply list_elem_of_here.
    rewrite IH by (try assumption; intros c' Hc'; apply Hok, list_elem_of_further, Hc').
    rewrite <- app_assoc. reflexivity.
Qed.

(** C5, as the code has it.  After the reactor has returned, the tail of
    [main] logs, closes the notification database, disposes the
    blockchain, shuts the node leader down and, when a wallet is open,
    closes it, in this order.  When every step returns, all of them are
    made and the tail completes.  When a step raises, the steps before
    it have been made, the exception leaves [main], and no later step is
    made. *)
Theorem shutdown_in_order_until_error (behaviour : ApiServer.call -> result unit)
  (wallet : option Wallet) :
  ((forall c, c ∈ ApiServer.shutdown_calls wallet -> behaviour c = Ok tt) ->
   ApiServer.main_shutdown behaviour wallet []
   = (Ok tt, ApiServer.shutdown_calls wallet))
  /\ (forall pre s post e,
        ApiServer.shutdown_calls wallet = pre ++ s :: post ->
        (forall c, c ∈ pre -> behaviour c = Ok tt) ->
        behaviour s = Raise e ->
        ApiServer.main_shutdown behaviour wallet [] = (Raise e, pre ++ [s]))
  /\ ApiServer.shutdown_calls wallet
     = [ApiServer.reactor_run; ApiServer.logger_info "Closing databases...";
        ApiServer.NotificationDB_close; ApiServer.Blockchain_Dispose;
        ApiServer.NodeLeader_Shutdown]
       ++ match wallet with
          | Some _ => [ApiServer.wallet_Close]
          | None => []
          end.
Proof.
  split; [|split].
  - intros Hok. rewrite main_shutdown_in_turn.
    apply (in_turn_all_return behaviour _ [] Hok).
  - intros pre s post e Hcs Hok Hs. rewrite main_shutdown_in_turn, Hcs.
    apply (in_turn_raise behaviour pre post s e [] Hok Hs).
  - destruct wallet; reflexivity.
Qed.

Lemma shutdown_in_order_until_error_witness :
  ApiServer.main_shutdown all_return (Some (UserWallet "w.db3")) []
  = (Ok tt,
     [ApiServer.reactor_run; ApiServer.logger_info "Closing databases...";
      ApiServer.NotificationDB_close; ApiServer.Blockchain_Dispose;
      ApiServer.NodeLeader_Shutdown; ApiServer.wallet_Close]).
Proof.
  apply (proj1 (shutdown_in_order_until_error all_return
                  (Some (UserWallet "w.db3")))).
  intros c _. reflexivity.
Defined.

(** C5, as it is stated, fails: when closing the notification database
    raises, the exception is not caught -- the tail ends with it -- and
    neither the blockchain is disposed nor the node leader shut down
    nor the wallet closed. *)
Lemma error_skips_later_steps :
  ApiServer.main_shutdown close_raises (Some (UserWallet "w.db3")) []
  = (Raise (CollaboratorError "NotificationDB"),
     [ApiServer.reactor_run; ApiServer.logger_info "Closing databases...";
      ApiServer.NotificationDB_close])
  /\ (ApiServer.Blockchain_Dispose
        ∉ snd (ApiServer.main_shutdown close_raises (Some (UserWallet "w.db3")) []))
  /\ (ApiServer.NodeLeader_Shutdown
        ∉ snd (ApiServer.main_shutdown close_raises (Some (UserWallet "w.db3")) []))
  /\ (ApiServer.wallet_Close
        ∉ snd (ApiServer.main_shutdown close_raises (Some (UserWallet "w.db3")) [])).
Proof.
  assert (H : ApiServer.main_shutdown close_raises (Some (UserWallet "w.db3")) []
              = (Raise (CollaboratorError "NotificationDB"),
                 [ApiServer.reactor_run; ApiServer.logger_info "Closing databases...";
                  ApiServer.NotificationDB_close])) by reflexivity.
  split; [exact H|]. rewrite H. cbn [snd].
  repeat split; intros Hin;
    repeat (apply elem_of_cons in Hin as [Hin|Hin]; [discriminate|]);
    apply elem_of_nil in Hin; exact Hin.
Qed.

(** ** The guarded resource *)

Lemma registerChecker_anonymous (d : OrderedDict.t Interface ICredentialsChecker) :
  Portal.find_checker Anonymous (Portal.registerChecker AllowAnonymousAccess d)
  = Some AllowAnonymousAccess.
Proof.
  unfold Portal.registerChecker. cbn [AllowAnonymousAccess
    checker_credentialInterfaces fold_left].
  induction d as [|[i c] d IH]; [reflexivity|].
  cbn [OrderedDict.__setitem__].
  destruct (decide (i = IAnonymous)) as [->|Hne].
  - reflexivity.
  - cbn [Portal.find_checker].
    destruct i; try congruence; cbn [providedBy]; exact IH.
Qed.

(** C10. Whatever credential checker is passed, and whatever port and
    wallet, the guarded resource is built with [AllowAnonymousAccess]
    registered after it; a request without an Authorization header is
    logged in as anonymous and served by [ExtendedJsonRpcApi], the
    server without the authenticated methods, not by the 401 resource;
    nothing is slept and no failure is recorded. *)
Theorem anonymous_always_admitted (credentialChecker : ICredentialsChecker)
  (port_rpc : Z) (wallet : option Wallet) (w : world) :
  Portal.find_checker Anonymous
    (Portal.checkers (HTTPAuthSessionWrapper.portal
       (guard_resource_with_http_auth credentialChecker port_rpc wallet)))
  = Some AllowAnonymousAccess
  /\ HTTPAuthSessionWrapper._authorizedResource
       (guard_resource_with_http_auth credentialChecker port_rpc wallet)
       NoAuthorization w
     = (Ok (ExtendedJsonRpcApi port_rpc wallet), w)
  /\ ExtendedJsonRpcApi port_rpc wallet <> UnauthorizedResource.
Proof.
  assert (H : Portal.find_checker Anonymous
                (Portal.checkers (HTTPAuthSessionWrapper.portal
                   (guard_resource_with_http_auth credentialChecker port_rpc wallet)))
              = Some AllowAnonymousAccess).
  { unfold guard_resource_with_http_auth, Portal.__init__.
    cbn [HTTPAuthSessionWrapper.portal Portal.checkers fold_left].
    apply registerChecker_anonymous. }
  split; [exact H|]. split; [|discriminate].
  unfold HTTPAuthSessionWrapper._authorizedResource, HTTPAuthSessionWrapper._login,
    Portal.login, bind.
  rewrite H. reflexivity.
Qed.

(** * Part III: further properties of the code *)

(** ** [LimitedSizeDict] as a bounded map *)

Section BoundedMap.
Context {K V : Type} `{EqDecision K}.

Lemma pop_while_over_negative (limit : Z) (d : OrderedDict.t K V) :
  limit < 0 -> LimitedSizeDict.pop_while_over limit d = Raise KeyError.
Proof.
  intros Hneg. induction d as [|kv d IH].
  - cbn [LimitedSizeDict.pop_while_over length].
    destruct (Z.gtb_spec (Z.of_nat 0) limit); [reflexivity|exfalso; lia].
  - cbn [LimitedSizeDict.pop_while_over].
    destruct (Z.gtb_spec (Z.of_nat (length (kv :: d))) limit); [exact IH|exfalso; lia].
Qed.

Lemma od_get_setitem_ne (d : OrderedDict.t K V) (k k' : K) (v : V) :
  k' <> k ->
  OrderedDict.get k' (OrderedDict.__setitem__ k v d) = OrderedDict.get k' d.
Proof.
  intros Hne. induction d as [|[k0 v0] d IH]; cbn [OrderedDict.__setitem__ OrderedDict.get].
  - rewrite decide_False by congruence. reflexivity.
  - destruct (decide (k0 = k)) as [->|Hk]; cbn [OrderedDict.get].
    + rewrite !decide_False by congruence. reflexivity.
    + destruct (decide (k0 = k')); [reflexivity|exact IH].
Qed.

Lemma od_setitem_length_le (d : OrderedDict.t K V) (k : K) (v : V) :
  (length d <= length (OrderedDict.__setitem__ k v d) <= S (length d))%nat.
Proof.
  induction d as [|[k0 v0] d IH]; cbn [OrderedDict.__setitem__ length]; [lia|].
  destruct (decide (k0 = k)); cbn [length]; lia.
Qed.

Lemma od_setitem_nodup (d : OrderedDict.t K V) (k : K) (v : V) :
  NoDup (OrderedDict.keys d) -> NoDup (OrderedDict.keys (OrderedDict.__setitem__ k v d)).
Proof.
  intros Hnd. destruct (OrderedDict.get k d) as [v0|] eqn:Hg.
  - rewrite (od_setitem_keys d k v v0 Hg). exact Hnd.
  - rewrite (od_setitem_new d k v Hg), od_keys_app. cbn.
    apply NoDup_app. split; [exact Hnd|]. split; [|apply NoDup_singleton].
    intros x Hx Hx'. apply list_elem_of_singleton in Hx'. subst x.
    apply od_get_None in Hg. contradiction.
Qed.

Lemma lsd_setitem_Z (limit : Z) (d : OrderedDict.t K V) (k : K) (v : V) :
  0 <= limit ->
  LimitedSizeDict.__setitem__ k v (LimitedSizeDict.mk (Some limit) d)
  = (Ok tt,
     LimitedSizeDict.mk (Some limit)
       (drop (length (OrderedDict.__setitem__ k v d) - Z.to_nat limit)
             (OrderedDict.__setitem__ k v d))).
Proof.
  intros Hl. rewrite <- (Z2Nat.id limit Hl) at 1 2. apply lsd_setitem.
Qed.

(** X1. A negative [size_limit] cannot be met: the constructor pops from
    the empty dictionary and raises [KeyError], and an assignment to a
    dictionary that has such a limit pops every entry and then raises
    [KeyError] too. *)
Theorem negative_limit_raises (limit : Z) (d : OrderedDict.t K V) (k : K) (v : V) :
  limit < 0 ->
  LimitedSizeDict.__init__ (K := K) (V := V) (Some limit) = Raise KeyError
  /\ LimitedSizeDict.__setitem__ k v (LimitedSizeDict.mk (Some limit) d)
     = (Raise KeyError, LimitedSizeDict.mk (Some limit) []).
Proof.
  intros Hneg. split.
  - unfold LimitedSizeDict.__init__, LimitedSizeDict._check_size_limit.
    cbn [LimitedSizeDict.size_limit LimitedSizeDict.items].
    rewrite pop_while_over_negative by exact Hneg. reflexivity.
  - unfold LimitedSizeDict.__setitem__, bind, modify,
      LimitedSizeDict._check_size_limit.
    cbn [LimitedSizeDict.size_limit LimitedSizeDict.items].
    rewrite pop_while_over_negative by exact Hneg. reflexivity.
Qed.

(** X2. With a limit of at least 0 an assignment always succeeds and
    leaves at most [limit] entries, whatever the dictionary held before:
    what is left is the end of the dictionary as [OrderedDict] would have
    it, so entries are dropped from the front only and the keys stay
    distinct. *)
Theorem setitem_bounds_size (limit : Z) (d : OrderedDict.t K V) (k : K) (v : V) :
  0 <= limit ->
  exists j,
    LimitedSizeDict.__setitem__ k v (LimitedSizeDict.mk (Some limit) d)
    = (Ok tt, LimitedSizeDict.mk (Some limit)
                (drop j (OrderedDict.__setitem__ k v d)))
    /\ LimitedSizeDict.len
         (LimitedSizeDict.mk (Some limit) (drop j (OrderedDict.__setitem__ k v d)))
       <= limit
    /\ (Z.of_nat (length d) <= limit -> (j <= 1)%nat)
    /\ (NoDup (OrderedDict.keys d) ->
        NoDup (OrderedDict.keys (drop j (OrderedDict.__setitem__ k v d)))).
Proof.
  intros Hl.
  exists (length (OrderedDict.__setitem__ k v d) - Z.to_nat limit)%nat.
  pose proof (od_setitem_length_le d k v) as Hlen.
  split; [apply lsd_setitem_Z, Hl|]. split; [|split].
  - unfold LimitedSizeDict.len. cbn [LimitedSizeDict.items].
    rewrite length_drop. lia.
  - intros Hd. lia.
  - intros Hnd. rewrite od_keys_drop.
    eapply sublist_NoDup; [apply od_setitem_nodup, Hnd|apply sublist_drop].
Qed.

(** X3. Insert and look-up.  On a dictionary within its limit, an
    assignment that does not overflow it -- the key is there already, or
    there is room for one more -- behaves as on a plain map: the key
    reads the new value and every other key reads what it read before. *)
Theorem setitem_then_get (limit : Z) (d : OrderedDict.t K V) (k k' : K) (v : V) :
  Z.of_nat (length d) <= limit ->
  k ∈ OrderedDict.keys d \/ Z.of_nat (length d) < limit ->
  exists self',
    LimitedSizeDict.__setitem__ k v (LimitedSizeDict.mk (Some limit) d)
    = (Ok tt, self')
    /\ LimitedSizeDict.get k' self'
       = if decide (k' = k) then Some v else OrderedDict.get k' d.
Proof.
  intros Hd Hroom. eexists. split; [apply lsd_setitem_Z; lia|].
  unfold LimitedSizeDict.get. cbn [LimitedSizeDict.items].
  assert (Hfit : (length (OrderedDict.__setitem__ k v d) - Z.to_nat limit = 0)%nat).
  { destruct (OrderedDict.get k d) as [v0|] eqn:Hg.
    - rewrite (od_setitem_length d k v v0 Hg). lia.
    - apply od_get_None in Hg. destruct Hroom as [Hin|Hlt]; [contradiction|].
      pose proof (od_setitem_length_le d k v). lia. }
  rewrite Hfit, drop_0.
  destruct (decide (k' = k)) as [->|Hne].
  - apply od_get_setitem.
  - apply od_get_setitem_ne, Hne.
Qed.

(** X4. Eviction.  On a full dictionary with distinct keys, assigning
    to a new key drops the first entry -- the one inserted earliest --
    and appends the new one: the evicted key reads as absent afterwards,
    the new key reads its value. *)
Theorem setitem_evicts_first (k0 : K) (v0 : V) (rest : OrderedDict.t K V)
  (k : K) (v : V) :
  NoDup (OrderedDict.keys ((k0, v0) :: rest)) ->
  k ∉ OrderedDict.keys ((k0, v0) :: rest) ->
  exists self',
    LimitedSizeDict.__setitem__ k v
      (LimitedSizeDict.mk (Some (Z.of_nat (length ((k0, v0) :: rest))))
                          ((k0, v0) :: rest))
    = (Ok tt, self')
    /\ LimitedSizeDict.items self' = rest ++ [(k, v)]
    /\ LimitedSizeDict.get k0 self' = None
    /\ LimitedSizeDict.get k self' = Some v.
Proof.
  intros Hnd Hnew. eexists. split; [apply lsd_setitem|].
  assert (Hset : OrderedDict.__setitem__ k v ((k0, v0) :: rest)
                 = ((k0, v0) :: rest) ++ [(k, v)]).
  { apply od_setitem_new, od_get_None, Hnew. }
  cbn [LimitedSizeDict.items]. unfold LimitedSizeDict.get.
  cbn [LimitedSizeDict.items]. rewrite Hset, length_app.
  replace (length ((k0, v0) :: rest) + length [(k, v)] - length ((k0, v0) :: rest))%nat
    with 1%nat by (cbn [length]; lia).
  cbn [app drop]. rewrite drop_0.
  cbn [OrderedDict.keys map fst] in Hnd, Hnew.
  apply NoDup_cons in Hnd as [Hk0 Hnd'].
  apply not_elem_of_cons in Hnew as [Hne Hnew'].
  split; [reflexivity|]. split.
  - apply od_get_None. rewrite od_keys_app. cbn.
    intros Hin. apply elem_of_app in Hin as [Hin|Hin]; [contradiction|].
    apply list_elem_of_singleton in Hin. congruence.
  - apply od_get_app_new. exact Hnew'.
Qed.

End BoundedMap.

Lemma negative_limit_raises_witness :
  LimitedSizeDict.__init__ (K := str) (V := Z) (Some (-1)) = Raise KeyError.
Proof.
  apply (proj1 (negative_limit_raises (-1) [] [] 0 eq_refl)).
Defined.

Lemma setitem_bounds_size_witness :
  exists j,
    LimitedSizeDict.__setitem__ 40 4 three_entries
    = (Ok tt, LimitedSizeDict.mk (Some 3)
                (drop j (OrderedDict.__setitem__ 40 4
                           (LimitedSizeDict.items three_entries))))
    /\ (j <= 1)%nat.
Proof.
  destruct (setitem_bounds_size 3 (LimitedSizeDict.items three_entries) 40 4)
    as (j & Hset & _ & Hj & _); [lia|].
  exists j. split; [exact Hset|]. apply Hj. vm_compute. discriminate.
Defined.

Lemma setitem_then_get_witness :
  exists self',
    LimitedSizeDict.__setitem__ 20 7 three_entries = (Ok tt, self')
    /\ LimitedSizeDict.get 20 self' = Some 7
    /\ LimitedSizeDict.get 30 self' = Some 3.
Proof.
  destruct (setitem_then_get 3 (LimitedSizeDict.items three_entries) 20 20 7)
    as (s1 & H1 & G1); [vm_compute; discriminate | left; vm_compute; set_solver |].
  destruct (setitem_then_get 3 (LimitedSizeDict.items three_entries) 20 30 7)
    as (s2 & H2 & G2); [vm_compute; discriminate | left; vm_compute; set_solver |].
  exists s1. split; [exact H1|]. split; [exact G1|].
  assert (s1 = s2) as -> by congruence. exact G2.
Defined.

Lemma setitem_evicts_first_witness :
  exists self',
    LimitedSizeDict.__setitem__ 40 4 three_entries = (Ok tt, self')
    /\ LimitedSizeDict.items self' = [(20, 2); (30, 3); (40, 4)]
    /\ LimitedSizeDict.get 10 self' = None.
Proof.
  destruct (setitem_evicts_first 10 1 [(20, 2); (30, 3)] 40 4)
    as (s & Hs & Hi & Hg & _).
  - apply (bool_decide_unpack (NoDup [10; 20; 30])). vm_compute. exact I.
  - apply (bool_decide_unpack (40 ∉ [10; 20; 30])). vm_compute. exact I.
  - exists s. split; [exact Hs|]. split; [exact Hi|exact Hg].
Defined.

(** ** The failure history under any run of failures *)

Section HistoryRuns.
Import BasicUserPassCredentialChecker.

Lemma get_consecutive_errors_items (u : str) (w : world) :
  wf_world w = true ->
  exists w',
    get_consecutive_errors u w = (Ok (Z.min (count u w + 1) 100), w')
    /\ slept w' = slept w
    /\ LimitedSizeDict.size_limit (consecutive_errors_history w') = Some 100
    /\ LimitedSizeDict.items (consecutive_errors_history w')
       = if decide (count u w = 100)
         then LimitedSizeDict.items (consecutive_errors_history w)
         else
           let d' := OrderedDict.__setitem__ u (count u w + 1)
                       (LimitedSizeDict.items (consecutive_errors_history w)) in
           drop (length d' - 100) d'.
Proof.
  destruct w as [[sz d] sl]. unfold wf_world, count.
  cbn [consecutive_errors_history slept LimitedSizeDict.items].
  intros Hwf. apply wf_history_spec in Hwf as (Hsz & Hnd & Hlen & Hval).
  cbn [LimitedSizeDict.size_limit LimitedSizeDict.items] in *. subst sz.
  rewrite get_consecutive_errors_step.
  unfold LimitedSizeDict.get. cbn [LimitedSizeDict.items].
  destruct (OrderedDict.get u d) as [n|] eqn:Hget; cbn [from_option id].
  - pose proof (Hval _ _ (od_get_Some_elem _ _ _ Hget)) as Hn.
    unfold truthy. destruct (Z.eqb_spec n 0) as [?|_]; [exfalso; lia|].
    cbn [negb]. cbv iota.
    destruct (Z.ltb_spec n 100) as [Hlt|Hge].
    + rewrite decide_False by lia. rewrite Z.min_l by lia.
      eexists. split; [reflexivity|]. repeat split.
    + assert (n = 100) as -> by lia. rewrite decide_True by reflexivity.
      eexists. split; [reflexivity|]. repeat split.
  - rewrite decide_False by lia.
    eexists. split; [reflexivity|]. repeat split.
Qed.

Lemma record_failures_wf (us : list str) :
  forall w, wf_world w = true ->
  exists ns w',
    record_failures us w = (Ok ns, w')
    /\ wf_world w' = true
    /\ slept w' = slept w
    /\ length ns = length us
    /\ Forall (fun n => 1 <= n <= 100) ns.
Proof.
  induction us as [|u us IH]; intros w Hwf.
  - exists [], w. repeat split; [assumption|constructor].
  - destruct (get_consecutive_errors_spec u w Hwf) as (w1 & Hg & Hwf1 & Hsl1 & _).
    destruct (IH w1 Hwf1) as (ns & w' & Hrec & Hwf' & Hsl & Hlen & Hall).
    pose proof (count_range u w Hwf) as Hc.
    exists (Z.min (count u w + 1) 100 :: ns), w'.
    cbn [record_failures]. unfold bind. rewrite Hg, Hrec.
    split; [reflexivity|]. split; [assumption|]. split; [congruence|].
    split; [cbn [length]; congruence|]. constructor; [lia|assumption].
Qed.

(** X5. Whatever principals fail, in whatever order and number, a
    history that the guard can have produced never raises, keeps its
    principals distinct and at most 100, and keeps every count between 1
    and 100;
    each failure reports a count in that range, and recording a failure
    by itself holds no thread. *)
Theorem history_stays_bounded (us : list str) (w : world) :
  wf_world w = true ->
  exists ns w',
    record_failures us w = (Ok ns, w')
    /\ wf_world w' = true
    /\ NoDup (tracked w')
    /\ (length (tracked w') <= 100)%nat
    /\ (forall v, 0 <= count v w' <= 100)
    /\ Forall (fun n => 1 <= n <= 100) ns
    /\ slept w' = slept w.
Proof.
  intros Hwf.
  destruct (record_failures_wf us w Hwf) as (ns & w' & Hrec & Hwf' & Hsl & _ & Hall).
  exists ns, w'. split; [exact Hrec|]. split; [exact Hwf'|].
  pose proof Hwf' as Hspec. unfold wf_world in Hspec.
  apply wf_history_spec in Hspec as (_ & Hnd & Hlen & _).
  split; [exact Hnd|]. split; [unfold tracked; rewrite od_keys_length; exact Hlen|].
  split; [intros v; apply count_range, Hwf'|]. split; assumption.
Qed.

(** X6. The count of a principal stops at 100: one more failure reports
    100 again and writes nothing, the world is the one before. *)
Theorem count_saturates (u : str) (w : world) :
  wf_world w = true ->
  count u w = 100 ->
  get_consecutive_errors u w = (Ok 100, w).
Proof.
  intros Hwf Hc.
  destruct (get_consecutive_errors_items u w Hwf) as (w' & Hg & Hsl & Hsz & Hit).
  rewrite Hg, Hc. rewrite decide_True in Hit by exact Hc.
  assert (Hsz0 : LimitedSizeDict.size_limit (consecutive_errors_history w) = Some 100).
  { unfold wf_world in Hwf. apply wf_history_spec in Hwf as (H & _). exact H. }
  destruct w as [[sz d] sl], w' as [[sz' d'] sl'].
  cbn [consecutive_errors_history slept LimitedSizeDict.items
       LimitedSizeDict.size_limit] in *.
  subst. reflexivity.
Qed.

(** X7. A failure of one principal leaves the count of every other
    principal as it was, as long as nothing is evicted: the failing
    principal is tracked already, or fewer than 100 are. *)
Theorem failure_leaves_other_counts (u v : str) (w : world) :
  wf_world w = true ->
  v <> u ->
  u ∈ tracked w \/ (length (tracked w) < 100)%nat ->
  count v (snd (get_consecutive_errors u w)) = count v w.
Proof.
  intros Hwf Hne Hroom.
  destruct (get_consecutive_errors_items u w Hwf) as (w' & Hg & _ & _ & Hit).
  rewrite Hg. cbn [snd]. unfold count, LimitedSizeDict.get. rewrite Hit.
  destruct (decide (count u w = 100)) as [|Hc]; [reflexivity|].
  cbv zeta.
  set (d := LimitedSizeDict.items (consecutive_errors_history w)) in *.
  assert (Hlen : (length d <= 100)%nat).
  { unfold wf_world in Hwf. apply wf_history_spec in Hwf as (_ & _ & H & _). exact H. }
  assert (Hfit : (length (OrderedDict.__setitem__ u (count u w + 1)%Z d) - 100 = 0)%nat).
  { destruct (OrderedDict.get u d) as [n|] eqn:Hget.
    - rewrite (od_setitem_length _ _ _ _ Hget). lia.
    - apply od_get_None in Hget. destruct Hroom as [Hin|Hlt]; [contradiction|].
      unfold tracked in Hlt. fold d in Hlt. rewrite od_keys_length in Hlt.
      pose proof (od_setitem_length_le d u (count u w + 1)). lia. }
  rewrite Hfit, drop_0, od_get_setitem_ne by exact Hne. reflexivity.
Qed.

(** X8. Eviction forgets.  When 100 principals are tracked and a new
    one fails, the principal inserted earliest loses its count: its next
    failure counts as its first. *)
Theorem eviction_resets_count (u v : str) (rest : list str) (w : world) :
  wf_world w = true ->
  tracked w = v :: rest ->
  length (tracked w) = 100%nat ->
  u ∉ tracked w ->
  exists w1 w2,
    get_consecutive_errors u w = (Ok 1, w1)
    /\ count v w1 = 0
    /\ get_consecutive_errors v w1 = (Ok 1, w2).
Proof.
  intros Hwf Htr Hlen Hnew.
  destruct (get_consecutive_errors_spec u w Hwf) as (w1 & Hg & Hwf1 & _ & _ & Htr1).
  rewrite (bool_decide_eq_false_2 _ Hnew), Hlen in Htr1.
  change (100 + 1 - 100)%nat with 1%nat in Htr1.
  rewrite Htr in Htr1. cbn [app drop] in Htr1. rewrite drop_0 in Htr1.
  assert (Hcu : count u w = 0).
  { unfold count, LimitedSizeDict.get.
    rewrite (proj2 (od_get_None _ _) Hnew). reflexivity. }
  assert (Hcv : count v w1 = 0).
  { unfold count, LimitedSizeDict.get.
    rewrite (proj2 (od_get_None _ _)); [reflexivity|].
    fold (tracked w1). rewrite Htr1.
    assert (Hnd : NoDup (tracked w)).
    { unfold wf_world in Hwf. apply wf_history_spec in Hwf as (_ & H & _). exact H. }
    rewrite Htr in Hnd, Hnew. apply NoDup_cons in Hnd as [Hv _].
    apply not_elem_of_cons in Hnew as [Huv _].
    intros Hin. apply elem_of_app in Hin as [Hin|Hin]; [contradiction|].
    apply list_elem_of_singleton in Hin. congruence. }
  destruct (get_consecutive_errors_spec v w1 Hwf1) as (w2 & Hg2 & _).
  exists w1, w2. rewrite Hg, Hg2, Hcu, Hcv. repeat split; assumption.
Qed.

End HistoryRuns.

Lemma history_stays_bounded_witness :
  exists ns w',
    record_failures (map principal (seq 0 250)) initial_world = (Ok ns, w')
    /\ (length (tracked w') <= 100)%nat.
Proof.
  destruct (history_stays_bounded (map principal (seq 0 250)) initial_world eq_refl)
    as (ns & w' & Hrec & _ & _ & Hlen & _).
  exists ns, w'. split; assumption.
Defined.

Lemma count_saturates_witness :
  wf_world alice_at_cap = true
  /\ count (str_of_string "alice") alice_at_cap = 100
  /\ BasicUserPassCredentialChecker.get_consecutive_errors
       (str_of_string "alice") alice_at_cap
     = (Ok 100, alice_at_cap).
Proof.
  assert (Hwf : wf_world alice_at_cap = true) by (vm_compute; reflexivity).
  assert (Hc : count (str_of_string "alice") alice_at_cap = 100)
    by (vm_compute; reflexivity).
  split; [exact Hwf|]. split; [exact Hc|].
  apply (count_saturates (str_of_string "alice") alice_at_cap Hwf Hc).
Defined.

Lemma failure_leaves_other_counts_witness :
  count (principal 3)
    (snd (BasicUserPassCredentialChecker.get_consecutive_errors (principal 7) full_world))
  = 1.
Proof.
  rewrite (failure_leaves_other_counts (principal 7) (principal 3) full_world).
  - vm_compute; reflexivity.
  - vm_compute; reflexivity.
  - vm_compute. discriminate.
  - left. apply (bool_decide_unpack (principal 7 ∈ tracked full_world)).
    vm_compute. exact I.
Defined.

Lemma eviction_resets_count_witness :
  exists w1,
    BasicUserPassCredentialChecker.get_consecutive_errors (principal 100) full_world
    = (Ok 1, w1)
    /\ count (principal 0) full_world = 1
    /\ count (principal 0) w1 = 0.
Proof.
  destruct (eviction_resets_count (principal 100) (principal 0)
              (map principal (seq 1 99)) full_world)
    as (w1 & _ & Hg & Hc & _).
  - vm_compute; reflexivity.
  - vm_compute; reflexivity.
  - vm_compute; reflexivity.
  - apply (bool_decide_unpack (principal 100 ∉ tracked full_world)).
    vm_compute. exact I.
  - exists w1. split; [exact Hg|]. split; [vm_compute; reflexivity|exact Hc].
Defined.

(** ** The credential checker on its other paths *)

Section CheckerPaths.
Import BasicUserPassCredentialChecker.
Variable to_aes_key : str -> bytes.

Lemma requestAvatarId_match (self : t) (ub pb : bytes) (p : str) (w : world) :
  utf8_decode ub = Some (username self) ->
  utf8_decode pb = Some p ->
  to_aes_key p = password self ->
  requestAvatarId to_aes_key self (UsernamePassword ub pb) w
  = (Ok (succeed (Named ub)), w).
Proof.
  intros Hu Hp Hkey.
  unfold requestAvatarId, check_interfaces, credentialInterfaces, providedBy,
    cred_username, cred_password, decode_utf8, bind, lift, ret.
  rewrite Hu, Hp, Hkey. rewrite !bool_decide_eq_true_2 by reflexivity.
  reflexivity.
Qed.

(** X9. Credentials whose name is not UTF-8, or whose name is the
    configured one and whose password is not UTF-8, make
    [requestAvatarId] raise [UnicodeDecodeError]: no Deferred is
    returned, no failure is recorded and no thread is held. *)
Theorem undecodable_credentials_raise (self : t) (ub pb : bytes) (w : world) :
  utf8_decode ub = None
  \/ (utf8_decode ub = Some (username self) /\ utf8_decode pb = None) ->
  requestAvatarId to_aes_key self (UsernamePassword ub pb) w
  = (Raise UnicodeDecodeError, w).
Proof.
  intros [Hu|[Hu Hp]];
    unfold requestAvatarId, check_interfaces, credentialInterfaces, providedBy,
      cred_username, cred_password, decode_utf8, bind, lift, ret.
  - rewrite Hu. reflexivity.
  - rewrite Hu, Hp. rewrite bool_decide_eq_true_2 by reflexivity. reflexivity.
Qed.

(** X10. The failure history belongs to the class, not to a checker:
    when two checker instances both refuse the same name, the second
    continues the count of the first, and -- as long as the count stays
    within 33 -- the two delays are those of two consecutive failures. *)
Theorem history_shared_by_checkers (self1 self2 : t) (ub pb : bytes) (u : str)
  (w : world) :
  wf_world w = true ->
  utf8_decode ub = Some u ->
  (u <> username self1
   \/ exists p, utf8_decode pb = Some p /\ to_aes_key p <> password self1) ->
  (u <> username self2
   \/ exists p, utf8_decode pb = Some p /\ to_aes_key p <> password self2) ->
  count u w <= 31 ->
  exists w1 w2,
    requestAvatarId to_aes_key self1 (UsernamePassword ub pb) w
    = (Ok unauthorized, w1)
    /\ requestAvatarId to_aes_key self2 (UsernamePassword ub pb) w1
       = (Ok unauthorized, w2)
    /\ slept w2
       = slept w ++ [2 * 2 ^ (count u w + 1 - 1); 2 * 2 ^ (count u w + 2 - 1)]
    /\ count u w2 = count u w + 2.
Proof.
  intros Hwf Hu Hbad1 Hbad2 Hc.
  destruct (requestAvatarId_failure to_aes_key self1 ub pb u w Hwf Hu Hbad1
              ltac:(lia))
    as (w1 & _ & Hreq1 & Hwf1 & Hc1).
  set (w1' := mkWorld (consecutive_errors_history w1)
                      (slept w ++ [2 * 2 ^ (count u w + 1 - 1)])) in *.
  assert (Hwf1' : wf_world w1' = true) by exact Hwf1.
  assert (Hc1' : count u w1' = count u w + 1) by exact Hc1.
  destruct (requestAvatarId_failure to_aes_key self2 ub pb u w1' Hwf1' Hu Hbad2
              ltac:(lia))
    as (w2 & _ & Hreq2 & _ & Hc2).
  eexists w1', _. split; [exact Hreq1|]. split; [exact Hreq2|].
  cbn [slept]. split.
  - change (slept w1') with (slept w ++ [2 * 2 ^ (count u w + 1 - 1)]).
    rewrite <- app_assoc. cbn [app]. do 3 f_equal.
    rewrite Hc1'. do 2 f_equal. lia.
  - transitivity (count u w2); [reflexivity|]. rewrite Hc2, Hc1'. lia.
Qed.



(** X12. Through the guarded resource, a request with Basic
    credentials that match is served by [ExtendedJsonRpcApiAuth], the
    server with the authenticated methods, and the world is left as it
    was. *)
Theorem guarded_login_authorized (self : t) (ub pb : bytes) (p : str)
  (port_rpc : Z) (wallet : option Wallet) (w : world) :
  utf8_decode ub = Some (username self) ->
  utf8_decode pb = Some p ->
  to_aes_key p = password self ->
  HTTPAuthSessionWrapper._authorizedResource
    (guard_resource_with_http_auth (as_checker to_aes_key self) port_rpc wallet)
    (Basic ub pb) w
  = (Ok (ExtendedJsonRpcApiAuth port_rpc wallet), w).
Proof.
  intros Hu Hp Hkey.
  unfold HTTPAuthSessionWrapper._authorizedResource, HTTPAuthSessionWrapper._login,
    Portal.login, bind.
  cbn [guard_resource_with_http_auth HTTPAuthSessionWrapper.portal Portal.__init__
       Portal.checkers Portal.realm fold_left Portal.registerChecker as_checker
       checker_credentialInterfaces credentialInterfaces AllowAnonymousAccess
       OrderedDict.__setitem__].
  rewrite decide_False by discriminate.
  cbn [OrderedDict.__setitem__ Portal.find_checker providedBy
       checker_requestAvatarId].
  change (checker_requestAvatarId (as_checker to_aes_key self))
    with (requestAvatarId to_aes_key self).
  rewrite (requestAvatarId_match self ub pb p w Hu Hp Hkey).
  reflexivity.
Qed.


End CheckerPaths.

Lemma undecodable_credentials_raise_witness :
  BasicUserPassCredentialChecker.requestAvatarId example_key alice
    (UsernamePassword not_utf8 []) initial_world
  = (Raise UnicodeDecodeError, initial_world).
Proof.
  apply (undecodable_credentials_raise example_key alice not_utf8 [] initial_world).
  left. vm_compute; reflexivity.
Defined.

Lemma history_shared_by_checkers_witness :
  exists w1 w2,
    BasicUserPassCredentialChecker.requestAvatarId example_key alice alice_wrong
      initial_world
    = (Ok unauthorized, w1)
    /\ BasicUserPassCredentialChecker.requestAvatarId example_key bob alice_wrong w1
       = (Ok unauthorized, w2)
    /\ slept w2 = [2; 4].
Proof.
  destruct (history_shared_by_checkers example_key alice bob
              (default [] (utf8_encode (str_of_string "alice")))
              (default [] (utf8_encode (str_of_string "wrong")))
              (str_of_string "alice") initial_world)
    as (w1 & w2 & H1 & H2 & Hsl & _).
  - reflexivity.
  - vm_compute; reflexivity.
  - right. exists (str_of_string "wrong"). split; [vm_compute; reflexivity|].
    vm_compute. discriminate.
  - left. vm_compute. discriminate.
  - vm_compute. discriminate.
  - exists w1, w2. split; [exact H1|]. split; [exact H2|].
    rewrite Hsl. vm_compute; reflexivity.
Defined.


Lemma guarded_login_authorized_witness :
  HTTPAuthSessionWrapper._authorizedResource
    (guard_resource_with_http_auth (as_checker example_key alice) 10332 None)
    (Basic (default [] (utf8_encode (str_of_string "alice")))
           (default [] (utf8_encode (str_of_string "secret"))))
    initial_world
  = (Ok (ExtendedJsonRpcApiAuth 10332 None), initial_world).
Proof.
  apply (guarded_login_authorized example_key alice _ _ (str_of_string "secret"));
    vm_compute; reflexivity.
Defined.


(** ** The decorators on their other paths *)

Section DecoratorPaths.
Context {J : Type}.
Variable json_dumps : J -> result str.
Variable gzip_compress : bytes -> Z -> bytes.

(** X14. When [json.dumps] raises on the handler's [dict] or [list],
    the Deferred of [json_response] fails with that exception and no
    header has been set on the request, not even Content-Type. *)
Theorem serialization_error_fails_deferred
  (func : M Request (Deferred (handler_result J))) (j : J) (e : exception)
  (r0 r : Request) :
  func r0 = (Ok (succeed (Structured j)), r) ->
  json_dumps j = Raise e ->
  json_response json_dumps gzip_compress func r0 = (Ok (fail e), r).
Proof.
  intros Hf Hd. unfold json_response, bind. rewrite Hf. unfold addCallback.
  rewrite _response_data_cases. cbn [serialized]. rewrite Hd. reflexivity.
Qed.

(** X15. A text above the threshold that has no UTF-8 encoding, for a
    request that declares gzip: the conversion to bytes raises
    [UnicodeEncodeError] inside the callback, so the Deferred fails;
    Content-Type has been set by then, Content-Encoding and
    Content-Length have not. *)
Theorem unencodable_text_fails_deferred
  (func : M Request (Deferred (handler_result J))) (res : handler_result J)
  (d : str) (r0 r : Request) :
  func r0 = (Ok (succeed res), r) ->
  serialized json_dumps res = Ok d ->
  COMPRESS_THRESHOLD < Z.of_nat (length d) ->
  declares_gzip r = true ->
  utf8_encode d = None ->
  json_response json_dumps gzip_compress func r0
  = (Ok (fail UnicodeEncodeError), with_content_type r).
Proof.
  intros Hf Hser Hlen Hgz Henc. unfold json_response, bind. rewrite Hf.
  unfold addCallback. rewrite _response_data_cases, Hser. unfold response_of.
  rewrite (proj2 (Z.ltb_lt _ _) Hlen), Hgz, Henc. reflexivity.
Qed.

End DecoratorPaths.

Lemma prefix_append (sub post : string) :
  String.prefix sub (String.append sub post) = true.
Proof.
  induction sub as [|a sub IH]; simpl.
  - destruct post; reflexivity.
  - destruct (Ascii.ascii_dec a a) as [_|Hne]; [exact IH|congruence].
Qed.

Lemma contains_append (sub pre post : string) :
  contains sub (String.append pre (String.append sub post)) = true.
Proof.
  induction pre as [|a pre IH].
  - change (String.append EmptyString (String.append sub post)) with (String.append sub post).
    destruct (String.append sub post) eqn:E; cbn [contains];
      rewrite <- E, prefix_append; reflexivity.
  - change (String.append (String a pre) (String.append sub post))
      with (String a (String.append pre (String.append sub post))).
    cbn [contains]. rewrite IH.
    destruct (String.prefix sub (String a (String.append pre (String.append sub post))));
      reflexivity.
Qed.

(** X16. Acceptance of gzip is decided by a substring test alone: any
    Accept-Encoding value in which the letters "gzip" occur, whatever
    stands before and after them -- a zero weight as in "gzip;q=0"
    included -- makes a text above the threshold go out compressed and
    tagged. *)
Theorem gzip_by_substring {J} (json_dumps : J -> result str)
  (gzip_compress : bytes -> Z -> bytes) (res : handler_result J)
  (d : str) (raw : bytes) (r : Request) (encodings : list string)
  (pre post : string) :
  serialized json_dumps res = Ok d ->
  utf8_encode d = Some raw ->
  COMPRESS_THRESHOLD < Z.of_nat (length d) ->
  requestHeaders r !! "Accept-Encoding" = Some encodings ->
  String.append pre (String.append "gzip" post) ∈ encodings ->
  _response_data json_dumps gzip_compress res r
  = (Ok (Compressed (gzip_compress raw 1)),
     tagged_gzip (Z.of_nat (length (gzip_compress raw 1))) (with_content_type r)).
Proof.
  intros Hser Henc Hlen Hacc Hin.
  rewrite _response_data_cases, Hser. unfold response_of, declares_gzip.
  rewrite (proj2 (Z.ltb_lt _ _) Hlen), Hacc, Henc.
  assert (Hex : existsb (contains "gzip") encodings = true).
  { apply existsb_exists. eexists. split; [|apply contains_append].
    apply list_elem_of_In, Hin. }
  rewrite Hex. reflexivity.
Qed.

Lemma serialization_error_fails_deferred_witness :
  json_response refusing_dumps example_gzip
    (ret (succeed (Structured [1; 2; 3]))) browser_request
  = (Ok (fail (HandlerError "Object is not JSON serializable")), browser_request).
Proof.
  apply (serialization_error_fails_deferred refusing_dumps example_gzip
           (ret (succeed (Structured [1; 2; 3]))) [1; 2; 3]);
    reflexivity.
Defined.

Lemma unencodable_text_fails_deferred_witness :
  json_response example_dumps example_gzip
    (ret (succeed (Serialized (surrogates 1550)))) browser_request
  = (Ok (fail UnicodeEncodeError), with_content_type browser_request).
Proof.
  apply (unencodable_text_fails_deferred example_dumps example_gzip
           (ret (succeed (Serialized (surrogates 1550))))
           (Serialized (surrogates 1550)) (surrogates 1550));
    vm_compute; reflexivity.
Defined.

Lemma gzip_by_substring_witness :
  fst (_response_data example_dumps example_gzip
         (Serialized (payload 1550)) refusing_gzip_request)
  = Ok (Compressed (example_gzip (map Z_to_byte (payload 1550)) 1)).
Proof.
  rewrite (gzip_by_substring example_dumps example_gzip
             (Serialized (payload 1550)) (payload 1550)
             (map Z_to_byte (payload 1550)) refusing_gzip_request
             ["deflate"%string; "gzip;q=0"%string] EmptyString ";q=0").
  - reflexivity.
  - reflexivity.
  - vm_compute; reflexivity.
  - vm_compute; reflexivity.
  - vm_compute; reflexivity.
  - apply (bool_decide_unpack _). vm_compute. exact I.
Defined.

(** ** The two decorators together *)

Lemma with_content_type_with_cors (r : Request) :
  with_content_type (with_cors r) = with_cors (with_content_type r).
Proof.
  unfold with_content_type, with_cors. cbn [requestHeaders responseHeaders].
  f_equal.
  rewrite (insert_insert_ne _ "Content-Type" "Access-Control-Allow-Headers")
    by discriminate.
  rewrite (insert_insert_ne _ "Content-Type" "Access-Control-Allow-Origin")
    by discriminate.
  reflexivity.
Qed.

Lemma tagged_gzip_with_cors (n : Z) (r : Request) :
  tagged_gzip n (with_cors r) = with_cors (tagged_gzip n r).
Proof.
  unfold tagged_gzip, with_cors. cbn [requestHeaders responseHeaders].
  f_equal.
  rewrite (insert_insert_ne _ "Content-Encoding" "Access-Control-Allow-Headers")
    by discriminate.
  rewrite (insert_insert_ne _ "Content-Encoding" "Access-Control-Allow-Origin")
    by discriminate.
  rewrite (insert_insert_ne _ "Content-Length" "Access-Control-Allow-Headers")
    by discriminate.
  rewrite (insert_insert_ne _ "Content-Length" "Access-Control-Allow-Origin")
    by discriminate.
  reflexivity.
Qed.

Section DecoratorOrder.
Context {J : Type}.
Variable json_dumps : J -> result str.
Variable gzip_compress : bytes -> Z -> bytes.

Lemma _response_data_with_cors (res : handler_result J) (r : Request) :
  _response_data json_dumps gzip_compress res (with_cors r)
  = (fst (_response_data json_dumps gzip_compress res r),
     with_cors (snd (_response_data json_dumps gzip_compress res r))).
Proof.
  rewrite !_response_data_cases.
  destruct (serialized json_dumps res) as [d|e]; [|reflexivity].
  unfold response_of. change (declares_gzip (with_cors r)) with (declares_gzip r).
  destruct ((COMPRESS_THRESHOLD <? Z.of_nat (length d)) && declares_gzip r).
  - destruct (utf8_encode d); cbn [fst snd];
      rewrite ?with_content_type_with_cors, ?tagged_gzip_with_cors; reflexivity.
  - cbn [fst snd]. rewrite with_content_type_with_cors. reflexivity.
Qed.

Lemma _response_data_content_type (res : handler_result J) (r r1 : Request)
  (b : body) :
  _response_data json_dumps gzip_compress res r = (Ok b, r1) ->
  responseHeaders r1 !! "Content-Type" = Some (HStr "application/json").
Proof.
  rewrite _response_data_cases.
  destruct (serialized json_dumps res) as [d|e]; [|discriminate].
  unfold response_of.
  destruct ((COMPRESS_THRESHOLD <? Z.of_nat (length d)) && declares_gzip r).
  - destruct (utf8_encode d); [|discriminate]. intros [= _ <-].
    cbn [tagged_gzip with_content_type responseHeaders].
    rewrite !lookup_insert_ne by discriminate. apply lookup_insert_eq.
  - intros [= _ <-]. cbn [with_content_type responseHeaders].
    apply lookup_insert_eq.
Qed.

(** X17. When the handler's Deferred fires with a result that
    [_response_data] turns into a body, the two decorators can be
    stacked either way: the body is the same and so are the headers,
    which hold both CORS headers and Content-Type. *)
Theorem decorators_commute_on_success
  (func : M Request (Deferred (handler_result J))) (res : handler_result J)
  (b : body) (r0 r r1 : Request) :
  func r0 = (Ok (succeed res), r) ->
  _response_data json_dumps gzip_compress res r = (Ok b, r1) ->
  cors_header (json_response json_dumps gzip_compress func) r0
  = (Ok (succeed b), with_cors r1)
  /\ json_response json_dumps gzip_compress (cors_header func) r0
     = (Ok (succeed b), with_cors r1)
  /\ has_cors (with_cors r1)
  /\ responseHeaders (with_cors r1) !! "Content-Type"
     = Some (HStr "application/json").
Proof.
  intros Hf Hb. split; [|split; [|split]].
  - unfold cors_header, json_response, bind. rewrite Hf. unfold addCallback.
    rewrite Hb. reflexivity.
  - unfold cors_header, json_response, bind. rewrite Hf. unfold addCallback.
    change (_request res r) with (Ok res, with_cors r). cbv beta iota.
    rewrite _response_data_with_cors, Hb. reflexivity.
  - apply with_cors_has_cors.
  - cbn [with_cors responseHeaders]. rewrite !lookup_insert_ne by discriminate.
    apply (_response_data_content_type res r r1 b Hb).
Qed.

(** X18. When [_response_data] raises, the order of the decorators
    shows: under [cors_header] outside [json_response] the Deferred has
    failed before the CORS callback, and the request is left as the
    failed callback left it; under [json_response] outside [cors_header]
    the CORS headers are set before the failure. *)
Theorem decorator_order_shows_on_failure
  (func : M Request (Deferred (handler_result J))) (res : handler_result J)
  (e : exception) (r0 r r1 : Request) :
  func r0 = (Ok (succeed res), r) ->
  _response_data json_dumps gzip_compress res r = (Raise e, r1) ->
  cors_header (json_response json_dumps gzip_compress func) r0
  = (Ok (fail e), r1)
  /\ json_response json_dumps gzip_compress (cors_header func) r0
     = (Ok (fail e), with_cors r1)
  /\ has_cors (with_cors r1).
Proof.
  intros Hf Hb. split; [|split].
  - unfold cors_header, json_response, bind. rewrite Hf. unfold addCallback.
    rewrite Hb. reflexivity.
  - unfold cors_header, json_response, bind. rewrite Hf. unfold addCallback.
    change (_request res r) with (Ok res, with_cors r). cbv beta iota.
    rewrite _response_data_with_cors, Hb. reflexivity.
  - apply with_cors_has_cors.
Qed.

End DecoratorOrder.

Lemma decorators_commute_on_success_witness :
  cors_header (json_response example_dumps example_gzip
                 (ret (succeed (Structured [49; 44; 50])))) browser_request
  = json_response example_dumps example_gzip
      (cors_header (ret (succeed (Structured [49; 44; 50])))) browser_request.
Proof.
  destruct (decorators_commute_on_success example_dumps example_gzip
              (ret (succeed (Structured [49; 44; 50]))) (Structured [49; 44; 50])
              (Text [91; 49; 44; 50; 93]) browser_request browser_request
              (with_content_type browser_request) eq_refl eq_refl)
    as (H1 & H2 & _).
  rewrite H1, H2. reflexivity.
Defined.

Lemma decorator_order_shows_on_failure_witness :
  lacks_cors (snd (cors_header
                     (json_response refusing_dumps example_gzip
                        (ret (succeed (Structured [1])))) bare_request))
  /\ has_cors (snd (json_response refusing_dumps example_gzip
                      (cors_header (ret (succeed (Structured [1])))) bare_request)).
Proof.
  destruct (decorator_order_shows_on_failure refusing_dumps example_gzip
              (ret (succeed (Structured [1]))) (Structured [1])
              (HandlerError "Object is not JSON serializable")
              bare_request bare_request bare_request eq_refl eq_refl)
    as (H1 & H2 & H3).
  rewrite H1, H2. split; [split; reflexivity|exact H3].
Defined.

(** ** The version message beyond the round trip *)

Section VersionObject.
Import VersionPayload.

Lemma keeps_Version_bind {A B} (c : M store A) (k : A -> M store B) :
  keeps_Version c -> (forall a, keeps_Version (k a)) -> keeps_Version (bind c k).
Proof.
  intros Hc Hk s. unfold bind. specialize (Hc s).
  destruct (c s) as [[a|e] s']; cbn [snd fst] in *.
  - rewrite Hk. exact Hc.
  - exact Hc.
Qed.

Lemma keeps_Version_reading {A} (p : M BinaryReader.stream A) :
  keeps_Version (reading p).
Proof.
  intros s. unfold reading. destruct (p (snd s)). reflexivity.
Qed.

Lemma keeps_Version_assign (f : t -> t) :
  (forall self, Version (f self) = Version self) -> keeps_Version (assign f).
Proof. intros Hf s. apply Hf. Qed.

Lemma keeps_Version_lift {A} (r : result A) : keeps_Version (@lift store A r).
Proof. intros s. reflexivity. Qed.

(** X19. Framing.  [Deserialize] takes exactly the bytes of one
    message from the reader and leaves what follows unread, whatever
    object it fills: bytes after a valid message are never looked at, so
    [decode] accepts them, and two messages back to back are read one
    after the other. *)
Theorem deserialize_leaves_rest (e : endianness) (x y self : t) (rest : bytes) :
  valid x = true -> valid y = true ->
  Deserialize e (self, layout e x ++ rest) = (Ok tt, (x, rest))
  /\ decode e (layout e x ++ rest) = Ok x
  /\ (do! Deserialize e in Deserialize e) (self, layout e x ++ layout e y ++ rest)
     = (Ok tt, (y, rest)).
Proof.
  intros Hx Hy.
  destruct (Deserialize_fills e x Hx) as [Hokx _].
  destruct (Deserialize_fills e y Hy) as [Hoky _].
  split; [apply Hokx|]. split.
  - unfold decode. specialize (Hokx new rest).
    unfold BinaryReader.stream, bytes in *. rewrite Hokx. reflexivity.
  - rewrite (bind_ok _ _ _ _ _ (Hokx self (layout e y ++ rest))). apply Hoky.
Qed.

(** X20. A truncated message leaves its mark.  [Deserialize] assigns
    each attribute as soon as it is read: on a strict prefix of a valid
    message that holds at least the first byte it raises the Truncated
    error after it has overwritten the [Version] of the object it was
    given. *)
Theorem truncation_overwrites_version (e : endianness) (x self : t) (n : nat) :
  valid x = true ->
  (1 <= n < length (layout e x))%nat ->
  fst (Deserialize e (self, take n (layout e x))) = Raise TruncatedInput
  /\ Version (fst (snd (Deserialize e (self, take n (layout e x))))) = Version x.
Proof.
  intros Hx Hn.
  destruct (Deserialize_fills e x Hx) as [_ Htr].
  destruct (Htr self n (proj2 Hn)) as [st Hst].
  split; [unfold BinaryReader.stream, bytes in *; rewrite Hst; reflexivity|].
  clear Hst st Htr.
  destruct x as [ov os ots op on oua sh rl].
  destruct (valid_inv _ _ _ _ _ _ _ _ Hx)
    as (v & s & ts & p & nn & ua & uab & -> & -> & -> & -> & -> & ->
        & Hv & _).
  cbn [Version]. revert Hn. unfold layout.
  cbn [Version Services Timestamp Port Nonce UserAgent StartHeight Relay
       from_option id].
  set (tail := field e 8 s ++ _). intros Hn.
  rewrite take_app_ge by (rewrite field_length; lia). rewrite field_length.
  unfold Deserialize.
  assert (Hfirst : fills (let! v0 := reading (BinaryReader.ReadUInt8 e) in
                          assign (set_Version v0))
                         (field e 1 v) tt (set_Version v)).
  { apply fills_field, consumes_ReadUInt. exact Hv. }
  destruct Hfirst as [Hfirst _].
  rewrite (bind_ok _ _ _ _ _ (Hfirst self (take (n - 1) tail))).
  match goal with
  | |- Version (fst (snd (?rest ?s0))) = _ =>
      assert (Hk : keeps_Version rest)
  end.
  { repeat first
      [ apply keeps_Version_bind; [|intros ?]
      | apply keeps_Version_reading
      | apply keeps_Version_lift
      | apply keeps_Version_assign; intros []; reflexivity ]. }
  rewrite Hk. reflexivity.
Qed.

Lemma varint_length (e : endianness) (v : Z) :
  Z.of_nat (length (varint e v)) = varint_size v.
Proof.
  unfold varint, varint_size.
  destruct (v <? 253); [|destruct (v <=? 65535); [|destruct (v <=? 4294967295)]];
    rewrite ?length_app, !field_length; reflexivity.
Qed.

(** X21. The size of a message on the wire: 24 bytes of fixed fields,
    the prefix of the user agent -- 1, 3, 5 or 9 bytes by its length --
    and the UTF-8 bytes of the user agent; never fewer than 25. *)
Theorem encoded_size (e : endianness) (x : t) (ua : str) (uab bs : bytes) :
  valid x = true ->
  UserAgent x = Some ua -> utf8_encode ua = Some uab ->
  encode e x = Ok bs ->
  Z.of_nat (length bs)
  = 24 + varint_size (Z.of_nat (length uab)) + Z.of_nat (length uab)
  /\ 25 <= Z.of_nat (length bs).
Proof.
  intros Hx Hua Henc Hbs. rewrite (encode_layout e x Hx) in Hbs.
  injection Hbs as <-.
  assert (Hlen : Z.of_nat (length (layout e x))
                 = 24 + varint_size (Z.of_nat (length uab)) + Z.of_nat (length uab)).
  { unfold layout. rewrite Hua. cbn [from_option id]. rewrite Henc.
    cbn [from_option id].
    rewrite !length_app, !field_length, !Nat2Z.inj_add, varint_length. lia. }
  split; [exact Hlen|]. rewrite Hlen. unfold varint_size.
  destruct (_ <? 253); [|destruct (_ <=? 65535); [|destruct (_ <=? 4294967295)]];
    lia.
Qed.

(** X22. Two valid messages with the same bytes are the same message. *)
Theorem encode_injective (e : endianness) (x y : t) :
  valid x = true -> valid y = true ->
  encode e x = encode e y -> x = y.
Proof.
  intros Hx Hy Heq.
  rewrite (encode_layout e x Hx), (encode_layout e y Hy) in Heq.
  injection Heq as Hl.
  destruct (Deserialize_fills e x Hx) as [Hokx _].
  destruct (Deserialize_fills e y Hy) as [Hoky _].
  specialize (Hokx new []). specialize (Hoky new []).
  rewrite Hl in Hokx. unfold BinaryReader.stream, bytes in *.
  rewrite Hoky in Hokx. congruence.
Qed.

End VersionObject.

Section VersionConstruction.
Import VersionPayload VersionPayloadObject.
Variable NODE_NETWORK : Z.
Variable utcnow_timestamp : Z.
Variable Blockchain_Default : option (option Z).

(** X23. The constructor assigns nothing unless port, nonce and user
    agent are all given and truthy: with a port or nonce of 0 or an
    empty user agent the object has the class defaults only, the line
    printed names start height 1, and [Serialize] raises on the first
    attribute, [None], before a byte is written. *)
Theorem constructor_needs_all_arguments (port nonce : option Z)
  (userAgent : option str) (out : list string) (e : endianness)
  (w : BinaryWriter.stream) :
  truthy_int port && truthy_int nonce && truthy_str userAgent = false ->
  __init__ NODE_NETWORK utcnow_timestamp Blockchain_Default port nonce userAgent out
  = (Ok new, out ++ ["created version: 1 "%string])
  /\ Serialize e new w = (Raise StructError, w)
  /\ encode e new = Raise StructError.
Proof.
  intros Hfalsy. unfold __init__. rewrite Hfalsy.
  split; [reflexivity|]. split; reflexivity.
Qed.

(** X24. With a port and a nonce that are not 0 and fit their fields,
    a user agent that is not empty, and a clock, service flags and
    block height that fit theirs, the constructed message announces
    version 0 with relay on and the height of the blockchain -- 1 when
    there is none --, it is valid, and it survives the round trip. *)
Theorem constructed_message_round_trips (port nonce : Z) (userAgent : str)
  (uab : bytes) (out : list string) (e : endianness) :
  0 < port < 2 ^ 16 -> 0 < nonce < 2 ^ 32 ->
  userAgent <> [] -> utf8_encode userAgent = Some uab ->
  Z.of_nat (length uab) < 2 ^ 64 ->
  0 <= NODE_NETWORK < 2 ^ 64 -> 0 <= utcnow_timestamp < 2 ^ 32 ->
  (forall height, Blockchain_Default = Some (Some height) -> 0 <= height < 2 ^ 32) ->
  exists x out',
    __init__ NODE_NETWORK utcnow_timestamp Blockchain_Default
      (Some port) (Some nonce) (Some userAgent) out
    = (Ok x, out')
    /\ x = mk (Some 0) (Some NODE_NETWORK) (Some utcnow_timestamp)
              (Some port) (Some nonce) (Some userAgent)
              (match Blockchain_Default with
               | Some (Some height) => height
               | _ => 1
               end) true
    /\ valid x = true
    /\ encode e x = Ok (layout e x)
    /\ decode e (layout e x) = Ok x.
Proof.
  intros Hp Hn Hne Hua Hlen Hnn Hts Hh.
  assert (Htruthy : truthy_int (Some port) && truthy_int (Some nonce)
                    && truthy_str (Some userAgent) = true).
  { unfold truthy_int, truthy_str.
    destruct (Z.eqb_spec port 0); [lia|]. destruct (Z.eqb_spec nonce 0); [lia|].
    destruct userAgent; [congruence|reflexivity]. }
  set (h := match Blockchain_Default with
            | Some (Some height) => height
            | _ => 1
            end).
  assert (Hhr : 0 <= h < 2 ^ 32).
  { subst h. destruct Blockchain_Default as [[height|]|]; [apply Hh; reflexivity|lia..]. }
  set (x := mk (Some 0) (Some NODE_NETWORK) (Some utcnow_timestamp)
               (Some port) (Some nonce) (Some userAgent) h true).
  assert (Hvalid : valid x = true).
  { unfold valid, fits, x.
    cbn [Version Services Timestamp Port Nonce UserAgent StartHeight Relay].
    rewrite Hua.
    change (256 ^ Z.of_nat 1) with 256. change (256 ^ Z.of_nat 8) with (2 ^ 64).
    change (256 ^ Z.of_nat 4) with (2 ^ 32). change (256 ^ Z.of_nat 2) with (2 ^ 16).
    repeat (apply andb_true_intro; split);
      first [apply Z.leb_le | apply Z.ltb_lt]; lia. }
  exists x, (out ++ ["created version: " +:+ pretty h +:+ " "]).
  split; [unfold __init__; rewrite Htruthy; reflexivity|].
  split; [reflexivity|]. split; [exact Hvalid|].
  split; [apply encode_layout, Hvalid|].
  unfold decode. destruct (Deserialize_fills e x Hvalid) as [Hok _].
  specialize (Hok new []). rewrite app_nil_r in Hok.
  unfold BinaryReader.stream, bytes in *. rewrite Hok. reflexivity.
Qed.

End VersionConstruction.

Lemma deserialize_leaves_rest_witness :
  VersionPayload.decode LittleEndian
    (layout LittleEndian example_version ++ [Z_to_byte 7; Z_to_byte 9])
  = Ok example_version.
Proof.
  apply (proj1 (proj2 (deserialize_leaves_rest LittleEndian example_version
                         example_version VersionPayload.new
                         [Z_to_byte 7; Z_to_byte 9] eq_refl eq_refl))).
Defined.

Lemma truncation_overwrites_version_witness :
  VersionPayload.Version
    (fst (snd (VersionPayload.Deserialize BigEndian
                 (VersionPayload.new, take 1 (layout BigEndian example_version)))))
  = Some 0.
Proof.
  apply (proj2 (truncation_overwrites_version BigEndian example_version
                  VersionPayload.new 1 eq_refl
                  ltac:(vm_compute; lia))).
Defined.

Lemma encoded_size_witness :
  Z.of_nat (length (layout LittleEndian example_version)) = 36.
Proof.
  rewrite (proj1 (encoded_size LittleEndian example_version
                    (str_of_string "/NEO:2.7.4/")
                    (default [] (utf8_encode (str_of_string "/NEO:2.7.4/")))
                    (layout LittleEndian example_version)
                    eq_refl eq_refl eq_refl
                    ltac:(vm_compute; reflexivity))).
  vm_compute; reflexivity.
Defined.

Lemma encode_injective_witness :
  VersionPayload.set_Relay true
    (VersionPayload.set_StartHeight 2400000 example_version)
  = example_version.
Proof.
  apply (encode_injective LittleEndian); vm_compute; reflexivity.
Defined.

Lemma constructor_needs_all_arguments_witness :
  fst (VersionPayloadObject.__init__ 1 1530000000 (Some (Some 2400000))
         (Some 0) (Some 2864434397) (Some (str_of_string "/NEO:2.7.4/")) [])
  = Ok VersionPayload.new.
Proof.
  rewrite (proj1 (constructor_needs_all_arguments 1 1530000000 (Some (Some 2400000))
                    (Some 0) (Some 2864434397) (Some (str_of_string "/NEO:2.7.4/"))
                    [] LittleEndian [] eq_refl)).
  reflexivity.
Defined.

Lemma constructed_message_round_trips_witness :
  exists out',
    VersionPayloadObject.__init__ 1 1530000000 (Some (Some 2400000))
      (Some 10333) (Some 2864434397) (Some (str_of_string "/NEO:2.7.4/")) []
    = (Ok example_version, out')
    /\ VersionPayload.decode LittleEndian
         (layout LittleEndian example_version)
       = Ok example_version.
Proof.
  destruct (constructed_message_round_trips 1 1530000000 (Some (Some 2400000))
              10333 2864434397 (str_of_string "/NEO:2.7.4/")
              (default [] (utf8_encode (str_of_string "/NEO:2.7.4/")))
              [] LittleEndian)
    as (x & out' & Hinit & Hx & _ & _ & Hdec).
  - lia.
  - lia.
  - discriminate.
  - reflexivity.
  - vm_compute; reflexivity.
  - lia.
  - lia.
  - intros height [= <-]. lia.
  - exists out'. subst x. split; [exact Hinit|exact Hdec].
Defined.

(** ** [main]: what the arguments lead to *)

Section MainRuns.
Import ApiServerMain.
Variable path_exists : string -> bool.
Variable environ_get : string -> option str.
Variable typed : string -> str.
Variable abspath : string -> string.
Variable getpid : Z.
Variable PID_FILE : string.
Variable chain_leveldb_path : string.
Variable describe : raised -> string.
Variable to_aes_key : str -> bytes.
Variable behaviour : call -> result unit.

(** Every collaborator returns. *)
Hypothesis all_return : forall c, behaviour c = Ok tt.

Lemma invoke_returns (c : call) (trace : list call) :
  invoke behaviour c trace = (inl tt, trace ++ [c]).
Proof. unfold invoke. rewrite all_return. reflexivity. Qed.

Lemma and_then_returns {A B} (c : MM A) (k : A -> MM B) (a : A)
  (trace trace' : list call) :
  c trace = (inl a, trace') -> and_then c k trace = k a trace'.
Proof. intros H. unfold and_then. rewrite H. reflexivity. Qed.

Lemma complain_returns (line : string) (trace : list call) :
  complain behaviour line trace = (inl tt, trace ++ [print line; parser_print_help]).
Proof.
  unfold complain. rewrite (and_then_returns _ _ _ _ _ (invoke_returns _ _)).
  rewrite invoke_returns, <- app_assoc. reflexivity.
Qed.

Ltac run_calls :=
  unfold and_then, invoke, local, unit_;
  repeat (rewrite all_return; cbv beta iota);
  rewrite <- ?app_assoc; cbn [app].

Ltac give_calls :=
  first
    [ exists []; split; [rewrite app_nil_r; reflexivity|reflexivity]
    | eexists; split; [reflexivity|reflexivity] ].

Lemma configure_settings_returns (args : Namespace) (trace : list call) :
  exists calls,
    configure_settings behaviour args trace = (inl tt, trace ++ calls)
    /\ forallb is_setup_call calls = true.
Proof.
  unfold configure_settings.
  destruct (datadir args) as [[|a d]|], (config args) as [[|b c]|],
    (mainnet args), (testnet args), (privnet args), (coznet args),
    (truthy_val (maxpeers args));
    run_calls; give_calls.
Qed.

Lemma configure_logging_returns (args : Namespace) (trace : list call) :
  exists calls,
    configure_logging abspath behaviour args trace = (inl tt, trace ++ calls)
    /\ forallb is_setup_call calls = true.
Proof.
  unfold configure_logging.
  destruct (syslog args), (syslog_local args) as [n|], (logfile args) as [[|a l]|],
    (disable_stderr args);
    cbn [orb]; rewrite ?bool_decide_eq_true_2 by discriminate;
    rewrite ?bool_decide_eq_false_2 by (intros H; apply H; reflexivity);
    run_calls; give_calls.
Qed.

Lemma start_node_returns (wallet : option Wallet) (trace : list call) :
  start_node getpid PID_FILE chain_leveldb_path behaviour wallet trace
  = (inl tt,
     trace
     ++ firstn 7 (node_calls PID_FILE getpid chain_leveldb_path)
     ++ match wallet with
        | Some _ => [LoopingCall_start ProcessBlocks 1000;
                     Deferred_addErrback ProcessBlocks]
        | None => []
        end
     ++ skipn 7 (node_calls PID_FILE getpid chain_leveldb_path)).
Proof.
  unfold start_node, write_pid_file. destruct wallet; run_calls; reflexivity.
Qed.

Lemma main_after_checks (args : Namespace) :
  no_port args = false -> same_port args = false ->
  logfile_and_syslog args = false ->
  exists calls,
    forallb is_setup_call calls = true
    /\ main path_exists environ_get typed abspath getpid PID_FILE chain_leveldb_path
      describe to_aes_key behaviour args []
       = and_then (open_wallet path_exists environ_get typed describe to_aes_key
                     behaviour args)
           (fun outcome =>
            match outcome with
            | Returns => unit_ tt
            | Proceeds wallet credentialChecker =>
                and_then
                  (start_node getpid PID_FILE chain_leveldb_path behaviour wallet)
                  (fun _ =>
                and_then
                  (start_servers to_aes_key behaviour args wallet credentialChecker)
                  (fun _ => run_and_shut_down behaviour wallet))
            end) calls.
Proof.
  intros Hn Hs Hl.
  destruct (configure_settings_returns args []) as (l1 & H1 & F1).
  destruct (configure_logging_returns args ([] ++ l1)) as (l2 & H2 & F2).
  exists (l1 ++ l2). split; [rewrite forallb_app, F1, F2; reflexivity|].
  unfold main. rewrite Hn, Hs, Hl.
  rewrite (and_then_returns _ _ _ _ _ H1), (and_then_returns _ _ _ _ _ H2).
  reflexivity.
Qed.

(** X25. Each of the three argument errors ends [main] at once: one
    line is printed, the help is shown, and [main] returns; no setting
    is touched, no wallet opened, nothing started.  A port of 0 counts
    as no port. *)
Theorem argument_errors_end_main (args : Namespace) :
  no_port args || same_port args || logfile_and_syslog args = true ->
  main path_exists environ_get typed abspath getpid PID_FILE chain_leveldb_path
      describe to_aes_key behaviour args []
  = (inl tt,
     [print (if no_port args
             then "Error: specify at least one of --port-rpc / --port-rest"
             else if same_port args
             then "Error: --port-rpc and --port-rest cannot be the same"
             else "Error: Cannot only use logfile or syslog at once");
      parser_print_help]).
Proof.
  intros Herr. unfold main.
  destruct (no_port args); [apply (complain_returns _ [])|].
  destruct (same_port args); [apply (complain_returns _ [])|].
  destruct (logfile_and_syslog args); [apply (complain_returns _ [])|].
  discriminate.
Qed.

(** X26. The check that refuses a logfile together with syslog tests
    the truth of [syslog_local], so local facility 0 slips through it:
    with a logfile and [--syslog-local n] the check fires exactly when
    [n] is not 0, and with 0 the logging goes to syslog facility local0
    and the logfile is never set up. *)
Theorem syslog_local_zero_overrides_logfile (args : Namespace) (a : ascii)
  (l : string) (n : Z) (trace : list call) :
  logfile args = Some (String a l) ->
  syslog args = false ->
  syslog_local args = Some n ->
  logfile_and_syslog args = negb (n =? 0)
  /\ configure_logging abspath behaviour args trace
     = (inl tt,
        trace ++ [print ("Logging to syslog local" +:+ pretty n +:+ " facility");
                  logzero_syslog (LOG_LOCAL0 + n)]).
Proof.
  intros Hlog Hsys Hloc. split.
  - unfold logfile_and_syslog. rewrite Hlog, Hsys, Hloc. reflexivity.
  - unfold configure_logging. rewrite Hsys, Hloc.
    cbn [orb]. rewrite bool_decide_eq_true_2 by discriminate.
    run_calls. reflexivity.
Qed.

(** X27. With the wallet password taken from the environment no user
    name is ever asked for, and the checker cannot be made: the wallet
    is opened, the read of [username] raises inside the [try], the
    handler prints "Could not open wallet ..." and [main] returns.
    Before that only settings and logging were touched; no PID file is
    written and no server started. *)
Theorem environment_password_stops_main (args : Namespace) (a : ascii)
  (p : string) (passwd : str) :
  no_port args = false -> same_port args = false ->
  logfile_and_syslog args = false ->
  wallet args = Some (String a p) ->
  path_exists (String a p) = true ->
  environ_get "NEO_PYTHON_JSONRPC_WALLET_PASSWORD" = Some passwd ->
  passwd <> [] ->
  exists calls,
    main path_exists environ_get typed abspath getpid PID_FILE chain_leveldb_path
      describe to_aes_key behaviour args []
    = (inl tt,
       calls ++ [UserWallet_Open (String a p) (to_aes_key passwd);
                 print ("Could not open wallet "
                        +:+ describe (UnboundLocalError "username"))])
    /\ forallb is_setup_call calls = true.
Proof.
  intros Hn Hs Hl Hw Hex Henv Hne.
  destruct (main_after_checks args Hn Hs Hl) as (calls & Hsetup & Hmain).
  exists calls. split; [|exact Hsetup]. rewrite Hmain.
  unfold open_wallet. rewrite Hw, Hex, Henv. cbn [negb].
  assert (Ht : truthy_str (Some passwd) = true)
    by (destruct passwd; [congruence|reflexivity]).
  rewrite Ht. cbn [negb from_option id].
  unfold and_then, try_except, unit_, local, invoke. rewrite !all_return.
  rewrite <- app_assoc. reflexivity.
Qed.

(** X28. The extended JSON-RPC server without a wallet: no statement
    has assigned [credentialChecker], so its read raises
    [UnboundLocalError] out of [main] right after the log line that
    announces the server.  By then the PID file is written and the
    blockchain, the node and the notification database are started;
    nothing listens, the reactor never runs, and the shutdown steps are
    never reached. *)
Theorem extended_rpc_without_wallet_raises (args : Namespace) (port : Z) :
  no_port args = false -> same_port args = false ->
  logfile_and_syslog args = false ->
  truthy_text (wallet args) = false ->
  port_rpc args = Some port -> port <> 0 ->
  extended_rpc args = true ->
  exists calls,
    main path_exists environ_get typed abspath getpid PID_FILE chain_leveldb_path
      describe to_aes_key behaviour args []
    = (inr (UnboundLocalError "credentialChecker"),
       calls ++ node_calls PID_FILE getpid chain_leveldb_path
       ++ [logger_info (starting "extended json-rpc api server" (host args) port)])
    /\ forallb is_setup_call calls = true.
Proof.
  intros Hn Hs Hl Hw Hp Hp0 Hext.
  destruct (main_after_checks args Hn Hs Hl) as (calls & Hsetup & Hmain).
  exists calls. split; [|exact Hsetup]. rewrite Hmain.
  assert (Hopen : open_wallet path_exists environ_get typed describe to_aes_key
                    behaviour args calls
                  = (inl (Proceeds None None), calls)).
  { unfold open_wallet. destruct (wallet args) as [[|b q]|];
      [reflexivity|discriminate|reflexivity]. }
  rewrite (and_then_returns _ _ _ _ _ Hopen).
  rewrite (and_then_returns _ _ _ _ _ (start_node_returns None calls)).
  unfold start_servers. rewrite Hp, Hext.
  destruct (Z.eqb_spec port 0) as [|_]; [contradiction|]. cbn [negb andb].
  unfold and_then, local, invoke. rewrite all_return.
  cbn [firstn skipn node_calls app]. rewrite <- !app_assoc. reflexivity.
Qed.

(** X29. The plain JSON-RPC server is put on the wire as it is,
    whatever wallet is open and whatever checker exists: the resource
    that listens on the RPC port is the one of [JsonRpcApi], not a
    guarded one, and no credentials are involved. *)
Theorem plain_rpc_is_served_unguarded (args : Namespace) (port : Z)
  (wallet : option Wallet)
  (credentialChecker : option BasicUserPassCredentialChecker.t)
  (trace : list call) :
  port_rpc args = Some port -> port <> 0 ->
  extended_rpc args = false ->
  exists calls,
    start_servers to_aes_key behaviour args wallet credentialChecker trace
    = (inl tt,
       trace ++ [logger_info (starting "json-rpc api server" (host args) port);
                 JsonRpcApi_init port wallet;
                 listen (endpoint port (host args))
                   (JsonRpcApi_resource port wallet)]
       ++ calls)
    /\ (calls = []
        \/ exists rest,
             port_rest args = Some rest
             /\ calls = [logger_info (starting "REST api server" (host args) rest);
                         RestApi_init;
                         listen (endpoint rest (host args)) RestApi_resource]).
Proof.
  intros Hp Hp0 Hext. unfold start_servers. rewrite Hp, Hext.
  destruct (Z.eqb_spec port 0) as [|_]; [contradiction|]. cbn [negb andb].
  destruct (port_rest args) as [rest|]; [destruct (Z.eqb_spec rest 0)|];
    cbn [negb]; run_calls; unfold unit_.
  - exists []. split; [reflexivity|left; reflexivity].
  - eexists. split; [reflexivity|]. right. exists rest. split; reflexivity.
  - exists []. split; [reflexivity|left; reflexivity].
Qed.

(** X30. The guard of the extended JSON-RPC server is made of what
    opened the wallet.  With a wallet file, no password in the
    environment and the extended server asked for, [main] prompts for
    password and user name, opens the wallet with the key of the
    password, serves on the RPC port the resource guarded by the checker
    for that user name and that same key, runs the reactor, and ends
    with the shutdown steps in their order. *)
Theorem guarded_rpc_uses_wallet_key (args : Namespace) (a : ascii) (p : string)
  (port : Z) :
  no_port args = false -> same_port args = false ->
  logfile_and_syslog args = false ->
  wallet args = Some (String a p) ->
  path_exists (String a p) = true ->
  truthy_str (environ_get "NEO_PYTHON_JSONRPC_WALLET_PASSWORD") = false ->
  port_rpc args = Some port -> port <> 0 ->
  extended_rpc args = true ->
  let key := to_aes_key (typed "[password]> ") in
  let opened := Some (UserWallet (String a p)) in
  let checker := BasicUserPassCredentialChecker.mk (typed "[username]> ") key in
  exists before between after,
    main path_exists environ_get typed abspath getpid PID_FILE chain_leveldb_path
      describe to_aes_key behaviour args []
    = (inl tt,
       before
       ++ [prompt "[password]> "; prompt "[username]> ";
           UserWallet_Open (String a p) key]
       ++ between
       ++ [listen (endpoint port (host args))
             (Guarded (guard_resource_with_http_auth
                         (as_checker to_aes_key checker) port opened))]
       ++ after
       ++ map tail (ApiServer.shutdown_calls opened))
    /\ forallb is_setup_call before = true.
Proof.
  intros Hn Hs Hl Hw Hex Henv Hp Hp0 Hext key opened checker.
  destruct (main_after_checks args Hn Hs Hl) as (calls & Hsetup & Hmain).
  assert (Hopen : open_wallet path_exists environ_get typed describe to_aes_key
                    behaviour args calls
                  = (inl (Proceeds opened (Some checker)),
                     calls ++ [prompt "[password]> "; prompt "[username]> ";
                               UserWallet_Open (String a p) key])).
  { unfold open_wallet. rewrite Hw, Hex, Henv. cbn [negb].
    unfold try_except, ask. run_calls. reflexivity. }
  assert (Hshut : forall trace,
            run_and_shut_down behaviour opened trace
            = (inl tt, trace ++ map tail (ApiServer.shutdown_calls opened))).
  { intros trace. unfold run_and_shut_down.
    rewrite main_shutdown_in_turn, in_turn_all_return by (intros; apply all_return).
    reflexivity. }
  assert (Hservers : exists after,
            start_servers to_aes_key behaviour args opened (Some checker)
              (calls ++ [prompt "[password]> "; prompt "[username]> ";
                         UserWallet_Open (String a p) key]
               ++ firstn 7 (node_calls PID_FILE getpid chain_leveldb_path)
               ++ [LoopingCall_start ProcessBlocks 1000;
                   Deferred_addErrback ProcessBlocks]
               ++ skipn 7 (node_calls PID_FILE getpid chain_leveldb_path))
            = (inl tt,
               calls ++ [prompt "[password]> "; prompt "[username]> ";
                         UserWallet_Open (String a p) key]
               ++ (firstn 7 (node_calls PID_FILE getpid chain_leveldb_path)
                   ++ [LoopingCall_start ProcessBlocks 1000;
                       Deferred_addErrback ProcessBlocks]
                   ++ skipn 7 (node_calls PID_FILE getpid chain_leveldb_path)
                   ++ [logger_info (starting "extended json-rpc api server"
                                      (host args) port);
                       ExtendedJsonRpcApi_init port opened])
               ++ [listen (endpoint port (host args))
                     (Guarded (guard_resource_with_http_auth
                                 (as_checker to_aes_key checker) port opened))]
               ++ after)).
  { unfold start_servers. rewrite Hp, Hext.
    destruct (Z.eqb_spec port 0) as [|_]; [contradiction|]. cbn [negb andb].
    destruct (port_rest args) as [rest|]; [destruct (Z.eqb_spec rest 0)|];
      cbn [negb]; run_calls; cbn [firstn skipn node_calls app].
    - exists []. reflexivity.
    - eexists. reflexivity.
    - exists []. reflexivity. }
  destruct Hservers as (after & Hservers).
  exists calls,
    (firstn 7 (node_calls PID_FILE getpid chain_leveldb_path)
     ++ [LoopingCall_start ProcessBlocks 1000; Deferred_addErrback ProcessBlocks]
     ++ skipn 7 (node_calls PID_FILE getpid chain_leveldb_path)
     ++ [logger_info (starting "extended json-rpc api server" (host args) port);
         ExtendedJsonRpcApi_init port opened]),
    after.
  split; [|exact Hsetup].
  rewrite Hmain, (and_then_returns _ _ _ _ _ Hopen).
  rewrite (and_then_returns _ _ _ _ _ (start_node_returns opened _)).
  rewrite <- !app_assoc.
  rewrite (and_then_returns _ _ _ _ _ Hservers), Hshut.
  rewrite <- !app_assoc. reflexivity.
Qed.

End MainRuns.

Lemma argument_errors_end_main_witness :
  example_main no_environment (with_ports (Some 0) None false None testnet_args)
  = (inl tt,
     [ApiServerMain.print "Error: specify at least one of --port-rpc / --port-rest";
      ApiServerMain.parser_print_help]).
Proof.
  apply (argument_errors_end_main (fun _ => true) no_environment example_typed
           (fun p => p) 4242 "/tmp/neopython-api-server.pid" "/chains/test"
           example_describe example_key (fun _ => Ok tt) (fun _ => eq_refl)
           (with_ports (Some 0) None false None testnet_args)).
  reflexivity.
Defined.

Lemma syslog_local_zero_overrides_logfile_witness :
  ApiServerMain.logfile_and_syslog
    (with_logging (Some "api.log"%string) false (Some 0) testnet_args)
  = false
  /\ ApiServerMain.configure_logging (fun p => p) (fun _ => Ok tt)
       (with_logging (Some "api.log"%string) false (Some 0) testnet_args) []
     = (inl tt,
        [ApiServerMain.print "Logging to syslog local0 facility";
         ApiServerMain.logzero_syslog 16]).
Proof.
  apply (syslog_local_zero_overrides_logfile (fun p => p) (fun _ => Ok tt)
           (fun _ => eq_refl)
           (with_logging (Some "api.log"%string) false (Some 0) testnet_args)
           "a"%char "pi.log" 0 []); reflexivity.
Defined.

Lemma environment_password_stops_main_witness :
  exists calls,
    example_main password_in_environment
      (with_ports (Some 10332) None true (Some "w.db3"%string) testnet_args)
    = (inl tt,
       calls
       ++ [ApiServerMain.UserWallet_Open "w.db3"
             (example_key (str_of_string "secret"));
           ApiServerMain.print
             "Could not open wallet local variable 'username' referenced before assignment"]).
Proof.
  destruct (environment_password_stops_main (fun _ => true) password_in_environment
              example_typed (fun p => p) 4242 "/tmp/neopython-api-server.pid"
              "/chains/test" example_describe example_key (fun _ => Ok tt)
              (fun _ => eq_refl)
              (with_ports (Some 10332) None true (Some "w.db3"%string) testnet_args)
              "w"%char ".db3" (str_of_string "secret")
              eq_refl eq_refl eq_refl eq_refl eq_refl eq_refl ltac:(discriminate))
    as (calls & Hmain & _).
  exists calls. exact Hmain.
Defined.

Lemma extended_rpc_without_wallet_raises_witness :
  fst (example_main no_environment
         (with_ports (Some 10332) None true None testnet_args))
  = inr (ApiServerMain.UnboundLocalError "credentialChecker").
Proof.
  destruct (extended_rpc_without_wallet_raises (fun _ => true) no_environment
              example_typed (fun p => p) 4242 "/tmp/neopython-api-server.pid"
              "/chains/test" example_describe example_key (fun _ => Ok tt)
              (fun _ => eq_refl)
              (with_ports (Some 10332) None true None testnet_args) 10332
              eq_refl eq_refl eq_refl eq_refl eq_refl ltac:(discriminate) eq_refl)
    as (calls & Hmain & _).
  unfold example_main. rewrite Hmain. reflexivity.
Defined.

Lemma plain_rpc_is_served_unguarded_witness :
  ApiServerMain.start_servers example_key (fun _ => Ok tt)
    (with_ports (Some 10332) None false None testnet_args)
    (Some (UserWallet "w.db3")) (Some alice) []
  = (inl tt,
     [ApiServerMain.logger_info
        "Starting json-rpc api server on http://0.0.0.0:10332";
      ApiServerMain.JsonRpcApi_init 10332 (Some (UserWallet "w.db3"));
      ApiServerMain.listen "tcp:port=10332:interface=0.0.0.0"
        (ApiServerMain.JsonRpcApi_resource 10332 (Some (UserWallet "w.db3")))]).
Proof.
  destruct (plain_rpc_is_served_unguarded example_key (fun _ => Ok tt)
              (fun _ => eq_refl)
              (with_ports (Some 10332) None false None testnet_args) 10332
              (Some (UserWallet "w.db3")) (Some alice) []
              eq_refl ltac:(discriminate) eq_refl)
    as (calls & Hrun & [->|(rest & Hrest & _)]).
  - rewrite Hrun. reflexivity.
  - discriminate Hrest.
Defined.

Lemma guarded_rpc_uses_wallet_key_witness :
  fst (example_main no_environment
         (with_ports (Some 10332) None true (Some "w.db3"%string) testnet_args))
  = inl tt.
Proof.
  destruct (guarded_rpc_uses_wallet_key (fun _ => true) no_environment
              example_typed (fun p => p) 4242 "/tmp/neopython-api-server.pid"
              "/chains/test" example_describe example_key (fun _ => Ok tt)
              (fun _ => eq_refl)
              (with_ports (Some 10332) None true (Some "w.db3"%string) testnet_args)
              "w"%char ".db3" 10332
              eq_refl eq_refl eq_refl eq_refl eq_refl eq_refl eq_refl
              ltac:(discriminate) eq_refl)
    as (before & between & after & Hmain & _).
  unfold example_main. rewrite Hmain. reflexivity.
Defined.
